(** * you-app-backend: the chat message lifecycle and delivery pipeline

    A shallow embedding of the chat module of the NestJS backend:
    - [schemas/message.schema.ts]: the persisted [Message] and its pre-save
      middleware,
    - [modules/users/users.service.ts]: [findById],
    - [modules/chat/chat.service.ts]: [ChatService],
    - [modules/chat/chat.microservice.ts]: [ChatMicroservice], the consumer
      of the delivery queue.

    Asynchronous methods become computations in a state-and-exception monad
    over a [World] that holds the two MongoDB collections, the clock, the
    broker side of the RabbitMQ client, the acknowledgements of the consumer
    channel and the console.  MongoDB, Mongoose and the RabbitMQ client are
    libraries: their operations are modelled by their documented behaviour, on
    lists of documents in collection order.

    A [string] holds the UTF-8 encoding of a JavaScript string. *)

From Stdlib Require Import Ascii String ZArith Lia.
From stdpp Require Import base decidable option list sorting strings gmap.

Local Open Scope string_scope.
Local Open Scope Z_scope.

(** ** BSON object ids *)

(** An [ObjectId] is kept in the form [toString()] prints it: 24 lower-case
    hexadecimal digits.  [Types.ObjectId.isValid] is modelled on strings as
    "24 hexadecimal digits"; two ids are [equals] when their bytes are, that
    is when the digits agree up to letter case. *)
Abbreviation ObjectId := string.

Module ObjectId.

Definition is_hex (c : ascii) : bool :=
  let n := N_of_ascii c in
  ((48 <=? n) && (n <=? 57) || (97 <=? n) && (n <=? 102)
   || (65 <=? n) && (n <=? 70))%N.

Definition lower (c : ascii) : ascii :=
  let n := N_of_ascii c in
  if ((65 <=? n) && (n <=? 90))%N then ascii_of_N (n + 32) else c.

Fixpoint all_hex (s : string) : bool :=
  match s with
  | EmptyString => true
  | String c s' => is_hex c && all_hex s'
  end.

Fixpoint lowercase (s : string) : string :=
  match s with
  | EmptyString => EmptyString
  | String c s' => String (lower c) (lowercase s')
  end.

(** [Types.ObjectId.isValid(s)] *)
Definition isValid (s : string) : bool :=
  (String.length s =? 24)%nat && all_hex s.

(** The hexadecimal digit of a value below 16. *)
Definition hex_digit (n : N) : ascii :=
  if (n <? 10)%N then ascii_of_N (48 + n) else ascii_of_N (87 + n).

Fixpoint hex_digits (k : nat) (n : N) (acc : string) : string :=
  match k with
  | O => acc
  | S k' => hex_digits k' (n / 16)%N (String (hex_digit (n mod 16)%N) acc)
  end.

(** The id a counter value stands for: [new Types.ObjectId()] draws its
    twelve bytes from a clock and a counter; the model keeps the counter. *)
Definition of_counter (n : N) : ObjectId := hex_digits 24 n EmptyString.

End ObjectId.

(** ** Values of the data model *)

Abbreviation Time := Z.

(** [src/schemas/message.schema.ts], class [Message] with [timestamps: true].
    Nullable dates are [option]s.  The bookkeeping fields [updatedAt] and
    [__v], which no code of the repository reads, are left out. *)
Record Message := {
  _id : ObjectId;
  from : ObjectId;
  to : ObjectId;
  content : string;
  delivered : bool;
  read : bool;
  deliveredAt : option Time;
  readAt : option Time;
  messageType : string;
  attachmentUrl : option string;
  isDeleted : bool;
  deletedAt : option Time;
  createdAt : Time
}.

Global Instance Message_eq_dec : EqDecision Message.
Proof. solve_decision. Defined.

(** The part of a user document the chat module looks at. *)
Record User := {
  username : string;
  email : string
}.

Global Instance User_eq_dec : EqDecision User.
Proof. solve_decision. Defined.

(** What [populate(path, 'username email')] puts in place of an id: the
    selected fields of the referenced user, or [null] when there is none. *)
Record UserRef := {
  ref_id : ObjectId;
  ref_username : string;
  ref_email : string
}.

Inductive Ref :=
  | Unpopulated (id : ObjectId)
  | Populated (u : option UserRef).

(** A message document as the service hands it out: the stored fields, and
    the [from] and [to] paths as the populate calls left them. *)
Record MessageDocument := {
  doc : Message;
  from_ref : Ref;
  to_ref : Ref
}.

(** [src/modules/chat/dto/send-message.dto.ts] *)
Record SendMessageDto := {
  dto_to : string;
  dto_content : string;
  dto_messageType : option string;
  dto_attachmentUrl : option string
}.

(** The payload of a queue event.  The consumer takes it as [any]: a field
    the handler dereferences, [content], may be missing. *)
Record DeliveryEvent := {
  ev_messageId : string;
  ev_from : string;
  ev_to : string;
  ev_content : option string;
  ev_messageType : string;
  ev_timestamp : Time
}.

(** Exceptions, by class.  A Mongoose [ValidationError] is known by its
    [errors]: the paths that failed, each with the [kind] of the validator
    that refused it. *)
Inductive Exn :=
  | BadRequestException (msg : string)
  | NotFoundException (msg : string)
  | ValidationError (errors : gmap string string)
  | Error (msg : string)
  | TypeError (msg : string)
  | BSONError (msg : string).

Global Instance Exn_eq_dec : EqDecision Exn.
Proof. solve_decision. Defined.

(** The object [logMessageAnalytics] prints. *)
Record Analytics := {
  an_event : string;
  an_messageId : string;
  an_from : string;
  an_to : string;
  an_messageType : string;
  an_timestamp : Time;
  an_processingTime : Z
}.

(** A line on the console: [console.log] of a text or of the analytics
    object, or [console.error]. *)
Inductive LogLine :=
  | Log (text : string)
  | LogAnalytics (text : string) (a : Analytics)
  | LogError (text : string) (e : Exn).

(** The context of a queue delivery: the channel's message, known by its
    delivery tag. *)
Record RmqContext := {
  deliveryTag : nat
}.

(** The enclosing state of the application. *)
Record World := {
  messages : list Message;          (* collection [messages], in collection order *)
  users : gmap string User;         (* collection [users], keyed by [_id] *)
  clock : Time;                     (* what [new Date()] reads *)
  nextId : N;                       (* the ObjectId generator *)
  brokerUp : bool;                  (* whether [rabbitMQClient.emit] goes through *)
  emitted : list (string * DeliveryEvent); (* events handed to the broker *)
  acked : list nat;                 (* delivery tags acknowledged on the channel *)
  console : list LogLine
}.

Definition set_messages (l : list Message) (w : World) : World :=
  {| messages := l; users := users w; clock := clock w; nextId := nextId w;
     brokerUp := brokerUp w; emitted := emitted w; acked := acked w;
     console := console w |}.

Definition set_clock (t : Time) (w : World) : World :=
  {| messages := messages w; users := users w; clock := t; nextId := nextId w;
     brokerUp := brokerUp w; emitted := emitted w; acked := acked w;
     console := console w |}.

Definition set_nextId (n : N) (w : World) : World :=
  {| messages := messages w; users := users w; clock := clock w; nextId := n;
     brokerUp := brokerUp w; emitted := emitted w; acked := acked w;
     console := console w |}.

Definition set_emitted (l : list (string * DeliveryEvent)) (w : World) : World :=
  {| messages := messages w; users := users w; clock := clock w;
     nextId := nextId w; brokerUp := brokerUp w; emitted := l;
     acked := acked w; console := console w |}.

Definition set_acked (l : list nat) (w : World) : World :=
  {| messages := messages w; users := users w; clock := clock w;
     nextId := nextId w; brokerUp := brokerUp w; emitted := emitted w;
     acked := l; console := console w |}.

Definition set_console (l : list LogLine) (w : World) : World :=
  {| messages := messages w; users := users w; clock := clock w;
     nextId := nextId w; brokerUp := brokerUp w; emitted := emitted w;
     acked := acked w; console := l |}.

(** ** The monad of asynchronous methods *)

Inductive Result (A : Type) :=
  | Ok (a : A)
  | Throw (e : Exn).
Arguments Ok {A} a.
Arguments Throw {A} e.

(** A method runs from a world to a result and the world it leaves; what it
    did before it threw stays done. *)
Definition M (A : Type) : Type := World → Result A * World.

Global Instance M_ret : MRet M := λ A a w, (Ok a, w).

Global Instance M_bind : MBind M := λ A B f m w,
  match m w with
  | (Ok a, w') => f a w'
  | (Throw e, w') => (Throw e, w')
  end.

Definition throw {A} (e : Exn) : M A := λ w, (Throw e, w).

(** [try { body } catch (error) { handler }] *)
Definition try_catch {A} (body : M A) (handler : Exn → M A) : M A := λ w,
  match body w with
  | (Ok a, w') => (Ok a, w')
  | (Throw e, w') => handler e w'
  end.

Definition gets {A} (f : World → A) : M A := λ w, (Ok (f w), w).
Definition modify (f : World → World) : M unit := λ w, (Ok tt, f w).

(** [new Date()] *)
Definition newDate : M Time := gets clock.

Definition console_log (text : string) : M unit :=
  modify (λ w, set_console (console w ++ [Log text]) w).

Definition console_error (text : string) (e : Exn) : M unit :=
  modify (λ w, set_console (console w ++ [LogError text e]) w).

(** [new Types.ObjectId(s)] *)
Definition newObjectId (s : string) : M ObjectId :=
  if ObjectId.isValid s then mret (ObjectId.lowercase s)
  else throw (BSONError "input must be a 24 character hex string").

(** ** JavaScript strings *)

(** [s.length]: the number of UTF-16 code units of [s].  A character of the
    Basic Multilingual Plane, one to three bytes of UTF-8, is one unit; a
    character beyond it, four bytes, is a surrogate pair.  [pending] counts
    the continuation bytes the character being read still expects; a byte
    that belongs to no character counts as one unit. *)
Fixpoint code_units (pending : nat) (s : string) : nat :=
  match s with
  | EmptyString => 0
  | String c s' =>
      let n := N_of_ascii c in
      if (n <? 128)%N then S (code_units 0 s')
      else if (n <? 192)%N then
        match pending with
        | S k => code_units k s'
        | O => S (code_units 0 s')
        end
      else if (n <? 224)%N then S (code_units 1 s')
      else if (n <? 240)%N then S (code_units 2 s')
      else S (S (code_units 3 s'))
  end.

Definition js_length (s : string) : nat := code_units 0 s.

(** The white space and the line terminators of ECMAScript, by the bytes of
    their UTF-8 encoding: TAB, LF, VT, FF, CR and SP, *)
Definition white_space_1 (a : ascii) : bool := Ascii.is_space a.

(** U+00A0, *)
Definition white_space_2 (a b : ascii) : bool :=
  (N_of_ascii a =? 194)%N && (N_of_ascii b =? 160)%N.

(** U+1680, U+2000 to U+200A, U+2028, U+2029, U+202F, U+205F, U+3000 and
    U+FEFF. *)
Definition white_space_3 (a b c : ascii) : bool :=
  let '(x, y, z) := (N_of_ascii a, N_of_ascii b, N_of_ascii c) in
  ((x =? 225) && (y =? 154) && (z =? 128)
   || (x =? 226) && (y =? 128)
      && ((128 <=? z) && (z <=? 138) || (z =? 168) || (z =? 169) || (z =? 175))
   || (x =? 226) && (y =? 129) && (z =? 159)
   || (x =? 227) && (y =? 128) && (z =? 128)
   || (x =? 239) && (y =? 187) && (z =? 191))%N.

(** Cuts the white space at the head of a string, the characters of two and
    of three bytes being those [w2] and [w3] recognise. *)
Fixpoint strip (w2 : ascii → ascii → bool) (w3 : ascii → ascii → ascii → bool)
    (s : string) : string :=
  match s with
  | String a s1 =>
      if white_space_1 a then strip w2 w3 s1
      else
        match s1 with
        | String b s2 =>
            if w2 a b then strip w2 w3 s2
            else
              match s2 with
              | String c s3 => if w3 a b c then strip w2 w3 s3 else s
              | EmptyString => s
              end
        | EmptyString => s
        end
  | EmptyString => EmptyString
  end.

(** The string without its leading white space. *)
Definition ltrim (s : string) : string := strip white_space_2 white_space_3 s.

(** The same on a reversed string, where the bytes of a character come last
    byte first. *)
Definition ltrim_reversed (s : string) : string :=
  strip (λ a b, white_space_2 b a) (λ a b c, white_space_3 c b a) s.

(** [String.prototype.trim] *)
Definition trim (s : string) : string :=
  String.rev (ltrim_reversed (String.rev (ltrim s))).

(** [s.substring(0, n)] as the console prints it: the first [n] code units
    of [s]; a surrogate pair cut in two leaves a lone surrogate, which is
    printed as U+FFFD. *)
Fixpoint js_prefix (n : nat) (s : string) {struct s} : string :=
  match n, s with
  | S n', String a s1 =>
      let k := N_of_ascii a in
      if (k <? 192)%N then String a (js_prefix n' s1)
      else if (k <? 224)%N then
        match s1 with
        | String b s2 => String a (String b (js_prefix n' s2))
        | EmptyString => s
        end
      else if (k <? 240)%N then
        match s1 with
        | String b (String c s3) =>
            String a (String b (String c (js_prefix n' s3)))
        | _ => s
        end
      else
        match s1 with
        | String b (String c (String d s4)) =>
            match n' with
            | S n'' =>
                String a (String b (String c (String d (js_prefix n'' s4))))
            | O => String "239" (String "191" (String "189" EmptyString))
            end
        | _ => s
        end
  | _, _ => EmptyString
  end.

(** ** Updates of a message: the [$set] documents of the service *)

(** [{ read: true, readAt: now, delivered: true, deliveredAt: now }] *)
Definition set_read (now : Time) (m : Message) : Message :=
  {| _id := _id m; from := from m; to := to m; content := content m;
     delivered := true; read := true; deliveredAt := Some now;
     readAt := Some now; messageType := messageType m;
     attachmentUrl := attachmentUrl m; isDeleted := isDeleted m;
     deletedAt := deletedAt m; createdAt := createdAt m |}.

(** [{ delivered: true, deliveredAt: now }] *)
Definition set_delivered (now : Time) (m : Message) : Message :=
  {| _id := _id m; from := from m; to := to m; content := content m;
     delivered := true; read := read m; deliveredAt := Some now;
     readAt := readAt m; messageType := messageType m;
     attachmentUrl := attachmentUrl m; isDeleted := isDeleted m;
     deletedAt := deletedAt m; createdAt := createdAt m |}.

(** [{ isDeleted: true, deletedAt: now }] *)
Definition set_deleted (now : Time) (m : Message) : Message :=
  {| _id := _id m; from := from m; to := to m; content := content m;
     delivered := delivered m; read := read m; deliveredAt := deliveredAt m;
     readAt := readAt m; messageType := messageType m;
     attachmentUrl := attachmentUrl m; isDeleted := true;
     deletedAt := Some now; createdAt := createdAt m |}.

Definition set_content (c : string) (m : Message) : Message :=
  {| _id := _id m; from := from m; to := to m; content := c;
     delivered := delivered m; read := read m; deliveredAt := deliveredAt m;
     readAt := readAt m; messageType := messageType m;
     attachmentUrl := attachmentUrl m; isDeleted := isDeleted m;
     deletedAt := deletedAt m; createdAt := createdAt m |}.

Definition set_createdAt (t : Time) (m : Message) : Message :=
  {| _id := _id m; from := from m; to := to m; content := content m;
     delivered := delivered m; read := read m; deliveredAt := deliveredAt m;
     readAt := readAt m; messageType := messageType m;
     attachmentUrl := attachmentUrl m; isDeleted := isDeleted m;
     deletedAt := deletedAt m; createdAt := t |}.

(** ** The Mongoose model of the [messages] collection *)

(** [{ createdAt: -1 }]: [a] may stand before [b]. *)
Definition newer_first (a b : Message) : Prop := createdAt b ≤ createdAt a.

Global Instance newer_first_dec a b : Decision (newer_first a b).
Proof. unfold newer_first. apply _. Defined.

Inductive Path := path_from | path_to.

(** What [populate] reads: the user an id refers to, with the fields
    ['username email'] selected. *)
Definition resolve (us : gmap string User) (id : ObjectId) : option UserRef :=
  match us !! id with
  | Some u => Some {| ref_id := id; ref_username := username u;
                      ref_email := email u |}
  | None => None
  end.

Definition unpopulated (m : Message) : MessageDocument :=
  {| doc := m; from_ref := Unpopulated (from m); to_ref := Unpopulated (to m) |}.

Definition populate_path (us : gmap string User) (p : Path)
    (d : MessageDocument) : MessageDocument :=
  match p with
  | path_from => {| doc := doc d;
                    from_ref := Populated (resolve us (from (doc d)));
                    to_ref := to_ref d |}
  | path_to => {| doc := doc d; from_ref := from_ref d;
                  to_ref := Populated (resolve us (to (doc d))) |}
  end.

Definition populate_paths (us : gmap string User) (ps : list Path)
    (d : MessageDocument) : MessageDocument :=
  foldl (λ d p, populate_path us p d) d ps.

Module Model.

(** A query under construction: [find] starts it, the chained calls fill in
    its options, [exec] runs it.  The options are a record: the order of the
    chained calls does not matter, the server skips before it limits. *)
Record Query := {
  q_filter : Message → bool;
  q_sort : bool;
  q_limit : option nat;
  q_skip : option nat;
  q_populate : list Path
}.

Definition find (f : Message → bool) : Query :=
  {| q_filter := f; q_sort := false; q_limit := None; q_skip := None;
     q_populate := [] |}.

(** [.sort({ createdAt: -1 })] *)
Definition sort_createdAt_desc (q : Query) : Query :=
  {| q_filter := q_filter q; q_sort := true; q_limit := q_limit q;
     q_skip := q_skip q; q_populate := q_populate q |}.

Definition limit (n : nat) (q : Query) : Query :=
  {| q_filter := q_filter q; q_sort := q_sort q; q_limit := Some n;
     q_skip := q_skip q; q_populate := q_populate q |}.

Definition skip (n : nat) (q : Query) : Query :=
  {| q_filter := q_filter q; q_sort := q_sort q; q_limit := q_limit q;
     q_skip := Some n; q_populate := q_populate q |}.

Definition populate (p : Path) (q : Query) : Query :=
  {| q_filter := q_filter q; q_sort := q_sort q; q_limit := q_limit q;
     q_skip := q_skip q; q_populate := q_populate q ++ [p] |}.

Definition matching (f : Message → bool) (l : list Message) : list Message :=
  filter (λ m, f m = true) l.

(** The cursor of a query: filter, sort, skip, limit.  A limit of 0 is
    MongoDB's "no limit". *)
Definition cursor (q : Query) (l : list Message) : list Message :=
  let found := matching (q_filter q) l in
  let sorted := if q_sort q then merge_sort newer_first found else found in
  let skipped := drop (default 0%nat (q_skip q)) sorted in
  match q_limit q with
  | Some (S n) => take (S n) skipped
  | _ => skipped
  end.

Definition exec (q : Query) : M (list MessageDocument) := λ w,
  (Ok (populate_paths (users w) (q_populate q) ∘ unpopulated
         <$> cursor q (messages w)), w).

(** [countDocuments(filter).exec()] *)
Definition countDocuments (f : Message → bool) : M nat :=
  gets (λ w, length (matching f (messages w))).

(** The collection after [findOneAndUpdate(filter, { $set })], with the
    document it matched, before and after the update. *)
Definition update_one (f : Message → bool) (upd : Message → Message)
    (l : list Message) : option (Message * Message) * list Message :=
  match list_find (λ m, f m = true) l with
  | Some (i, m) => (Some (m, upd m), <[i := upd m]> l)
  | None => (None, l)
  end.

(** [findOneAndUpdate(filter, update, { new: true })]: the updated document,
    or [null]. *)
Definition findOneAndUpdate_new (f : Message → bool) (upd : Message → Message)
    : M (option Message) := λ w,
  let '(r, l) := update_one f upd (messages w) in
  (Ok (snd <$> r), set_messages l w).

(** [findOneAndUpdate(filter, update)]: the document as it was, or [null]. *)
Definition findOneAndUpdate (f : Message → bool) (upd : Message → Message)
    : M (option Message) := λ w,
  let '(r, l) := update_one f upd (messages w) in
  (Ok (fst <$> r), set_messages l w).

(** [findByIdAndUpdate(id, update)] *)
Definition findByIdAndUpdate (id : ObjectId) (upd : Message → Message)
    : M (option Message) :=
  findOneAndUpdate (λ m, bool_decide (_id m = id)) upd.

(** [updateMany(filter, { $set })]: every matching document is updated;
    [modifiedCount] counts those the update changed. *)
Definition updateMany (f : Message → bool) (upd : Message → Message)
    : M nat := λ w,
  (Ok (length (filter (λ m, f m = true ∧ upd m ≠ m) (messages w))),
   set_messages ((λ m, if f m then upd m else m) <$> messages w) w).

(** [new this.messageModel({...})]: the document gets its [_id]; the schema's
    [trim] setter runs on [content]; [createdAt] is unset until [save]. *)
Definition create (from_ to_ : ObjectId) (content_ messageType_ : string)
    (attachmentUrl_ : option string) (delivered_ read_ : bool) : M Message :=
  λ w,
  (Ok {| _id := ObjectId.of_counter (nextId w); from := from_; to := to_;
         content := trim content_; delivered := delivered_; read := read_;
         deliveredAt := None; readAt := None; messageType := messageType_;
         attachmentUrl := attachmentUrl_; isDeleted := false;
         deletedAt := None; createdAt := 0 |},
   set_nextId (nextId w + 1)%N w).

(** The validators of the path [content]: [required: true], then
    [maxlength: 5000]; the first that fails gives the error of the path. *)
Definition content_errors (c : string) : gmap string string :=
  if bool_decide (c = "") then {[ "content" := "required" ]}
  else if (5000 <? js_length c)%nat then {[ "content" := "maxlength" ]}
  else ∅.

(** The validator of the path [messageType]:
    [enum: ['text', 'image', 'video', 'file']]. *)
Definition messageType_errors (t : string) : gmap string string :=
  if bool_decide (t ∈ ["text"; "image"; "video"; "file"]) then ∅
  else {[ "messageType" := "enum" ]}.

(** The schema's validators, which [save] runs first: every path is
    validated, and the document is refused with the errors of all the paths
    that failed. *)
Definition validate (m : Message) : M unit :=
  let errors := content_errors (content m) ∪ messageType_errors (messageType m) in
  if bool_decide (errors = ∅) then mret tt
  else throw (ValidationError errors).

(** [MessageSchema.pre('save', ...)] *)
Definition pre_save (m : Message) : M Message :=
  if bool_decide (from m = to m) then
    throw (Error "Cannot send message to yourself")
  else
    let m := if bool_decide (content m = "") then m
             else set_content (trim (content m)) m in
    if bool_decide (content m = "") || (js_length (content m) =? 0)%nat
    then throw (Error "Message content cannot be empty")
    else mret m.

(** [MessageSchema.post('save', ...)] *)
Definition post_save (m : Message) : M unit :=
  console_log ("📨 Message saved: " +:+ _id m +:+ " from " +:+ from m
               +:+ " to " +:+ to m).

(** [message.save()] of a new document: validators, the pre-save middleware,
    the insert stamped with [createdAt], the post-save middleware. *)
Definition save (m : Message) : M Message :=
  validate m;;
  m ← pre_save m;
  now ← newDate;
  let saved := set_createdAt now m in
  modify (λ w, set_messages (messages w ++ [saved]) w);;
  post_save saved;;
  mret saved.

(** [savedMessage.populate([...])] *)
Definition populate_doc (ps : list Path) (m : Message) : M MessageDocument :=
  gets (λ w, populate_paths (users w) ps (unpopulated m)).

End Model.

(** ** Aggregation stages *)

Module Aggregate.

(** A [$group] output document of the chat-list pipeline. *)
Record Group := {
  g_id : ObjectId;
  g_lastMessage : Message;
  g_unreadCount : nat
}.

(** The [$project] output. *)
Record LastMessage := {
  lm_content : string;
  lm_createdAt : Time;
  lm_read : bool
}.

Record Conversation := {
  userId : ObjectId;
  c_username : string;
  c_email : string;
  lastMessage : LastMessage;
  unreadCount : nat
}.

(** [{ $match: filter }] *)
Definition match_ (f : Message → bool) (l : list Message) : list Message :=
  filter (λ m, f m = true) l.

(** [{ $sort: { createdAt: -1 } }] *)
Definition sort_createdAt_desc (l : list Message) : list Message :=
  merge_sort newer_first l.

(** [{ $group: { _id: key, lastMessage: { $first: '$$ROOT' },
                 unreadCount: { $sum: inc } } }]:
    one output per distinct key; the accumulators see the documents of the
    key in the order they come in. *)
Definition group (key : Message → ObjectId) (inc : Message → nat)
    (l : list Message) : list Group :=
  omap (λ k,
          let docs := filter (λ m, key m = k) l in
          match docs with
          | first :: _ =>
              Some {| g_id := k; g_lastMessage := first;
                      g_unreadCount := sum_list (inc <$> docs) |}
          | [] => None
          end)
       (remove_dups (key <$> l)).

(** [{ $sort: { 'lastMessage.createdAt': -1 } }] *)
Definition last_newer_first (a b : Group) : Prop :=
  newer_first (g_lastMessage a) (g_lastMessage b).

Global Instance last_newer_first_dec a b : Decision (last_newer_first a b).
Proof. unfold last_newer_first. apply _. Defined.

Definition sort_lastMessage_desc (l : list Group) : list Group :=
  merge_sort last_newer_first l.

(** [{ $lookup: { from: 'users', localField: '_id', foreignField: '_id',
                  as: 'user' } }]: the array of the users with that [_id]. *)
Definition lookup_users (us : gmap string User) (l : list Group)
    : list (Group * list User) :=
  (λ g, (g, option_list (us !! g_id g))) <$> l.

(** [{ $unwind: '$user' }]: one output per element of the array, none for
    an empty array. *)
Definition unwind_user (l : list (Group * list User)) : list (Group * User) :=
  l ≫= (λ gu, (λ u, (fst gu, u)) <$> snd gu).

(** [{ $project: { userId: '$_id', username: '$user.username', ... } }] *)
Definition project (gu : Group * User) : Conversation :=
  let (g, u) := gu in
  {| userId := g_id g; c_username := username u; c_email := email u;
     lastMessage := {| lm_content := content (g_lastMessage g);
                       lm_createdAt := createdAt (g_lastMessage g);
                       lm_read := read (g_lastMessage g) |};
     unreadCount := g_unreadCount g |}.

End Aggregate.

(** ** [UsersService] *)

Module UsersService.

(** [findById(id)]: [null] for a string that is no ObjectId, else the user
    with that [_id]. *)
Definition findById (id : string) : M (option User) :=
  if negb (ObjectId.isValid id) then mret None
  else gets (λ w, users w !! ObjectId.lowercase id).

End UsersService.

(** ** The RabbitMQ client *)

(** [rabbitMQClient.emit(pattern, payload)]: hands the event to the broker,
    or throws when the broker cannot be reached. *)
Definition emit (pattern : string) (payload : DeliveryEvent) : M unit := λ w,
  if brokerUp w then (Ok tt, set_emitted (emitted w ++ [(pattern, payload)]) w)
  else (Throw (Error "RabbitMQ client is not connected"), w).

(** ** [ChatService] *)

Module ChatService.

(** [private async publishMessageToQueue(message)] *)
Definition publishMessageToQueue (message : Message) : M unit :=
  let payload :=
    {| ev_messageId := _id message;
       ev_from := from message;
       ev_to := to message;
       ev_content := Some (content message);
       ev_messageType := messageType message;
       ev_timestamp := createdAt message |} in
  emit "message.sent" payload.

(** The value of [s || d] for an optional string [s]. *)
Definition or_else (s : option string) (d : string) : string :=
  match s with
  | Some v => if bool_decide (v = "") then d else v
  | None => d
  end.

(** The value of [s || null]. *)
Definition or_null (s : option string) : option string :=
  match s with
  | Some v => if bool_decide (v = "") then None else Some v
  | None => None
  end.

(** [async sendMessage(fromUserId, sendMessageDto)] *)
Definition sendMessage (fromUserId : string) (sendMessageDto : SendMessageDto)
    : M MessageDocument :=
  let to_ := dto_to sendMessageDto in
  (* validate sender exists *)
  sender ← UsersService.findById fromUserId;
  if negb (bool_decide (is_Some sender)) then
    throw (NotFoundException "Sender not found")
  else
  (* validate receiver exists *)
  receiver ← UsersService.findById to_;
  if negb (bool_decide (is_Some receiver)) then
    throw (NotFoundException "Receiver not found")
  else
  (* prevent self-messaging *)
  if bool_decide (fromUserId = to_) then
    throw (BadRequestException "Cannot send message to yourself")
  else
  (* create message *)
  fromId ← newObjectId fromUserId;
  toId ← newObjectId to_;
  message ← Model.create fromId toId
              (trim (dto_content sendMessageDto))
              (or_else (dto_messageType sendMessageDto) "text")
              (or_null (dto_attachmentUrl sendMessageDto))
              false false;
  savedMessage ← Model.save message;
  (* publish to RabbitMQ *)
  try_catch
    (publishMessageToQueue savedMessage;;
     console_log ("Message published to RabbitMQ: " +:+ _id savedMessage))
    (λ error, console_error "Failed to publish message to RabbitMQ:" error);;
  (* populate sender and receiver data *)
  Model.populate_doc [path_from; path_to] savedMessage.

(** The filter of a conversation:
    [{ $or: [{ from: a, to: b }, { from: b, to: a }], isDeleted: false }] *)
Definition conversation_filter (a b : ObjectId) (m : Message) : bool :=
  (bool_decide (from m = a) && bool_decide (to m = b)
   || bool_decide (from m = b) && bool_decide (to m = a))
  && bool_decide (isDeleted m = false).

(** [async getConversation(userId1, userId2, limit, skip)] *)
Definition getConversation (userId1 userId2 : string) (limit skip : nat)
    : M (list MessageDocument) :=
  if negb (ObjectId.isValid userId1) || negb (ObjectId.isValid userId2) then
    throw (BadRequestException "Invalid user IDs")
  else
    id1 ← newObjectId userId1;
    id2 ← newObjectId userId2;
    messages ← Model.exec
      (Model.populate path_to
        (Model.populate path_from
          (Model.skip skip
            (Model.limit limit
              (Model.sort_createdAt_desc
                (Model.find (conversation_filter id1 id2)))))));
    mret (reverse messages). (* reverse to show oldest first *)

(** [{ to: u, isDeleted: false }] *)
Definition inbox_filter (u : ObjectId) (m : Message) : bool :=
  bool_decide (to m = u) && bool_decide (isDeleted m = false).

(** [async getInboxMessages(userId, limit, skip)] *)
Definition getInboxMessages (userId : string) (limit skip : nat)
    : M (list MessageDocument) :=
  if negb (ObjectId.isValid userId) then
    throw (BadRequestException "Invalid user ID")
  else
    id ← newObjectId userId;
    Model.exec
      (Model.populate path_from
        (Model.skip skip
          (Model.limit limit
            (Model.sort_createdAt_desc (Model.find (inbox_filter id)))))).

(** [{ to: u, read: false, isDeleted: false }] *)
Definition unread_filter (u : ObjectId) (m : Message) : bool :=
  bool_decide (to m = u) && bool_decide (read m = false)
  && bool_decide (isDeleted m = false).

(** [async getUnreadMessages(userId)] *)
Definition getUnreadMessages (userId : string) : M (list MessageDocument) :=
  if negb (ObjectId.isValid userId) then
    throw (BadRequestException "Invalid user ID")
  else
    id ← newObjectId userId;
    Model.exec
      (Model.populate path_from
        (Model.sort_createdAt_desc (Model.find (unread_filter id)))).

(** [async getUnreadCount(userId)] *)
Definition getUnreadCount (userId : string) : M nat :=
  if negb (ObjectId.isValid userId) then mret 0%nat
  else
    id ← newObjectId userId;
    Model.countDocuments (unread_filter id).

(** [{ _id: id, to: u, isDeleted: false }] *)
Definition read_filter (id u : ObjectId) (m : Message) : bool :=
  bool_decide (_id m = id) && bool_decide (to m = u)
  && bool_decide (isDeleted m = false).

(** [async markAsRead(messageId, userId)] *)
Definition markAsRead (messageId userId : string) : M MessageDocument :=
  if negb (ObjectId.isValid messageId) || negb (ObjectId.isValid userId) then
    throw (BadRequestException "Invalid IDs")
  else
    id ← newObjectId messageId;
    u ← newObjectId userId;
    now ← newDate;
    message ← Model.findOneAndUpdate_new (read_filter id u) (set_read now);
    match message with
    | None => throw (NotFoundException "Message not found or unauthorized")
    | Some m => Model.populate_doc [path_from] m
    end.

(** [{ from: f, to: u, read: false, isDeleted: false }] *)
Definition unread_from_filter (f u : ObjectId) (m : Message) : bool :=
  bool_decide (from m = f) && bool_decide (to m = u)
  && bool_decide (read m = false) && bool_decide (isDeleted m = false).

(** [async markConversationAsRead(userId, fromUserId)] *)
Definition markConversationAsRead (userId fromUserId : string) : M nat :=
  if negb (ObjectId.isValid userId) || negb (ObjectId.isValid fromUserId) then
    throw (BadRequestException "Invalid user IDs")
  else
    f ← newObjectId fromUserId;
    u ← newObjectId userId;
    now ← newDate;
    Model.updateMany (unread_from_filter f u) (set_read now).

(** [{ _id: id, $or: [{ from: u }, { to: u }] }] *)
Definition delete_filter (id u : ObjectId) (m : Message) : bool :=
  bool_decide (_id m = id)
  && (bool_decide (from m = u) || bool_decide (to m = u)).

(** [async deleteMessage(messageId, userId)] *)
Definition deleteMessage (messageId userId : string) : M unit :=
  if negb (ObjectId.isValid messageId) || negb (ObjectId.isValid userId) then
    throw (BadRequestException "Invalid IDs")
  else
    id ← newObjectId messageId;
    u ← newObjectId userId;
    now ← newDate;
    message ← Model.findOneAndUpdate (delete_filter id u) (set_deleted now);
    match message with
    | None => throw (NotFoundException "Message not found or unauthorized")
    | Some _ => mret tt
    end.

(** [{ $or: [{ from: u }, { to: u }], isDeleted: false }] *)
Definition involves (u : ObjectId) (m : Message) : bool :=
  (bool_decide (from m = u) || bool_decide (to m = u))
  && bool_decide (isDeleted m = false).

(** [{ $cond: [{ $eq: ['$from', u] }, '$to', '$from'] }] *)
Definition counterpart (u : ObjectId) (m : Message) : ObjectId :=
  if bool_decide (from m = u) then to m else from m.

(** [{ $cond: [{ $and: [{ $eq: ['$to', u] }, { $eq: ['$read', false] }] },
               1, 0] }] *)
Definition unread_inc (u : ObjectId) (m : Message) : nat :=
  if bool_decide (to m = u) && bool_decide (read m = false) then 1%nat
  else 0%nat.

(** The pipeline of [getChatList], on the two collections. *)
Definition chat_list_pipeline (u : ObjectId) (us : gmap string User)
    (l : list Message) : list Aggregate.Conversation :=
  Aggregate.project
    <$> Aggregate.unwind_user
          (Aggregate.lookup_users us
            (Aggregate.sort_lastMessage_desc
              (Aggregate.group (counterpart u) (unread_inc u)
                (Aggregate.sort_createdAt_desc
                  (Aggregate.match_ (involves u) l))))).

(** [async getChatList(userId)] *)
Definition getChatList (userId : string) : M (list Aggregate.Conversation) :=
  if negb (ObjectId.isValid userId) then
    throw (BadRequestException "Invalid user ID")
  else
    userObjectId ← newObjectId userId;
    gets (λ w, chat_list_pipeline userObjectId (users w) (messages w)).

(** [async markAsDelivered(messageId)] *)
Definition markAsDelivered (messageId : string) : M unit :=
  if negb (ObjectId.isValid messageId) then mret tt
  else
    id ← newObjectId messageId;
    now ← newDate;
    Model.findByIdAndUpdate id (set_delivered now);;
    mret tt.

End ChatService.

(** ** [ChatMicroservice] *)

Module ChatMicroservice.

Section Consumer.

(** The injected [chatService], of which the consumer calls one method. *)
Variable chatService_markAsDelivered : string → M unit.

(** [private simulateDelay(ms)]: the timer fires [ms] later. *)
Definition simulateDelay (ms : Z) : M unit :=
  modify (λ w, set_clock (clock w + ms) w).

(** [channel.ack(originalMsg)] *)
Definition channel_ack (context : RmqContext) : M unit :=
  modify (λ w, set_acked (acked w ++ [deliveryTag context]) w).

(** [data.content.substring(0, 50)] *)
Definition content_preview (data : DeliveryEvent) : M string :=
  match ev_content data with
  | Some c => mret (js_prefix 50 c)
  | None =>
      throw (TypeError "Cannot read properties of undefined (reading 'substring')")
  end.

(** [private async sendPushNotification(data)] *)
Definition sendPushNotification (data : DeliveryEvent) : M unit :=
  console_log ("Sending push notification to user: " +:+ ev_to data);;
  console_log "Notification title: New Message";;
  body ← content_preview data;
  console_log ("Notification body: " +:+ body);;
  simulateDelay 200;;
  console_log "Push notification sent".

(** [private async notifyReceiverViaWebSocker(data)] *)
Definition notifyReceiverViaWebSocker (data : DeliveryEvent) : M unit :=
  console_log ("Emitting WebSocket event to user: " +:+ ev_to data);;
  console_log "Event: new_message";;
  simulateDelay 100;;
  console_log "WebSocket event emitted".

(** [private async logMessageAnalytics(data)] *)
Definition logMessageAnalytics (data : DeliveryEvent) : M unit :=
  console_log "Logging message analytics";;
  now ← newDate;
  let analytics :=
    {| an_event := "message_sent";
       an_messageId := ev_messageId data;
       an_from := ev_from data;
       an_to := ev_to data;
       an_messageType := ev_messageType data;
       an_timestamp := ev_timestamp data;
       an_processingTime := now - ev_timestamp data |} in
  modify (λ w, set_console (console w ++ [LogAnalytics "Analytics:" analytics]) w);;
  console_log "Analytics logged".

(** [@EventPattern('message.sent') async handleMessageSent(data, context)] *)
Definition handleMessageSent (data : DeliveryEvent) (context : RmqContext)
    : M unit :=
  console_log "RabbitMQ: Received message.sent event";;
  console_log ("Message ID: " +:+ ev_messageId data);;
  console_log ("From: " +:+ ev_from data);;
  console_log ("To: " +:+ ev_to data);;
  console_log ("Content: " +:+ default "undefined" (ev_content data));;
  try_catch
    ((* simulate async processing delay *)
     simulateDelay 500;;
     (* mark message as delivered in db *)
     chatService_markAsDelivered (ev_messageId data);;
     console_log ("Message marked as delivered: " +:+ ev_messageId data);;
     (* simulate push notification *)
     sendPushNotification data;;
     (* simulate real-time notification via WebSocket *)
     notifyReceiverViaWebSocker data;;
     (* log analytics *)
     logMessageAnalytics data;;
     (* acknowledge message manually *)
     channel_ack context;;
     console_log ("Message processing completed: " +:+ ev_messageId data))
    (λ error,
       console_error "Error processing messages:" error;;
       (* acknowledge to prevent infinite retry *)
       channel_ack context).

End Consumer.

(** The consumer as the application wires it, on the real [ChatService]. *)
Definition consume : DeliveryEvent → RmqContext → M unit :=
  handleMessageSent ChatService.markAsDelivered.

End ChatMicroservice.

(** * Notions of the specification *)

Module Spec.

(** The participants of [m] are exactly [a] and [b], in either direction,
    and [m] is not deleted. *)
Definition between (a b : ObjectId) (m : Message) : Prop :=
  (from m = a ∧ to m = b ∨ from m = b ∧ to m = a) ∧ isDeleted m = false.

Global Instance between_dec a b m : Decision (between a b m).
Proof. unfold between. apply _. Defined.

(** The page of a conversation as the specification words it: the window
    of size [limit] at offset [skip] of the newest-first ordering,
    reversed. *)
Definition conversation_page (a b : ObjectId) (limit skip : nat)
    (l : list Message) : list Message :=
  reverse (take limit (drop skip (merge_sort newer_first (filter (between a b) l)))).

(** Oldest first. *)
Definition older_first (x y : Message) : Prop := createdAt x ≤ createdAt y.

(** [m] is an unread, non-deleted message from [c] to [u]. *)
Definition unread_from (c u : ObjectId) (m : Message) : Prop :=
  from m = c ∧ to m = u ∧ read m = false ∧ isDeleted m = false.

Global Instance unread_from_dec c u m : Decision (unread_from c u m).
Proof. unfold unread_from. apply _. Defined.

(** The entry whose last message is more recent stands first. *)
Definition recent_first (a b : Aggregate.Conversation) : Prop :=
  Aggregate.lm_createdAt (Aggregate.lastMessage b)
  ≤ Aggregate.lm_createdAt (Aggregate.lastMessage a).

(** What a chat-list entry shows of a message. *)
Definition shown (m : Message) : Aggregate.LastMessage :=
  {| Aggregate.lm_content := content m;
     Aggregate.lm_createdAt := createdAt m;
     Aggregate.lm_read := read m |}.

End Spec.

(** Whether [UsersService.findById] finds a user for the string [u]. *)
Definition user_exists (u : string) (w : World) : bool :=
  ObjectId.isValid u && bool_decide (is_Some (users w !! ObjectId.lowercase u)).

(** Two states of a message that agree on every field but [readAt] and
    [deliveredAt]. *)
Definition same_but_read_times (a b : Message) : Prop :=
  _id a = _id b ∧ from a = from b ∧ to a = to b ∧ content a = content b
  ∧ delivered a = delivered b ∧ read a = read b
  ∧ messageType a = messageType b ∧ attachmentUrl a = attachmentUrl b
  ∧ isDeleted a = isDeleted b ∧ deletedAt a = deletedAt b
  ∧ createdAt a = createdAt b.

(** Computations that only ever append to the collection. *)
Definition appends {A} (c : M A) : Prop :=
  ∀ w, ∃ k, messages (snd (c w)) = (messages w ++ k)%list.

(** The messages the pipeline groups: those that involve [u], newest
    first. *)
Definition grouped (u : ObjectId) (l : list Message) : list Message :=
  Aggregate.sort_createdAt_desc (Aggregate.match_ (ChatService.involves u) l).

(** ** Worlds used in the examples *)

Module Examples.

Definition alice : string := "507f1f77bcf86cd799439011".
Definition bob : string := "507f1f77bcf86cd799439012".
Definition carol : string := "507f1f77bcf86cd799439013".

Definition registered : gmap string User :=
  <[alice := {| username := "alice"; email := "alice@example.com" |}]>
    (<[bob := {| username := "bob"; email := "bob@example.com" |}]> ∅).

Definition message (id from_ to_ content_ : string) (at_ : Time) : Message :=
  {| _id := id; from := from_; to := to_; content := content_;
     delivered := false; read := false; deliveredAt := None; readAt := None;
     messageType := "text"; attachmentUrl := None; isDeleted := false;
     deletedAt := None; createdAt := at_ |}.

Definition hello : Message :=
  message "65a000000000000000000001" alice bob "hello" 1000.

(** A send from alice to bob, and the document it saves in [world [] up]. *)
Definition greeting : SendMessageDto :=
  {| dto_to := bob; dto_content := "  hello "; dto_messageType := None;
     dto_attachmentUrl := None |}.

Definition greeting_saved : Message :=
  message "000000000000000000000007" alice bob "hello" 5000.

(** [hello], deleted by its sender at time 2000, before it was delivered. *)
Definition gone : Message := set_deleted 2000 hello.

(** The event [publishMessageToQueue] emits for [hello]. *)
Definition hello_sent : DeliveryEvent :=
  {| ev_messageId := "65a000000000000000000001"; ev_from := alice;
     ev_to := bob; ev_content := Some "hello"; ev_messageType := "text";
     ev_timestamp := 1000 |}.

(** A message service whose store is out of reach. *)
Definition unreachable_store (messageId : string) : M unit :=
  throw (Error "MongoNetworkError").

Definition world (l : list Message) (up : bool) : World :=
  {| messages := l; users := registered; clock := 5000; nextId := 7;
     brokerUp := up; emitted := []; acked := []; console := [] |}.

End Examples.

(** * Further notions *)

(** [strip] on the list of the bytes of a string. *)
Fixpoint strip_list (w2 : ascii → ascii → bool)
    (w3 : ascii → ascii → ascii → bool) (l : list ascii) : list ascii :=
  match l with
  | a :: l1 =>
      if white_space_1 a then strip_list w2 w3 l1
      else
        match l1 with
        | b :: l2 =>
            if w2 a b then strip_list w2 w3 l2
            else
              match l2 with
              | c :: l3 => if w3 a b c then strip_list w2 w3 l3 else l
              | [] => l
              end
        | [] => l
        end
  | [] => []
  end.

(** A list of bytes that does not start with white space. *)
Definition starts_clean (w2 : ascii → ascii → bool)
    (w3 : ascii → ascii → ascii → bool) (l : list ascii) : Prop :=
  match l with
  | a :: l1 =>
      white_space_1 a = false
      ∧ match l1 with
        | b :: l2 =>
            w2 a b = false
            ∧ match l2 with
              | c :: _ => w3 a b c = false
              | [] => True
              end
        | [] => True
        end
  | [] => True
  end.

(** The document [sendMessage] builds and saves in the world [w]. *)
Definition new_message (fromUserId : string) (dto : SendMessageDto) (w : World)
    : Message :=
  {| _id := ObjectId.of_counter (nextId w);
     from := ObjectId.lowercase fromUserId;
     to := ObjectId.lowercase (dto_to dto);
     content := trim (dto_content dto);
     delivered := false; read := false; deliveredAt := None; readAt := None;
     messageType := ChatService.or_else (dto_messageType dto) "text";
     attachmentUrl := ChatService.or_null (dto_attachmentUrl dto);
     isDeleted := false; deletedAt := None; createdAt := clock w |}.

(** The event that tells the queue of a saved message. *)
Definition sent_event (m : Message) : string * DeliveryEvent :=
  ("message.sent",
   {| ev_messageId := _id m; ev_from := from m; ev_to := to m;
      ev_content := Some (content m); ev_messageType := messageType m;
      ev_timestamp := createdAt m |}).

(** The validation errors of a send: those of its trimmed content and of
    its message type. *)
Definition validation_errors (dto : SendMessageDto) : gmap string string :=
  Model.content_errors (trim (dto_content dto))
  ∪ Model.messageType_errors (ChatService.or_else (dto_messageType dto) "text").

(** What the validators and the pre-save middleware hold against a send,
    in the order they run; [None] when they let it through. *)
Definition store_write_error (fromUserId : string) (dto : SendMessageDto)
    : option Exn :=
  if negb (bool_decide (validation_errors dto = ∅)) then
    Some (ValidationError (validation_errors dto))
  else if bool_decide (ObjectId.lowercase fromUserId
                       = ObjectId.lowercase (dto_to dto)) then
    Some (Error "Cannot send message to yourself")
  else None.

(** The errors [sendMessage] and the [save] it calls raise by themselves:
    those of the checks of the service, of the validators and of the
    pre-save middleware. *)
Definition refusal (e : Exn) : Prop :=
  e = NotFoundException "Sender not found"
  ∨ e = NotFoundException "Receiver not found"
  ∨ e = BadRequestException "Cannot send message to yourself"
  ∨ (∃ errors, e = ValidationError errors)
  ∨ e = Error "Cannot send message to yourself"
  ∨ e = Error "Message content cannot be empty".

(** The world after the save of [m] in [w]: the id generator has moved on,
    the collection has [m] at its end, the post-save line is printed. *)
Definition after_save (m : Message) (w : World) : World :=
  set_console
    (console w ++ [Log ("📨 Message saved: " +:+ _id m +:+ " from " +:+ from m
                        +:+ " to " +:+ to m)])
    (set_messages (messages w ++ [m]) (set_nextId (nextId w + 1) w)).

(** The world after the publish attempt that follows the save. *)
Definition after_publish (m : Message) (w : World) : World :=
  if brokerUp w then
    set_console
      (console w ++ [Log ("Message published to RabbitMQ: " +:+ _id m)])
      (set_emitted (emitted w ++ [sent_event m]) w)
  else
    set_console
      (console w ++ [LogError "Failed to publish message to RabbitMQ:"
                       (Error "RabbitMQ client is not connected")]) w.

(** What [markConversationAsRead] does to one message of the
    collection. *)
Definition read_all (f u : ObjectId) (now : Time) (m : Message) : Message :=
  if ChatService.unread_from_filter f u m then set_read now m else m.

(** ** The three updates, field by field *)

(** What no update of the service writes. *)
Definition same_message (m m' : Message) : Prop :=
  _id m' = _id m ∧ from m' = from m ∧ to m' = to m ∧ content m' = content m
  ∧ messageType m' = messageType m ∧ attachmentUrl m' = attachmentUrl m
  ∧ createdAt m' = createdAt m.

(** [m'] is [m] read at [now]: read and delivered, both dated [now]. *)
Definition marked_read (now : Time) (m m' : Message) : Prop :=
  read m' = true ∧ readAt m' = Some now
  ∧ delivered m' = true ∧ deliveredAt m' = Some now
  ∧ isDeleted m' = isDeleted m ∧ deletedAt m' = deletedAt m
  ∧ same_message m m'.

(** [m'] is [m] delivered at [now]. *)
Definition marked_delivered (now : Time) (m m' : Message) : Prop :=
  delivered m' = true ∧ deliveredAt m' = Some now
  ∧ read m' = read m ∧ readAt m' = readAt m
  ∧ isDeleted m' = isDeleted m ∧ deletedAt m' = deletedAt m
  ∧ same_message m m'.

(** [m'] is [m] deleted at [now]. *)
Definition marked_deleted (now : Time) (m m' : Message) : Prop :=
  isDeleted m' = true ∧ deletedAt m' = Some now
  ∧ delivered m' = delivered m ∧ deliveredAt m' = deliveredAt m
  ∧ read m' = read m ∧ readAt m' = readAt m
  ∧ same_message m m'.

(** [m], at place [i], is the first message of [l] that [P] holds of. *)
Definition first_match (P : Message → Prop) (l : list Message) (i : nat)
    (m : Message) : Prop :=
  l !! i = Some m ∧ P m ∧ ∀ j x, l !! j = Some x → (j < i)%nat → ¬ P x.

(** [l'] is [l] with [m'] at place [i] and every other place as it was. *)
Definition replaced (i : nat) (m' : Message) (l l' : list Message) : Prop :=
  length l' = length l ∧ l' !! i = Some m' ∧ ∀ j, j ≠ i → l' !! j = l !! j.

(** Two worlds that differ in the collection of messages at most. *)
Definition same_but_messages (w w' : World) : Prop :=
  users w' = users w ∧ clock w' = clock w ∧ nextId w' = nextId w
  ∧ brokerUp w' = brokerUp w ∧ emitted w' = emitted w ∧ acked w' = acked w
  ∧ console w' = console w.

(** A line [console.log] printed. *)
Definition is_log (line : LogLine) : Prop :=
  match line with
  | LogError _ _ => False
  | _ => True
  end.

(** ** The service as a state machine *)

(** The calls that change the state of the application, and the passing of
    time between them. *)
Inductive Operation :=
  | OpSend (fromUserId : string) (dto : SendMessageDto)
  | OpMarkAsRead (messageId userId : string)
  | OpMarkConversationAsRead (userId fromUserId : string)
  | OpDelete (messageId userId : string)
  | OpMarkAsDelivered (messageId : string)
  | OpConsume (data : DeliveryEvent) (context : RmqContext)
  | OpTick (now : Time).

(** The world an operation leaves, whether it returned or threw. *)
Definition step (w : World) (op : Operation) : World :=
  match op with
  | OpSend fromUserId dto => snd (ChatService.sendMessage fromUserId dto w)
  | OpMarkAsRead messageId userId =>
      snd (ChatService.markAsRead messageId userId w)
  | OpMarkConversationAsRead userId fromUserId =>
      snd (ChatService.markConversationAsRead userId fromUserId w)
  | OpDelete messageId userId =>
      snd (ChatService.deleteMessage messageId userId w)
  | OpMarkAsDelivered messageId =>
      snd (ChatService.markAsDelivered messageId w)
  | OpConsume data context => snd (ChatMicroservice.consume data context w)
  | OpTick now => set_clock now w
  end.

Definition run (ops : list Operation) (w : World) : World := foldl step w ops.

(** The flags of a message agree with its dates, and a read message is
    delivered. *)
Definition consistent (m : Message) : Prop :=
  (delivered m = true ↔ is_Some (deliveredAt m))
  ∧ (read m = true ↔ is_Some (readAt m))
  ∧ (isDeleted m = true ↔ is_Some (deletedAt m))
  ∧ (read m = true → delivered m = true).

(** What the schema asks of a stored message. *)
Definition well_formed (m : Message) : Prop :=
  consistent m
  ∧ from m ≠ to m
  ∧ content m ≠ ""
  ∧ (js_length (content m) ≤ 5000)%nat
  ∧ messageType m ∈ ["text"; "image"; "video"; "file"].

(** Two states of one message: what never changes is the same, and no flag
    has gone back. *)
Definition later_state (a b : Message) : Prop :=
  _id a = _id b ∧ from a = from b ∧ to a = to b ∧ content a = content b
  ∧ messageType a = messageType b ∧ attachmentUrl a = attachmentUrl b
  ∧ createdAt a = createdAt b
  ∧ (delivered a = true → delivered b = true)
  ∧ (read a = true → read b = true)
  ∧ (isDeleted a = true → isDeleted b = true).

(** [m'] is [m], or [m] after one of the three updates of the service. *)
Definition touched (m m' : Message) : Prop :=
  m' = m ∨ ∃ t, m' = set_read t m ∨ m' = set_delivered t m
                ∨ m' = set_deleted t m.

(** A collection after a call: the messages there were are in their places,
    touched at most, and what has been added is well-formed. *)
Definition grows (l l' : list Message) : Prop :=
  (∀ j m, l !! j = Some m → ∃ m', l' !! j = Some m' ∧ touched m m')
  ∧ (∀ j m', l' !! j = Some m' → (length l ≤ j)%nat → well_formed m').

(** ** [ChatController]: the pagination arguments *)

Module ChatController.

(** The numbers the controller computes with: the integers a double holds
    exactly, the two infinities and [NaN].  The two zeros are one. *)
Inductive JsNumber :=
  | Num (z : Z)
  | PosInfinity
  | NegInfinity
  | NaN.

(** The Number value of an integer: the nearest double, ties to the even
    significand.  Below 2^53 every integer is a double; above, [e] is the
    weight of the last of the 53 bits of the significand [q]; what rounds
    to 2^1024 is infinite. *)
Definition to_Number (z : Z) : JsNumber :=
  let a := Z.abs z in
  if a <? 2 ^ 53 then Num z
  else
    let e := Z.log2 a - 52 in
    let q := Z.shiftr a e in
    let r := a - Z.shiftl q e in
    let half := Z.shiftl 1 (e - 1) in
    let q' := if (half <? r) || (r =? half) && Z.odd q then q + 1 else q in
    let v := Z.shiftl q' e in
    if 2 ^ 1024 <=? v then (if z <? 0 then NegInfinity else PosInfinity)
    else Num (Z.sgn z * v).

(** [Math.max(a, b)] and [Math.min(a, b)] *)
Definition Math_max (a b : JsNumber) : JsNumber :=
  match a, b with
  | NaN, _ | _, NaN => NaN
  | PosInfinity, _ | _, PosInfinity => PosInfinity
  | NegInfinity, x | x, NegInfinity => x
  | Num x, Num y => Num (Z.max x y)
  end.

Definition Math_min (a b : JsNumber) : JsNumber :=
  match a, b with
  | NaN, _ | _, NaN => NaN
  | NegInfinity, _ | _, NegInfinity => NegInfinity
  | PosInfinity, x | x, PosInfinity => x
  | Num x, Num y => Num (Z.min x y)
  end.

(** The value of a character as a digit of the radix, if it is one. *)
Definition digit (radix : Z) (c : ascii) : option Z :=
  let n := Z.of_N (N_of_ascii c) in
  let v := if (48 <=? n) && (n <=? 57) then Some (n - 48)
           else if (97 <=? n) && (n <=? 122) then Some (n - 87)
           else if (65 <=? n) && (n <=? 90) then Some (n - 55)
           else None in
  match v with
  | Some d => if d <? radix then Some d else None
  | None => None
  end.

(** The value of the longest prefix of [s] made of digits of the radix,
    read after the digits that gave [acc]; [None] when there is no digit. *)
Fixpoint digits (radix : Z) (s : string) (acc : option Z) : option Z :=
  match s with
  | String c s' =>
      match digit radix c with
      | Some d => digits radix s' (Some (default 0 acc * radix + d))
      | None => acc
      end
  | EmptyString => acc
  end.

(** [parseInt(s)] with no radix given: leading white space, a sign, a
    [0x] prefix for hexadecimal, then the digits; [NaN] without a digit,
    else the Number value of the integer the digits write. *)
Definition parseInt (s : string) : JsNumber :=
  let s := ltrim s in
  let '(negative, s) :=
    match s with
    | String "-" r => (true, r)
    | String "+" r => (false, r)
    | _ => (false, s)
    end in
  let '(radix, s) :=
    match s with
    | String "0" (String "x" r) => (16, r)
    | String "0" (String "X" r) => (16, r)
    | _ => (10, s)
    end in
  match digits radix s None with
  | Some v => to_Number (if negative then - v else v)
  | None => NaN
  end.

(** A query parameter with a default: the value the client sent, as
    [String] prints it, or nothing. *)
Definition QueryValue := option string.

(** [String(limit)] for [@Query('limit') limit = 50] and [String(skip)]
    for [@Query('skip') skip = 0] *)
Definition String_limit (limit : QueryValue) : string := default "50" limit.
Definition String_skip (skip : QueryValue) : string := default "0" skip.

(** [const limitNum = Math.min(200, Math.max(1, parseInt(String(limit))))] *)
Definition limitNum (limit : QueryValue) : JsNumber :=
  Math_min (Num 200) (Math_max (Num 1) (parseInt (String_limit limit))).

(** [const skipNum = Math.max(0, parseInt(String(skip)))] *)
Definition skipNum (skip : QueryValue) : JsNumber :=
  Math_max (Num 0) (parseInt (String_skip skip)).

End ChatController.

(** * Properties *)

(** ** The monad *)

Lemma bind_Ok {A B} (m : M A) (f : A → M B) w a w' :
  m w = (Ok a, w') → (m ≫= f) w = f a w'.
Proof. intros E. unfold mbind, M_bind. by rewrite E. Qed.

Lemma bind_Throw {A B} (m : M A) (f : A → M B) w e w' :
  m w = (Throw e, w') → (m ≫= f) w = (Throw e, w').
Proof. intros E. unfold mbind, M_bind. by rewrite E. Qed.

Lemma set_messages_same w : set_messages (messages w) w = w.
Proof. by destruct w. Qed.

Lemma newObjectId_valid s w :
  ObjectId.isValid s = true → newObjectId s w = (Ok (ObjectId.lowercase s), w).
Proof. intros E. unfold newObjectId. by rewrite E. Qed.

(** Unfolds the monadic plumbing of a goal. *)
Ltac run :=
  unfold mbind, M_bind, mret, M_ret, throw, gets, modify, newDate, try_catch,
    console_log, console_error; simpl.

(** ** Ids that are no ObjectId *)

(** C10: for a [userId] that is not a valid ObjectId, [getUnreadCount]
    returns 0 and raises nothing, while [getUnreadMessages],
    [getInboxMessages] and [getConversation] (with the id in either place)
    reject it with a bad-request error; none of them changes the world. *)
Theorem getUnreadCount_invalid_id_returns_zero
    (userId other : string) (limit skip : nat) (w : World) :
  ObjectId.isValid userId = false →
  ChatService.getUnreadCount userId w = (Ok 0%nat, w)
  ∧ ChatService.getUnreadMessages userId w
    = (Throw (BadRequestException "Invalid user ID"), w)
  ∧ ChatService.getInboxMessages userId limit skip w
    = (Throw (BadRequestException "Invalid user ID"), w)
  ∧ ChatService.getConversation userId other limit skip w
    = (Throw (BadRequestException "Invalid user IDs"), w)
  ∧ ChatService.getConversation other userId limit skip w
    = (Throw (BadRequestException "Invalid user IDs"), w).
Proof.
  intros Hinv.
  unfold ChatService.getUnreadCount, ChatService.getUnreadMessages,
    ChatService.getInboxMessages, ChatService.getConversation.
  rewrite Hinv. simpl. rewrite orb_true_r. done.
Qed.

Lemma getUnreadCount_invalid_id_witness :
  ObjectId.isValid "invalid-id" = false
  ∧ ChatService.getUnreadCount "invalid-id" (Examples.world [Examples.hello] true)
    = (Ok 0%nat, Examples.world [Examples.hello] true)
  ∧ ChatService.getUnreadMessages "invalid-id" (Examples.world [Examples.hello] true)
    = (Throw (BadRequestException "Invalid user ID"),
       Examples.world [Examples.hello] true).
Proof.
  split; [reflexivity|].
  destruct (getUnreadCount_invalid_id_returns_zero "invalid-id" Examples.bob
              50 0 (Examples.world [Examples.hello] true) eq_refl)
    as (H1 & H2 & _).
  split; [exact H1 | exact H2].
Defined.

(** ** Sorted lists *)

Section Sorted.
Context {A : Type} (R : relation A).

Lemma StronglySorted_sublist (l k : list A) :
  l `sublist_of` k → StronglySorted R k → StronglySorted R l.
Proof.
  induction 1 as [|x l k Hs IH|x l k Hs IH]; intros Hk.
  - constructor.
  - apply StronglySorted_inv in Hk as [Hk Hx].
    constructor; [by apply IH|].
    eapply Forall_forall. intros y Hy.
    eapply Forall_forall in Hx; [done|].
    by eapply elem_of_sublist.
  - apply StronglySorted_inv in Hk as [Hk _]. by apply IH.
Qed.

Lemma StronglySorted_reverse (l : list A) :
  StronglySorted R l → StronglySorted (flip R) (reverse l).
Proof.
  induction 1 as [|x l Hl IH Hx]; [constructor|].
  rewrite reverse_cons. apply StronglySorted_app. split; [|split].
  - intros y z Hy Hz. apply list_elem_of_singleton in Hz as ->.
    rewrite elem_of_reverse in Hy. unfold flip.
    rewrite Forall_forall in Hx. by apply Hx.
  - done.
  - repeat constructor.
Qed.

(** The head of a sorted list stands before all its elements. *)
Lemma StronglySorted_head (x : A) (l : list A) y :
  Reflexive R → StronglySorted R (x :: l) → y ∈ x :: l → R x y.
Proof.
  intros Hrefl Hs Hy. apply StronglySorted_inv in Hs as [_ Hx].
  apply elem_of_cons in Hy as [->|Hy]; [done|].
  rewrite Forall_forall in Hx. by apply Hx.
Qed.

End Sorted.

Global Instance newer_first_trans : Transitive newer_first.
Proof. unfold newer_first. intros x y z ??. lia. Qed.

Global Instance newer_first_total : Total newer_first.
Proof. unfold newer_first. intros x y. lia. Qed.

Global Instance newer_first_refl : Reflexive newer_first.
Proof. unfold newer_first. intros x. lia. Qed.

Lemma sorted_newer_first (l : list Message) :
  StronglySorted newer_first (merge_sort newer_first l).
Proof. apply (StronglySorted_merge_sort _). Qed.

(** ** Conversations *)

Lemma conversation_filter_between a b m :
  ChatService.conversation_filter a b m = true ↔ Spec.between a b m.
Proof.
  unfold ChatService.conversation_filter, Spec.between.
  rewrite andb_true_iff, orb_true_iff, !andb_true_iff, !bool_decide_eq_true.
  done.
Qed.

Lemma conversation_filter_sym a b m :
  ChatService.conversation_filter a b m = ChatService.conversation_filter b a m.
Proof.
  unfold ChatService.conversation_filter. f_equal. apply orb_comm.
Qed.

(** What [getConversation] returns for two ObjectIds: the cursor of its
    query, populated and reversed. *)
Lemma getConversation_valid userId1 userId2 limit skip w :
  ObjectId.isValid userId1 = true → ObjectId.isValid userId2 = true →
  ChatService.getConversation userId1 userId2 limit skip w =
  (Ok (reverse
         (populate_paths (users w) [path_from; path_to] ∘ unpopulated
            <$> Model.cursor
                  (Model.populate path_to
                    (Model.populate path_from
                      (Model.skip skip
                        (Model.limit limit
                          (Model.sort_createdAt_desc
                            (Model.find
                               (ChatService.conversation_filter
                                  (ObjectId.lowercase userId1)
                                  (ObjectId.lowercase userId2))))))))
                  (messages w))), w).
Proof.
  intros H1 H2. unfold ChatService.getConversation, newObjectId.
  rewrite H1, H2. reflexivity.
Qed.

(** C9: [getConversation] is symmetric in its two user arguments: in every
    world, with every [limit] and [skip], both calls give the same result
    (the same ordered list, or the same error) and leave the same world. *)
Theorem getConversation_symmetric
    (userA userB : string) (limit skip : nat) (w : World) :
  ChatService.getConversation userA userB limit skip w
  = ChatService.getConversation userB userA limit skip w.
Proof.
  destruct (ObjectId.isValid userA) eqn:HA, (ObjectId.isValid userB) eqn:HB;
    try (unfold ChatService.getConversation; rewrite HA, HB; reflexivity).
  rewrite !getConversation_valid by done.
  unfold Model.cursor, Model.matching. simpl.
  rewrite (list_filter_iff _
    (λ m, ChatService.conversation_filter (ObjectId.lowercase userB)
            (ObjectId.lowercase userA) m = true)); [done|].
  intros m. by rewrite conversation_filter_sym.
Qed.

Lemma matching_conversation a b l :
  Model.matching (ChatService.conversation_filter a b) l
  = filter (Spec.between a b) l.
Proof.
  unfold Model.matching. apply list_filter_iff. intros m.
  apply conversation_filter_between.
Qed.

Lemma conversation_page_sorted a b limit skip l :
  StronglySorted Spec.older_first (Spec.conversation_page a b limit skip l).
Proof.
  unfold Spec.conversation_page.
  apply (StronglySorted_reverse newer_first).
  eapply StronglySorted_sublist; [apply sublist_take|].
  eapply StronglySorted_sublist; [apply sublist_drop|].
  apply sorted_newer_first.
Qed.

Lemma conversation_page_elem a b limit skip l m :
  m ∈ Spec.conversation_page a b limit skip l → m ∈ l ∧ Spec.between a b m.
Proof.
  unfold Spec.conversation_page. rewrite elem_of_reverse. intros Hm.
  pose proof (elem_of_sublist _ _ _ Hm (sublist_take _ limit)) as Hm1.
  pose proof (elem_of_sublist _ _ _ Hm1 (sublist_drop _ skip)) as Hm2.
  rewrite merge_sort_Permutation in Hm2.
  by apply list_elem_of_filter in Hm2 as [? ?].
Qed.

(** C5, as the code has it: for two valid user ids, every [limit] of at
    least 1 and every [skip], [getConversation] returns, populated, the
    non-deleted messages between exactly the two users, windowed by [limit]
    at offset [skip] on the newest-first ordering and then reversed; the
    page reads oldest first and holds at most [limit] messages. *)
Theorem getConversation_window_reversed
    (userA userB : string) (limit skip : nat) (w : World) :
  ObjectId.isValid userA = true →
  ObjectId.isValid userB = true →
  (0 < limit)%nat →
  ChatService.getConversation userA userB limit skip w
  = (Ok (populate_paths (users w) [path_from; path_to] ∘ unpopulated
           <$> Spec.conversation_page (ObjectId.lowercase userA)
                 (ObjectId.lowercase userB) limit skip (messages w)), w)
  ∧ StronglySorted Spec.older_first
      (Spec.conversation_page (ObjectId.lowercase userA)
         (ObjectId.lowercase userB) limit skip (messages w))
  ∧ (∀ m, m ∈ Spec.conversation_page (ObjectId.lowercase userA)
              (ObjectId.lowercase userB) limit skip (messages w) →
          m ∈ messages w
          ∧ Spec.between (ObjectId.lowercase userA) (ObjectId.lowercase userB) m)
  ∧ (length (Spec.conversation_page (ObjectId.lowercase userA)
               (ObjectId.lowercase userB) limit skip (messages w)) ≤ limit)%nat.
Proof.
  intros HA HB Hlimit. split; [|split; [|split]].
  - rewrite getConversation_valid by done.
    unfold Model.cursor. simpl. rewrite matching_conversation.
    destruct limit as [|n]; [lia|].
    unfold Spec.conversation_page. by rewrite fmap_reverse.
  - apply conversation_page_sorted.
  - intros m. apply conversation_page_elem.
  - unfold Spec.conversation_page. rewrite length_reverse, length_take. lia.
Qed.

Lemma getConversation_window_reversed_witness :
  ChatService.getConversation Examples.alice Examples.bob 1 0
    (Examples.world
       [Examples.hello;
        Examples.message "65a000000000000000000002" Examples.bob Examples.alice
          "hi" 2000] true)
  = (Ok (populate_paths Examples.registered [path_from; path_to] ∘ unpopulated
           <$> [Examples.message "65a000000000000000000002" Examples.bob
                  Examples.alice "hi" 2000]),
     Examples.world
       [Examples.hello;
        Examples.message "65a000000000000000000002" Examples.bob Examples.alice
          "hi" 2000] true).
Proof.
  exact (proj1 (getConversation_window_reversed Examples.alice Examples.bob 1 0
                  (Examples.world
                     [Examples.hello;
                      Examples.message "65a000000000000000000002" Examples.bob
                        Examples.alice "hi" 2000] true)
                  eq_refl eq_refl (le_n 1))).
Defined.

(** With a limit of 0 the store sets no limit: the one message of the
    conversation comes back, where a window of size 0 is empty. *)
Lemma getConversation_limit_zero_counterexample :
  fst (ChatService.getConversation Examples.alice Examples.bob 0 0
         (Examples.world [Examples.hello] true))
  = Ok [populate_paths Examples.registered [path_from; path_to]
          (unpopulated Examples.hello)]
  ∧ fst (ChatService.getConversation Examples.alice Examples.bob 0 0
           (Examples.world [Examples.hello] true))
    ≠ Ok (populate_paths Examples.registered [path_from; path_to] ∘ unpopulated
            <$> Spec.conversation_page Examples.alice Examples.bob 0 0
                  [Examples.hello]).
Proof. split; [reflexivity | discriminate]. Qed.

(** ** Sending to oneself *)

Lemma findById_exists u w :
  UsersService.findById u w
  = (Ok (if user_exists u w then users w !! ObjectId.lowercase u else None), w).
Proof.
  unfold UsersService.findById, user_exists.
  destruct (ObjectId.isValid u); simpl; [|done].
  unfold gets. by destruct (users w !! ObjectId.lowercase u).
Qed.

(** C7, as the code has it: [sendMessage(u, {to: u, ...})] always fails and
    persists nothing, whatever the content, the queue and the message store
    are: with the self-send bad-request error "Cannot send message to
    yourself" when [u] is the id of an existing user, and with the not-found
    error "Sender not found" when it is not, the existence checks coming
    first. *)
Theorem sendMessage_to_self_fails
    (u content_ : string) (messageType_ attachmentUrl_ : option string)
    (w : World) :
  ChatService.sendMessage u
    {| dto_to := u; dto_content := content_; dto_messageType := messageType_;
       dto_attachmentUrl := attachmentUrl_ |} w
  = (Throw (if user_exists u w
            then BadRequestException "Cannot send message to yourself"
            else NotFoundException "Sender not found"), w).
Proof.
  unfold ChatService.sendMessage. simpl.
  rewrite (bind_Ok _ _ _ _ _ (findById_exists u w)).
  destruct (user_exists u w) eqn:E.
  - assert (Hs : is_Some (users w !! ObjectId.lowercase u)).
    { unfold user_exists in E. apply andb_true_iff in E as [_ E'].
      by apply bool_decide_eq_true in E'. }
    rewrite (bool_decide_eq_true_2 _ Hs). simpl.
    rewrite (bind_Ok _ _ _ _ _ (findById_exists u w)), E.
    rewrite (bool_decide_eq_true_2 _ Hs). simpl.
    by rewrite bool_decide_eq_true_2.
  - reflexivity.
Qed.

(** For a user id that no user has, the error is the not-found error of the
    sender check, not the self-send validation error. *)
Lemma sendMessage_to_self_unknown_user_counterexample :
  ChatService.sendMessage Examples.carol
    {| dto_to := Examples.carol; dto_content := "hi"; dto_messageType := None;
       dto_attachmentUrl := None |} (Examples.world [] true)
  = (Throw (NotFoundException "Sender not found"), Examples.world [] true)
  ∧ NotFoundException "Sender not found"
    ≠ BadRequestException "Cannot send message to yourself".
Proof. split; [reflexivity | discriminate]. Qed.

(** ** Sending when the broker is down *)

(** A [save] that succeeds appends the saved document to the collection and
    prints the post-save line; it leaves the delivery, read and deletion
    state of the document as constructed. *)
Lemma save_Ok m w saved w' :
  Model.save m w = (Ok saved, w') →
  w' = set_console
         (console w ++ [Log ("📨 Message saved: " +:+ _id saved +:+ " from "
                             +:+ from saved +:+ " to " +:+ to saved)])
         (set_messages (messages w ++ [saved]) w)
  ∧ delivered saved = delivered m
  ∧ read saved = read m
  ∧ isDeleted saved = isDeleted m.
Proof.
  unfold Model.save, Model.validate, Model.pre_save, Model.post_save.
  run. intros H.
  repeat (case_match; simplify_eq/=); done.
Qed.

Lemma emit_broker_down pattern payload w :
  brokerUp w = false →
  emit pattern payload w = (Throw (Error "RabbitMQ client is not connected"), w).
Proof. intros H. unfold emit. by rewrite H. Qed.

(** C1: for an existing sender and an existing, different receiver, when
    the store write of [sendMessage] (the construction and the [save] of the
    message) succeeds and the queue publish raises, [sendMessage] returns
    the saved message, populated, and raises nothing: the publish error is
    caught and printed with [console.error], nothing reaches the queue, and
    the saved message stays in the collection as it was saved, in its
    initial state. *)
Theorem sendMessage_survives_publish_failure
    (fromUserId : string) (dto : SendMessageDto) (w w1 : World)
    (saved : Message) :
  user_exists fromUserId w = true →
  user_exists (dto_to dto) w = true →
  fromUserId ≠ dto_to dto →
  (message ← Model.create (ObjectId.lowercase fromUserId)
               (ObjectId.lowercase (dto_to dto)) (trim (dto_content dto))
               (ChatService.or_else (dto_messageType dto) "text")
               (ChatService.or_null (dto_attachmentUrl dto)) false false;
   Model.save message) w = (Ok saved, w1) →
  brokerUp w = false →
  ∃ w',
    ChatService.sendMessage fromUserId dto w
    = (Ok (populate_paths (users w) [path_from; path_to] (unpopulated saved)),
       w')
    ∧ messages w' = (messages w ++ [saved])%list
    ∧ emitted w' = emitted w
    ∧ last (console w')
      = Some (LogError "Failed to publish message to RabbitMQ:"
                (Error "RabbitMQ client is not connected"))
    ∧ delivered saved = false ∧ read saved = false ∧ isDeleted saved = false.
Proof.
  intros Hfrom Hto Hne Hsave Hdown.
  assert (Hsf : is_Some (users w !! ObjectId.lowercase fromUserId)).
  { apply andb_true_iff in Hfrom as [_ E]. by apply bool_decide_eq_true in E. }
  assert (Hst : is_Some (users w !! ObjectId.lowercase (dto_to dto))).
  { apply andb_true_iff in Hto as [_ E]. by apply bool_decide_eq_true in E. }
  assert (Hvf : ObjectId.isValid fromUserId = true).
  { by apply andb_true_iff in Hfrom as [? _]. }
  assert (Hvt : ObjectId.isValid (dto_to dto) = true).
  { by apply andb_true_iff in Hto as [? _]. }
  unfold mbind, M_bind in Hsave. simpl in Hsave.
  apply save_Ok in Hsave as Hw1. destruct Hw1 as (Hw1 & Hd & Hr & Hdel).
  simpl in Hd, Hr, Hdel.
  eexists. split; [|split; [|split; [|split; [|done]]]].
  - unfold ChatService.sendMessage.
    rewrite (bind_Ok _ _ _ _ _ (findById_exists fromUserId w)), Hfrom.
    rewrite (bool_decide_eq_true_2 _ Hsf). simpl.
    rewrite (bind_Ok _ _ _ _ _ (findById_exists (dto_to dto) w)), Hto.
    rewrite (bool_decide_eq_true_2 _ Hst). simpl.
    rewrite (bool_decide_eq_false_2 _ Hne).
    rewrite (bind_Ok _ _ _ _ _ (newObjectId_valid _ w Hvf)).
    rewrite (bind_Ok _ _ _ _ _ (newObjectId_valid _ w Hvt)).
    unfold mbind at 1, M_bind at 1. simpl.
    unfold mbind at 1, M_bind at 1. rewrite Hsave.
    unfold mbind at 1, M_bind at 1, try_catch, ChatService.publishMessageToQueue.
    assert (Hdown1 : brokerUp w1 = false) by by rewrite Hw1.
    rewrite (bind_Throw _ _ _ _ _ (emit_broker_down _ _ w1 Hdown1)).
    unfold console_error, modify, Model.populate_doc, gets. simpl.
    assert (users w1 = users w) as -> by by rewrite Hw1.
    reflexivity.
  - by rewrite Hw1.
  - by rewrite Hw1.
  - simpl. apply last_snoc.
Qed.

Lemma sendMessage_survives_publish_failure_witness :
  ∃ w',
    ChatService.sendMessage Examples.alice Examples.greeting
      (Examples.world [] false)
    = (Ok (populate_paths Examples.registered [path_from; path_to]
             (unpopulated Examples.greeting_saved)), w')
    ∧ messages w' = [Examples.greeting_saved]
    ∧ emitted w' = []
    ∧ last (console w')
      = Some (LogError "Failed to publish message to RabbitMQ:"
                (Error "RabbitMQ client is not connected"))
    ∧ delivered Examples.greeting_saved = false
    ∧ read Examples.greeting_saved = false
    ∧ isDeleted Examples.greeting_saved = false.
Proof.
  apply (sendMessage_survives_publish_failure Examples.alice Examples.greeting
           (Examples.world [] false)
           (snd (Model.save
                   (set_createdAt 0 (set_content "hello"
                      (Examples.message "000000000000000000000007"
                         Examples.alice Examples.bob "" 0)))
                   (set_nextId 8 (Examples.world [] false))))
           Examples.greeting_saved).
  - reflexivity.
  - reflexivity.
  - discriminate.
  - reflexivity.
  - reflexivity.
Defined.

(** ** The three updates *)

Lemma set_read_marked now m : marked_read now m (set_read now m).
Proof. by repeat split. Qed.

Lemma set_delivered_marked now m : marked_delivered now m (set_delivered now m).
Proof. by repeat split. Qed.

Lemma set_deleted_marked now m : marked_deleted now m (set_deleted now m).
Proof. by repeat split. Qed.

Lemma replaced_insert (l : list Message) i m m' :
  l !! i = Some m → replaced i m' l (<[i := m']> l).
Proof.
  intros Hi. split; [apply length_insert|]. split.
  - apply list_lookup_insert_eq. by eapply lookup_lt_Some.
  - intros j Hj. by apply list_lookup_insert_ne.
Qed.

Lemma list_find_first_match (f : Message → bool) (l : list Message) i m :
  list_find (λ m, f m = true) l = Some (i, m) →
  first_match (λ m, f m = true) l i m.
Proof. intros H. by apply list_find_Some in H. Qed.

Lemma first_match_iff (P Q : Message → Prop) (l : list Message) i m :
  (∀ x, P x ↔ Q x) → first_match P l i m → first_match Q l i m.
Proof.
  intros HPQ (Hi & Hp & Hbefore). split; [done|]. split; [by apply HPQ|].
  intros j x Hj Hlt Hq. apply (Hbefore j x Hj Hlt). by apply HPQ.
Qed.

(** ** Marking a message as read *)

Lemma read_filter_true id u m :
  ChatService.read_filter id u m = true
  ↔ _id m = id ∧ to m = u ∧ isDeleted m = false.
Proof.
  unfold ChatService.read_filter.
  rewrite !andb_true_iff, !bool_decide_eq_true. tauto.
Qed.

Lemma read_filter_set_read id u now m :
  ChatService.read_filter id u (set_read now m)
  = ChatService.read_filter id u m.
Proof. reflexivity. Qed.

(** The call on two ObjectIds, when the filter finds a document. *)
Lemma markAsRead_found messageId userId w i m :
  ObjectId.isValid messageId = true →
  ObjectId.isValid userId = true →
  list_find (λ m, ChatService.read_filter (ObjectId.lowercase messageId)
                    (ObjectId.lowercase userId) m = true) (messages w)
  = Some (i, m) →
  ChatService.markAsRead messageId userId w
  = (Ok (populate_paths (users w) [path_from] (unpopulated (set_read (clock w) m))),
     set_messages (<[i := set_read (clock w) m]> (messages w)) w).
Proof.
  intros Hm Hu Hfind. unfold ChatService.markAsRead.
  rewrite Hm, Hu. simpl.
  rewrite (bind_Ok _ _ _ _ _ (newObjectId_valid _ w Hm)).
  rewrite (bind_Ok _ _ _ _ _ (newObjectId_valid _ w Hu)).
  unfold mbind, M_bind, newDate, gets, Model.findOneAndUpdate_new,
    Model.update_one.
  rewrite Hfind. reflexivity.
Qed.

(** The call on two ObjectIds, when the filter finds none. *)
Lemma markAsRead_not_found messageId userId w :
  ObjectId.isValid messageId = true →
  ObjectId.isValid userId = true →
  list_find (λ m, ChatService.read_filter (ObjectId.lowercase messageId)
                    (ObjectId.lowercase userId) m = true) (messages w)
  = None →
  ChatService.markAsRead messageId userId w
  = (Throw (NotFoundException "Message not found or unauthorized"), w).
Proof.
  intros Hm Hu Hfind. unfold ChatService.markAsRead.
  rewrite Hm, Hu. simpl.
  rewrite (bind_Ok _ _ _ _ _ (newObjectId_valid _ w Hm)).
  rewrite (bind_Ok _ _ _ _ _ (newObjectId_valid _ w Hu)).
  unfold mbind, M_bind, newDate, gets, Model.findOneAndUpdate_new,
    Model.update_one.
  rewrite Hfind. simpl. by rewrite set_messages_same.
Qed.

(** C3, as the code has it: for a [messageId] and a [readerId] that are
    valid ObjectIds, [markAsRead] is one conditional update scoped to
    [{_id, to = readerId, isDeleted = false}]: the first document in the
    scope, and no other, gets [read = true], [readAt = now],
    [delivered = true], [deliveredAt = now], its other fields being kept,
    and nothing else of the world changes; when no document is in the
    scope, because no message has that id, or the reader is not its
    recipient, or it is deleted, the call fails with the one not-found
    error and changes nothing.  For an id that is no ObjectId the call
    fails before the update, with a bad-request error, and changes nothing
    either. *)
Theorem markAsRead_conditional_update
    (messageId readerId : string) (w : World) :
  (ObjectId.isValid messageId = true →
   ObjectId.isValid readerId = true →
   (∀ m, m ∈ messages w →
         _id m ≠ ObjectId.lowercase messageId
         ∨ to m ≠ ObjectId.lowercase readerId
         ∨ isDeleted m = true) →
   ChatService.markAsRead messageId readerId w
   = (Throw (NotFoundException "Message not found or unauthorized"), w))
  ∧ (ObjectId.isValid messageId = true →
     ObjectId.isValid readerId = true →
     (∃ m, m ∈ messages w
           ∧ _id m = ObjectId.lowercase messageId
           ∧ to m = ObjectId.lowercase readerId
           ∧ isDeleted m = false) →
     ∃ i m d w',
       first_match (λ m, _id m = ObjectId.lowercase messageId
                         ∧ to m = ObjectId.lowercase readerId
                         ∧ isDeleted m = false) (messages w) i m
       ∧ ChatService.markAsRead messageId readerId w = (Ok d, w')
       ∧ read (doc d) = true ∧ readAt (doc d) = Some (clock w)
       ∧ delivered (doc d) = true ∧ deliveredAt (doc d) = Some (clock w)
       ∧ isDeleted (doc d) = false ∧ deletedAt (doc d) = deletedAt m
       ∧ same_message m (doc d)
       ∧ replaced i (doc d) (messages w) (messages w')
       ∧ same_but_messages w w'
       ∧ d = populate_paths (users w) [path_from]
               (unpopulated (set_read (clock w) m))
       ∧ w' = set_messages (<[i := set_read (clock w) m]> (messages w)) w)
  ∧ (ObjectId.isValid messageId = false ∨ ObjectId.isValid readerId = false →
     ChatService.markAsRead messageId readerId w
     = (Throw (BadRequestException "Invalid IDs"), w)).
Proof.
  split; [|split].
  - intros Hm Hu Hnone. apply markAsRead_not_found; [done..|].
    apply list_find_None, Forall_forall. intros m Hin.
    rewrite read_filter_true. intros (? & ? & ?).
    destruct (Hnone m Hin) as [?|[?|?]]; congruence.
  - intros Hm Hu (m0 & Hin & Hid & Hto & Hdel).
    destruct (list_find_elem_of
                (λ m, ChatService.read_filter (ObjectId.lowercase messageId)
                        (ObjectId.lowercase readerId) m = true)
                (messages w) m0 Hin) as [[i m] Hfind].
    { by apply read_filter_true. }
    eexists i, m, _, _.
    pose proof (list_find_first_match _ _ _ _ Hfind) as Hfirst.
    apply (first_match_iff _ _ _ _ _ (read_filter_true _ _)) in Hfirst.
    pose proof Hfirst as (Hi & (_ & _ & Hlive) & _).
    split; [exact Hfirst|].
    split; [by apply markAsRead_found|]. simpl.
    split_and!; try done.
    by apply replaced_insert with m.
  - intros Hinv. unfold ChatService.markAsRead.
    destruct Hinv as [-> | ->]; simpl; [done|].
    by rewrite orb_true_r.
Qed.

Lemma markAsRead_conditional_update_witness :
  ChatService.markAsRead "65a000000000000000000001" Examples.carol
    (Examples.world [Examples.hello] true)
  = (Throw (NotFoundException "Message not found or unauthorized"),
     Examples.world [Examples.hello] true)
  ∧ (∃ d w',
       ChatService.markAsRead "65a000000000000000000001" Examples.bob
         (Examples.world [Examples.hello] true) = (Ok d, w')
       ∧ read (doc d) = true ∧ readAt (doc d) = Some 5000
       ∧ delivered (doc d) = true ∧ deliveredAt (doc d) = Some 5000
       ∧ content (doc d) = "hello"
       ∧ messages w' !! 0%nat = Some (doc d)
       ∧ length (messages w') = 1%nat)
  ∧ ChatService.markAsRead "not-an-object-id" Examples.bob
      (Examples.world [Examples.hello] true)
    = (Throw (BadRequestException "Invalid IDs"),
       Examples.world [Examples.hello] true).
Proof.
  split; [|split].
  - apply (proj1 (markAsRead_conditional_update "65a000000000000000000001"
                    Examples.carol (Examples.world [Examples.hello] true)));
      [reflexivity | reflexivity |].
    intros m Hin. apply list_elem_of_singleton in Hin as ->.
    right; left. discriminate.
  - destruct (proj1 (proj2 (markAsRead_conditional_update
                              "65a000000000000000000001" Examples.bob
                              (Examples.world [Examples.hello] true)))
                eq_refl eq_refl)
      as (i & m & d & w' & (Hi & _ & _) & Hrun & Hr & Hrt & Hd & Hdt & _ & _
          & Hsame & (Hlen & Hat & _) & _).
    + exists Examples.hello. split; [apply list_elem_of_singleton; reflexivity|].
      repeat split.
    + exists d, w'. split; [exact Hrun|].
      destruct i as [|i]; [|destruct i; discriminate Hi].
      injection Hi as <-.
      destruct Hsame as (_ & _ & _ & Hc & _).
      repeat split; assumption.
  - apply (proj2 (proj2 (markAsRead_conditional_update "not-an-object-id"
                           Examples.bob (Examples.world [Examples.hello] true)))).
    left. reflexivity.
Defined.

(** No message has the id ["not-an-object-id"], yet the error is not the
    not-found error: the id check comes first. *)
Lemma markAsRead_invalid_id_counterexample :
  Model.matching
    (ChatService.read_filter (ObjectId.lowercase "not-an-object-id")
       (ObjectId.lowercase Examples.bob))
    (messages (Examples.world [Examples.hello] true)) = []
  ∧ ChatService.markAsRead "not-an-object-id" Examples.bob
      (Examples.world [Examples.hello] true)
    = (Throw (BadRequestException "Invalid IDs"),
       Examples.world [Examples.hello] true)
  ∧ BadRequestException "Invalid IDs"
    ≠ NotFoundException "Message not found or unauthorized".
Proof. split; [reflexivity | split; [reflexivity | discriminate]]. Qed.

(** After an update at [i] by [set_read], the filter finds the updated
    document at [i] again. *)
Lemma list_find_read_again id u now (l : list Message) i m :
  list_find (λ m, ChatService.read_filter id u m = true) l = Some (i, m) →
  list_find (λ m, ChatService.read_filter id u m = true)
    (<[i := set_read now m]> l) = Some (i, set_read now m).
Proof.
  intros Hfind. apply list_find_Some in Hfind as (Hi & Hp & Hbefore).
  apply list_find_Some. split; [|split].
  - apply list_lookup_insert_eq. by eapply lookup_lt_Some.
  - by rewrite read_filter_set_read.
  - intros j y Hj Hlt. rewrite list_lookup_insert_ne in Hj by lia.
    by eapply Hbefore.
Qed.

(** C6: [markAsRead] is idempotent.  For a message that [readerId] can
    read (it exists, [readerId] is its recipient, it is not deleted), the
    call succeeds with [read = true], and a second call right after it, at
    a later time [later], succeeds again with [read = true] on the same
    message; the second call changes nothing but the [readAt] and
    [deliveredAt] of that message, which become [later]. *)
Theorem markAsRead_idempotent
    (messageId readerId : string) (later : Time) (w : World) :
  ObjectId.isValid messageId = true →
  ObjectId.isValid readerId = true →
  (∃ m, m ∈ messages w
        ∧ _id m = ObjectId.lowercase messageId
        ∧ to m = ObjectId.lowercase readerId
        ∧ isDeleted m = false) →
  ∃ i m d1 w1 d2 w2,
    ChatService.markAsRead messageId readerId w = (Ok d1, w1)
    ∧ messages w !! i = Some m
    ∧ doc d1 = set_read (clock w) m
    ∧ read (doc d1) = true
    ∧ ChatService.markAsRead messageId readerId (set_clock later w1)
      = (Ok d2, w2)
    ∧ read (doc d2) = true
    ∧ doc d2 = set_read later (doc d1)
    ∧ same_but_read_times (doc d1) (doc d2)
    ∧ readAt (doc d2) = Some later ∧ deliveredAt (doc d2) = Some later
    ∧ messages w2 = <[i := doc d2]> (messages w1)
    ∧ messages w1 !! i = Some (doc d1)
    ∧ users w2 = users w1 ∧ emitted w2 = emitted w1 ∧ acked w2 = acked w1
    ∧ console w2 = console w1.
Proof.
  intros Hm Hu (m0 & Hin & Hid & Hto & Hdel).
  destruct (list_find_elem_of
              (λ m, ChatService.read_filter (ObjectId.lowercase messageId)
                      (ObjectId.lowercase readerId) m = true)
              (messages w) m0 Hin) as [[j x] Hfind].
  { by apply read_filter_true. }
  pose proof (markAsRead_found _ _ w j x Hm Hu Hfind) as H1.
  pose proof (list_find_read_again _ _ (clock w) _ _ _ Hfind) as Hfind2.
  pose proof (markAsRead_found messageId readerId
                (set_clock later
                   (set_messages (<[j := set_read (clock w) x]> (messages w)) w))
                j (set_read (clock w) x) Hm Hu Hfind2) as H2.
  apply list_find_Some in Hfind as (Hj & _ & _).
  eexists j, x, _, _, _, _.
  split; [exact H1|]. split; [exact Hj|]. split; [reflexivity|].
  split; [reflexivity|]. split; [exact H2|].
  simpl. split_and!; try reflexivity.
  - by repeat split.
  - apply list_lookup_insert_eq. by eapply lookup_lt_Some.
Qed.

Lemma markAsRead_idempotent_witness :
  ∃ d1 w1 d2 w2,
    ChatService.markAsRead "65a000000000000000000001" Examples.bob
      (Examples.world [Examples.hello] true) = (Ok d1, w1)
    ∧ read (doc d1) = true
    ∧ ChatService.markAsRead "65a000000000000000000001" Examples.bob
        (set_clock 6000 w1) = (Ok d2, w2)
    ∧ read (doc d2) = true
    ∧ readAt (doc d2) = Some 6000.
Proof.
  destruct (markAsRead_idempotent "65a000000000000000000001" Examples.bob 6000
              (Examples.world [Examples.hello] true) eq_refl eq_refl)
    as (i & m & d1 & w1 & d2 & w2 & H1 & _ & _ & Hr1 & H2 & Hr2 & _ & _ & Ht & _).
  - exists Examples.hello. split; [apply list_elem_of_singleton; reflexivity|].
    repeat split.
  - exists d1, w1, d2, w2. repeat split; assumption.
Defined.

(** ** Soft-deleted messages *)

(** [markAsRead] leaves every deleted message as it is: its filter asks for
    [isDeleted = false]. *)
Lemma markAsRead_keeps_deleted messageId userId w j m :
  messages w !! j = Some m → isDeleted m = true →
  messages (snd (ChatService.markAsRead messageId userId w)) !! j = Some m.
Proof.
  intros Hj Hdel.
  destruct (ObjectId.isValid messageId) eqn:Hm;
    [destruct (ObjectId.isValid userId) eqn:Hu|].
  - destruct (list_find
                (λ m, ChatService.read_filter (ObjectId.lowercase messageId)
                        (ObjectId.lowercase userId) m = true) (messages w))
      as [[i x]|] eqn:Hfind.
    + rewrite (markAsRead_found _ _ _ _ _ Hm Hu Hfind). simpl.
      apply list_find_Some in Hfind as (Hi & Hp & _).
      apply read_filter_true in Hp as (_ & _ & Hx).
      rewrite list_lookup_insert_ne; [done|]. intros ->. congruence.
    + by rewrite (markAsRead_not_found _ _ _ Hm Hu Hfind).
  - unfold ChatService.markAsRead. rewrite Hm, Hu. done.
  - unfold ChatService.markAsRead. rewrite Hm. done.
Qed.

(** So does [markConversationAsRead]. *)
Lemma markConversationAsRead_keeps_deleted userId fromUserId w j m :
  messages w !! j = Some m → isDeleted m = true →
  messages (snd (ChatService.markConversationAsRead userId fromUserId w)) !! j
  = Some m.
Proof.
  intros Hj Hdel. unfold ChatService.markConversationAsRead.
  destruct (ObjectId.isValid userId) eqn:Hu;
    [destruct (ObjectId.isValid fromUserId) eqn:Hf|]; simpl; try done.
  rewrite (bind_Ok _ _ _ _ _ (newObjectId_valid _ w Hf)).
  rewrite (bind_Ok _ _ _ _ _ (newObjectId_valid _ w Hu)).
  unfold mbind, M_bind, newDate, gets, Model.updateMany. simpl.
  rewrite list_lookup_fmap, Hj. simpl.
  unfold ChatService.unread_from_filter. rewrite Hdel.
  by rewrite andb_false_r.
Qed.

(** C2 fails on the code: [markAsDelivered] and [deleteMessage], unlike
    [markAsRead] and [markConversationAsRead], do not ask for
    [isDeleted = false].  On the deleted, undelivered message [gone],
    [markAsDelivered] sets [delivered] and [deliveredAt], and a second
    [deleteMessage] moves [deletedAt] from 2000 to the time of the call. *)
Theorem deleted_message_is_still_updated :
  isDeleted Examples.gone = true
  ∧ delivered Examples.gone = false
  ∧ deletedAt Examples.gone = Some 2000
  ∧ messages (snd (ChatService.markAsDelivered "65a000000000000000000001"
                     (Examples.world [Examples.gone] true)))
    = [set_delivered 5000 Examples.gone]
  ∧ delivered (set_delivered 5000 Examples.gone) = true
  ∧ ChatService.deleteMessage "65a000000000000000000001" Examples.alice
      (Examples.world [Examples.gone] true)
    = (Ok tt, Examples.world [set_deleted 5000 Examples.gone] true)
  ∧ deletedAt (set_deleted 5000 Examples.gone) = Some 5000.
Proof. repeat split. Qed.

Lemma appends_same {A} (c : M A) :
  (∀ w, messages (snd (c w)) = messages w) → appends c.
Proof. intros H w. exists []. by rewrite app_nil_r. Qed.

Lemma appends_bind {A B} (m : M A) (f : A → M B) :
  appends m → (∀ a, appends (f a)) → appends (m ≫= f).
Proof.
  intros Hm Hf w. unfold mbind, M_bind.
  destruct (Hm w) as [k Hk]. destruct (m w) as [[a|e] w1]; simpl in *.
  - destruct (Hf a w1) as [k' Hk']. exists (k ++ k')%list.
    by rewrite Hk', Hk, app_assoc.
  - by exists k.
Qed.

Lemma appends_try_catch {A} (body : M A) (handler : Exn → M A) :
  appends body → (∀ e, appends (handler e)) → appends (try_catch body handler).
Proof.
  intros Hb Hh w. unfold try_catch.
  destruct (Hb w) as [k Hk]. destruct (body w) as [[a|e] w1]; simpl in *.
  - by exists k.
  - destruct (Hh e w1) as [k' Hk']. exists (k ++ k')%list.
    by rewrite Hk', Hk, app_assoc.
Qed.

Lemma appends_throw {A} e : appends (throw (A:=A) e).
Proof. by apply appends_same. Qed.

Lemma appends_console_log text : appends (console_log text).
Proof. by apply appends_same. Qed.

Lemma appends_findById id : appends (UsersService.findById id).
Proof.
  apply appends_same. intros w. unfold UsersService.findById.
  by destruct (ObjectId.isValid id).
Qed.

Lemma appends_newObjectId s : appends (newObjectId s).
Proof.
  apply appends_same. intros w. unfold newObjectId.
  by destruct (ObjectId.isValid s).
Qed.

Lemma appends_save m : appends (Model.save m).
Proof.
  unfold Model.save.
  apply appends_bind.
  { apply appends_same. intros w. unfold Model.validate. by repeat case_match. }
  intros _. apply appends_bind.
  { apply appends_same. intros w. unfold Model.pre_save. by repeat case_match. }
  intros m'. apply appends_bind; [by apply appends_same|].
  intros now. apply appends_bind; [intros w; by eexists [_]|].
  intros _. apply appends_bind; [apply appends_console_log|].
  intros _. by apply appends_same.
Qed.

(** [sendMessage] only ever appends to the collection. *)
Lemma sendMessage_appends fromUserId dto : 
  appends (ChatService.sendMessage fromUserId dto).
Proof.
  unfold ChatService.sendMessage.
  apply appends_bind; [apply appends_findById|]. intros sender.
  case_match; [apply appends_throw|].
  apply appends_bind; [apply appends_findById|]. intros receiver.
  case_match; [apply appends_throw|].
  case_match; [apply appends_throw|].
  apply appends_bind; [apply appends_newObjectId|]. intros fromId.
  apply appends_bind; [apply appends_newObjectId|]. intros toId.
  apply appends_bind; [by apply appends_same|]. intros message.
  apply appends_bind; [apply appends_save|]. intros savedMessage.
  apply appends_bind; [|intros; by apply appends_same].
  apply appends_try_catch.
  - apply appends_bind; [|intros; apply appends_console_log].
    apply appends_same. intros w. unfold ChatService.publishMessageToQueue, emit.
    by destruct (brokerUp w).
  - intros e. by apply appends_same.
Qed.

(** So [sendMessage] leaves every message there is, deleted or not, as it
    is. *)
Lemma sendMessage_keeps_messages fromUserId dto w j m :
  messages w !! j = Some m →
  messages (snd (ChatService.sendMessage fromUserId dto w)) !! j = Some m.
Proof.
  intros Hj. destruct (sendMessage_appends fromUserId dto w) as [k ->].
  by apply lookup_app_l_Some.
Qed.

(** ** The delivery consumer *)

(** The lines [console.log] has added to a console. *)
Lemma logged_refl (c : list LogLine) :
  ∃ lines, c = (c ++ lines)%list ∧ Forall is_log lines.
Proof. exists []. by rewrite app_nil_r. Qed.

Lemma logged_snoc (c l : list LogLine) x :
  is_log x →
  (∃ lines, l = (c ++ lines)%list ∧ Forall is_log lines) →
  ∃ lines, (l ++ [x])%list = (c ++ lines)%list ∧ Forall is_log lines.
Proof.
  intros Hx (lines & -> & Hl). exists (lines ++ [x])%list.
  split; [by rewrite app_assoc|]. apply Forall_app. by split; [|constructor].
Qed.

Lemma logged_last (c l : list LogLine) x :
  (∃ lines, l = (c ++ lines)%list ∧ Forall is_log lines) →
  ∃ lines, (l ++ [x])%list = (c ++ lines ++ [x])%list ∧ Forall is_log lines.
Proof. intros (lines & -> & Hl). exists lines. by rewrite app_assoc. Qed.

(** C8: whatever the injected [markAsDelivered] does to the stores and
    whether it returns or raises, as long as it leaves the channel and the
    broker alone, the handler of a ['message.sent'] event returns normally
    and acknowledges the event exactly once; nothing is published again (no
    retry, no dead letter).  It calls [markAsDelivered] 500 ms after the
    event came in, in a world [w0] with the collections as they were.  When
    that call raises [e], the exception is caught and the console ends with
    the [console.error] line of [e]; when it returns and the payload has no
    content, the push step raises a [TypeError], which is caught and
    printed the same way after the lines of the steps that ran; when no
    step raises, only [console.log] lines are printed, the completion line
    last.  In all three cases the collection is the one [markAsDelivered]
    left. *)
Theorem handleMessageSent_acks_exactly_once
    (markAsDelivered : string → M unit) (data : DeliveryEvent)
    (context : RmqContext) (w : World) :
  (∀ id w0, acked (snd (markAsDelivered id w0)) = acked w0
            ∧ emitted (snd (markAsDelivered id w0)) = emitted w0) →
  ∃ w0 w',
    ChatMicroservice.handleMessageSent markAsDelivered data context w
    = (Ok tt, w')
    ∧ acked w' = (acked w ++ [deliveryTag context])%list
    ∧ emitted w' = emitted w
    ∧ messages w0 = messages w ∧ users w0 = users w
    ∧ clock w0 = clock w + 500
    ∧ messages w' = messages (snd (markAsDelivered (ev_messageId data) w0))
    ∧ match markAsDelivered (ev_messageId data) w0 with
      | (Throw e, w1) =>
          console w'
          = (console w1 ++ [LogError "Error processing messages:" e])%list
      | (Ok _, w1) =>
          ∃ lines,
            console w'
            = (console w1 ++ lines
               ++ [match ev_content data with
                   | Some _ =>
                       Log ("Message processing completed: "
                            +:+ ev_messageId data)
                   | None =>
                       LogError "Error processing messages:"
                         (TypeError "Cannot read properties of undefined (reading 'substring')")
                   end])%list
            ∧ Forall is_log lines
      end.
Proof.
  intros Hframe.
  unfold ChatMicroservice.handleMessageSent,
    ChatMicroservice.sendPushNotification, ChatMicroservice.content_preview,
    ChatMicroservice.notifyReceiverViaWebSocker,
    ChatMicroservice.logMessageAnalytics, ChatMicroservice.simulateDelay,
    ChatMicroservice.channel_ack.
  run.
  match goal with
  | |- context [markAsDelivered ?id ?w0] =>
      exists w0;
      destruct (Hframe id w0) as [Hack Hemit];
      destruct (markAsDelivered id w0) as [[[]|e] w1] eqn:E
  end; simpl in Hack, Hemit.
  - destruct (ev_content data) as [c|]; simpl.
    + eexists. split; [reflexivity|]. simpl. rewrite Hack, Hemit.
      split_and!; try done.
      apply logged_last. repeat (apply logged_snoc; [done|]).
      apply logged_refl.
    + eexists. split; [reflexivity|]. simpl. rewrite Hack, Hemit.
      split_and!; try done.
      apply logged_last. repeat (apply logged_snoc; [done|]).
      apply logged_refl.
  - eexists. split; [reflexivity|]. simpl. rewrite Hack, Hemit.
    by split_and!.
Qed.

(** The real [markAsDelivered] touches the collection only. *)
Lemma markAsDelivered_frame id w :
  acked (snd (ChatService.markAsDelivered id w)) = acked w
  ∧ emitted (snd (ChatService.markAsDelivered id w)) = emitted w.
Proof.
  unfold ChatService.markAsDelivered, newObjectId.
  destruct (ObjectId.isValid id); simpl; [|done].
  unfold Model.findByIdAndUpdate, Model.findOneAndUpdate. run.
  by destruct (Model.update_one _ _ _).
Qed.

Lemma handleMessageSent_acks_exactly_once_witness :
  (∃ w',
     ChatMicroservice.consume Examples.hello_sent {| deliveryTag := 3 |}
       (Examples.world [Examples.hello] true) = (Ok tt, w')
     ∧ acked w' = [3%nat]
     ∧ emitted w' = [])
  ∧ (∃ w',
       ChatMicroservice.handleMessageSent Examples.unreachable_store
         Examples.hello_sent {| deliveryTag := 3 |}
         (Examples.world [Examples.hello] true) = (Ok tt, w')
       ∧ acked w' = [3%nat]
       ∧ emitted w' = []
       ∧ last (console w')
         = Some (LogError "Error processing messages:"
                   (Error "MongoNetworkError"))).
Proof.
  split.
  - destruct (handleMessageSent_acks_exactly_once ChatService.markAsDelivered
                Examples.hello_sent {| deliveryTag := 3 |}
                (Examples.world [Examples.hello] true) markAsDelivered_frame)
      as (w0 & w' & H & Hack & Hemit & _).
    exists w'. split; [exact H|]. split; [exact Hack | exact Hemit].
  - destruct (handleMessageSent_acks_exactly_once Examples.unreachable_store
                Examples.hello_sent {| deliveryTag := 3 |}
                (Examples.world [Examples.hello] true))
      as (w0 & w' & H & Hack & Hemit & _ & _ & _ & _ & Hlog).
    { intros id w1. split; reflexivity. }
    exists w'. split; [exact H|]. split; [exact Hack|]. split; [exact Hemit|].
    unfold Examples.unreachable_store, throw in Hlog.
    rewrite Hlog. apply last_snoc.
Defined.

(** When the first step raises, the exception is caught and printed, and
    the event is acknowledged all the same. *)
Lemma handleMessageSent_failing_step :
  fst (ChatMicroservice.handleMessageSent Examples.unreachable_store
         Examples.hello_sent {| deliveryTag := 3 |}
         (Examples.world [Examples.hello] true)) = Ok tt
  ∧ acked (snd (ChatMicroservice.handleMessageSent Examples.unreachable_store
                  Examples.hello_sent {| deliveryTag := 3 |}
                  (Examples.world [Examples.hello] true))) = [3%nat]
  ∧ last (console
            (snd (ChatMicroservice.handleMessageSent Examples.unreachable_store
                    Examples.hello_sent {| deliveryTag := 3 |}
                    (Examples.world [Examples.hello] true))))
    = Some (LogError "Error processing messages:" (Error "MongoNetworkError"))
  ∧ messages
      (snd (ChatMicroservice.handleMessageSent Examples.unreachable_store
              Examples.hello_sent {| deliveryTag := 3 |}
              (Examples.world [Examples.hello] true))) = [Examples.hello].
Proof. vm_compute. repeat split. Qed.

(** On the real service the pipeline runs through: the message is marked
    delivered at the time the delay ends, and the event is acknowledged. *)
Lemma consume_marks_delivered :
  fst (ChatMicroservice.consume Examples.hello_sent {| deliveryTag := 3 |}
         (Examples.world [Examples.hello] true)) = Ok tt
  ∧ acked (snd (ChatMicroservice.consume Examples.hello_sent
                  {| deliveryTag := 3 |}
                  (Examples.world [Examples.hello] true))) = [3%nat]
  ∧ messages (snd (ChatMicroservice.consume Examples.hello_sent
                     {| deliveryTag := 3 |}
                     (Examples.world [Examples.hello] true)))
    = [set_delivered 5500 Examples.hello]
  ∧ last (console
            (snd (ChatMicroservice.consume Examples.hello_sent
                    {| deliveryTag := 3 |}
                    (Examples.world [Examples.hello] true))))
    = Some (Log "Message processing completed: 65a000000000000000000001").
Proof. vm_compute. repeat split. Qed.

(** ** The chat list *)

Section Omap.
Context {A B : Type}.

Lemma omap_sublist_fmap (h : A → option B) (f : A → B) (l : list A) :
  (∀ x y, h x = Some y → y = f x) → omap h l `sublist_of` f <$> l.
Proof.
  intros Hh. induction l as [|x l IH]; simpl; [constructor|].
  destruct (h x) as [y|] eqn:E.
  - rewrite (Hh x y E). by constructor.
  - by constructor.
Qed.

Lemma StronglySorted_omap (R : relation A) (R' : relation B)
    (h : A → option B) (l : list A) :
  (∀ x y x' y', h x = Some x' → h y = Some y' → R x y → R' x' y') →
  StronglySorted R l → StronglySorted R' (omap h l).
Proof.
  intros Hh. induction 1 as [|x l Hl IH Hx]; simpl; [constructor|].
  destruct (h x) as [x'|] eqn:E; [|done].
  constructor; [done|]. apply Forall_forall. intros y' Hy'.
  apply list_elem_of_omap in Hy' as (y & Hy & Ey).
  rewrite Forall_forall in Hx. eauto.
Qed.

End Omap.

(** The sum of the [$cond] increments counts the documents that satisfy
    the condition. *)
Lemma sum_unread_inc u (l : list Message) :
  sum_list (ChatService.unread_inc u <$> l)
  = length (filter (λ m, to m = u ∧ read m = false) l).
Proof.
  induction l as [|m l IH]; [done|].
  rewrite fmap_cons, filter_cons. simpl. rewrite IH.
  unfold ChatService.unread_inc.
  destruct (decide (to m = u ∧ read m = false)) as [[Ht Hr]|Hn].
  - by rewrite !bool_decide_eq_true_2.
  - destruct (bool_decide (to m = u)) eqn:E1,
      (bool_decide (read m = false)) eqn:E2; simpl; try done.
    apply bool_decide_eq_true in E1, E2. tauto.
Qed.

Lemma involves_counterpart_between u c m :
  ChatService.involves u m = true ∧ ChatService.counterpart u m = c
  ↔ Spec.between u c m.
Proof.
  unfold ChatService.involves, ChatService.counterpart, Spec.between.
  rewrite andb_true_iff, orb_true_iff, !bool_decide_eq_true.
  destruct (bool_decide (from m = u)) eqn:E.
  - apply bool_decide_eq_true in E. split.
    + intros [[_ Hd] Hc]. split; [|done]. by left.
    + intros [[[_ Hc]|[Hc Ht]] Hd]; (split; [split; [by left|done]|]);
        congruence.
  - apply bool_decide_eq_false in E. split.
    + intros [[[Hf|Ht] Hd] Hc]; [done|]. split; [|done]. by right.
    + intros [[[Hf _]|[Hc Ht]] Hd]; [done|]. split; [|done].
      split; [by right|done].
Qed.

(** A [$group] output: its key, the first document of the key and the sum
    over the documents of the key. *)
Lemma elem_of_group key inc (l : list Message) g :
  g ∈ Aggregate.group key inc l →
  ∃ rest,
    filter (λ m, key m = Aggregate.g_id g) l = Aggregate.g_lastMessage g :: rest
    ∧ Aggregate.g_unreadCount g
      = sum_list (inc <$> Aggregate.g_lastMessage g :: rest).
Proof.
  unfold Aggregate.group. intros Hg.
  apply list_elem_of_omap in Hg as (k & _ & Hk).
  destruct (filter (λ m, key m = k) l) as [|first rest] eqn:E; [done|].
  simplify_eq/=. by exists rest.
Qed.

Lemma group_NoDup key inc (l : list Message) :
  NoDup (Aggregate.g_id <$> Aggregate.group key inc l).
Proof.
  unfold Aggregate.group. rewrite list_fmap_omap.
  eapply sublist_NoDup; [apply (NoDup_remove_dups (key <$> l))|].
  rewrite <-(list_fmap_id (remove_dups (key <$> l))) at 2.
  apply omap_sublist_fmap. intros k y Hy.
  destruct (filter (λ m, key m = k) l); by simplify_eq/=.
Qed.

Lemma unwind_lookup us (l : list Aggregate.Group) :
  Aggregate.unwind_user (Aggregate.lookup_users us l)
  = omap (λ g, (λ u, (g, u)) <$> us !! Aggregate.g_id g) l.
Proof.
  unfold Aggregate.unwind_user, Aggregate.lookup_users.
  induction l as [|g l IH]; [done|].
  rewrite fmap_cons, bind_cons, IH. simpl.
  by destruct (us !! Aggregate.g_id g).
Qed.

(** The pipeline, with [$lookup], [$unwind] and [$project] read as one
    partial map over the sorted groups. *)
Lemma chat_list_pipeline_omap u us l :
  ChatService.chat_list_pipeline u us l
  = omap (λ g, (λ usr, Aggregate.project (g, usr)) <$> us !! Aggregate.g_id g)
      (Aggregate.sort_lastMessage_desc
         (Aggregate.group (ChatService.counterpart u) (ChatService.unread_inc u)
            (Aggregate.sort_createdAt_desc
               (Aggregate.match_ (ChatService.involves u) l)))).
Proof.
  unfold ChatService.chat_list_pipeline.
  rewrite unwind_lookup, list_fmap_omap.
  apply list_omap_ext, Forall2_same_length_lookup. split; [done|].
  intros i g g' Hg Hg'. simplify_eq. by destruct (us !! Aggregate.g_id g).
Qed.

Global Instance last_newer_first_trans : Transitive Aggregate.last_newer_first.
Proof. intros x y z. unfold Aggregate.last_newer_first. apply transitivity. Qed.

Global Instance last_newer_first_total : Total Aggregate.last_newer_first.
Proof. intros x y. unfold Aggregate.last_newer_first. apply total, _. Qed.

Lemma elem_of_grouped u l m :
  m ∈ grouped u l ↔ m ∈ l ∧ ChatService.involves u m = true.
Proof.
  unfold grouped, Aggregate.sort_createdAt_desc, Aggregate.match_.
  by rewrite merge_sort_Permutation, list_elem_of_filter, (comm and).
Qed.

(** Where an entry of the chat list comes from: the group of its
    counterpart, whose user exists. *)
Lemma chat_list_entry u us l e :
  e ∈ ChatService.chat_list_pipeline u us l →
  ∃ m rest,
    filter (λ x, ChatService.counterpart u x = Aggregate.userId e) (grouped u l)
    = m :: rest
    ∧ Aggregate.lastMessage e = Spec.shown m
    ∧ Aggregate.unreadCount e
      = sum_list (ChatService.unread_inc u <$> m :: rest).
Proof.
  rewrite chat_list_pipeline_omap. intros He.
  apply list_elem_of_omap in He as (g & Hg & He).
  unfold Aggregate.sort_lastMessage_desc in Hg.
  rewrite merge_sort_Permutation in Hg.
  apply elem_of_group in Hg as (rest & Hfilter & Hcount).
  destruct (us !! Aggregate.g_id g) as [usr|]; [|done].
  simplify_eq/=. by exists (Aggregate.g_lastMessage g), rest.
Qed.

Lemma chat_list_NoDup u us l :
  NoDup (Aggregate.userId <$> ChatService.chat_list_pipeline u us l).
Proof.
  rewrite chat_list_pipeline_omap, list_fmap_omap.
  eapply sublist_NoDup; [|apply (omap_sublist_fmap _ Aggregate.g_id)].
  - unfold Aggregate.sort_lastMessage_desc.
    rewrite merge_sort_Permutation. apply group_NoDup.
  - intros g y Hy. destruct (us !! Aggregate.g_id g); by simplify_eq/=.
Qed.

Lemma chat_list_sorted u us l :
  StronglySorted Spec.recent_first (ChatService.chat_list_pipeline u us l).
Proof.
  rewrite chat_list_pipeline_omap.
  eapply (StronglySorted_omap Aggregate.last_newer_first).
  - intros g1 g2 e1 e2 H1 H2 HR.
    destruct (us !! Aggregate.g_id g1), (us !! Aggregate.g_id g2);
      by simplify_eq/=.
  - apply (StronglySorted_merge_sort _).
Qed.

(** The unread count of a group is the number of unread, non-deleted
    messages from the counterpart to the user. *)
Lemma unread_count_of_group u c (l : list Message) :
  sum_list (ChatService.unread_inc u
              <$> filter (λ x, ChatService.counterpart u x = c) (grouped u l))
  = length (filter (Spec.unread_from c u) l).
Proof.
  rewrite sum_unread_inc. unfold grouped, Aggregate.sort_createdAt_desc.
  rewrite merge_sort_Permutation. unfold Aggregate.match_.
  rewrite !list_filter_filter. f_equal. apply list_filter_iff. intros m.
  unfold Spec.unread_from. split.
  - intros (((Ht & Hr) & Hc) & Hi).
    pose proof (proj1 (involves_counterpart_between u c m) (conj Hi Hc))
      as [Hb Hd].
    destruct Hb as [[Hf Ht']|[Hf _]]; split_and!; congruence.
  - intros (Hf & Ht & Hr & Hd).
    destruct (proj2 (involves_counterpart_between u c m)) as [Hi Hc];
      [split; [by right|done]|done].
Qed.

Lemma getChatList_valid user w :
  ObjectId.isValid user = true →
  ChatService.getChatList user w
  = (Ok (ChatService.chat_list_pipeline (ObjectId.lowercase user) (users w)
           (messages w)), w).
Proof.
  intros Hv. unfold ChatService.getChatList, newObjectId. by rewrite Hv.
Qed.

(** C4: for a valid user id [user], [getChatList] returns a list with at
    most one entry per counterpart; the [lastMessage] of an entry shows a
    non-deleted message exchanged with its counterpart that no other such
    message is newer than; its [unreadCount] is the number of non-deleted,
    unread messages from the counterpart to the user; and the entries stand
    in descending order of the creation time of their last message. *)
Theorem getChatList_latest_per_counterpart (user : string) (w : World) :
  ObjectId.isValid user = true →
  ∃ l,
    ChatService.getChatList user w = (Ok l, w)
    ∧ NoDup (Aggregate.userId <$> l)
    ∧ (∀ e, e ∈ l →
         ∃ m, m ∈ messages w
              ∧ Spec.between (ObjectId.lowercase user) (Aggregate.userId e) m
              ∧ Aggregate.lastMessage e = Spec.shown m
              ∧ ∀ m', m' ∈ messages w →
                      Spec.between (ObjectId.lowercase user)
                        (Aggregate.userId e) m' →
                      createdAt m' ≤ createdAt m)
    ∧ (∀ e, e ∈ l →
         Aggregate.unreadCount e
         = length (filter (Spec.unread_from (Aggregate.userId e)
                             (ObjectId.lowercase user)) (messages w)))
    ∧ StronglySorted Spec.recent_first l.
Proof.
  intros Hv. eexists. split; [by apply getChatList_valid|].
  split; [apply chat_list_NoDup|]. split; [|split; [|apply chat_list_sorted]].
  - intros e He. apply chat_list_entry in He as (m & rest & Hf & Hlast & _).
    assert (Hm : m ∈ filter
                   (λ x, ChatService.counterpart (ObjectId.lowercase user) x
                         = Aggregate.userId e)
                   (grouped (ObjectId.lowercase user) (messages w))).
    { rewrite Hf. by left. }
    apply list_elem_of_filter in Hm as [Hc Hm].
    apply elem_of_grouped in Hm as [Hin Hi].
    exists m. split; [done|]. split.
    { apply involves_counterpart_between. by split. }
    split; [done|]. intros m' Hin' Hb'.
    apply involves_counterpart_between in Hb' as [Hi' Hc'].
    assert (Hm' : m' ∈ m :: rest).
    { rewrite <-Hf. apply list_elem_of_filter. split; [done|].
      apply elem_of_grouped. by split. }
    apply (StronglySorted_head newer_first m rest m'); [apply _| |done].
    rewrite <-Hf. eapply StronglySorted_sublist; [apply sublist_filter|].
    apply sorted_newer_first.
  - intros e He. apply chat_list_entry in He as (m & rest & Hf & _ & Hcount).
    rewrite Hcount, <-Hf. apply unread_count_of_group.
Qed.

Lemma getChatList_latest_per_counterpart_witness :
  ∃ l,
    ChatService.getChatList Examples.bob
      (Examples.world
         [Examples.hello;
          Examples.message "65a000000000000000000002" Examples.alice
            Examples.bob "again" 3000] true)
    = (Ok l,
       Examples.world
         [Examples.hello;
          Examples.message "65a000000000000000000002" Examples.alice
            Examples.bob "again" 3000] true)
    ∧ NoDup (Aggregate.userId <$> l).
Proof.
  destruct (getChatList_latest_per_counterpart Examples.bob
              (Examples.world
                 [Examples.hello;
                  Examples.message "65a000000000000000000002" Examples.alice
                    Examples.bob "again" 3000] true) eq_refl)
    as (l & H & Hnd & _).
  exists l. split; [exact H | exact Hnd].
Defined.

(** On that world the chat list of bob has the one entry of alice, with her
    latest message and both messages unread. *)
Lemma getChatList_example :
  fst (ChatService.getChatList Examples.bob
         (Examples.world
            [Examples.hello;
             Examples.message "65a000000000000000000002" Examples.alice
               Examples.bob "again" 3000] true))
  = Ok [{| Aggregate.userId := Examples.alice;
           Aggregate.c_username := "alice";
           Aggregate.c_email := "alice@example.com";
           Aggregate.lastMessage :=
             {| Aggregate.lm_content := "again";
                Aggregate.lm_createdAt := 3000;
                Aggregate.lm_read := false |};
           Aggregate.unreadCount := 2 |}].
Proof. vm_compute. reflexivity. Qed.

(** * Further properties *)

(** ** Trimming *)

Lemma chars_inj s t :
  list_ascii_of_string s = list_ascii_of_string t → s = t.
Proof.
  intros H. rewrite <-(string_of_list_ascii_of_string s),
    <-(string_of_list_ascii_of_string t). by rewrite H.
Qed.

Lemma chars_rev_app s t :
  list_ascii_of_string (String.rev_app s t)
  = (reverse (list_ascii_of_string s) ++ list_ascii_of_string t)%list.
Proof.
  revert t. induction s as [|c s IH]; intros t; simpl; [done|].
  rewrite IH, reverse_cons. simpl. by rewrite <-app_assoc.
Qed.

Lemma chars_rev s :
  list_ascii_of_string (String.rev s) = reverse (list_ascii_of_string s).
Proof. unfold String.rev. rewrite chars_rev_app. simpl. apply app_nil_r. Qed.

Lemma chars_strip w2 w3 s :
  list_ascii_of_string (strip w2 w3 s)
  = strip_list w2 w3 (list_ascii_of_string s).
Proof.
  remember (String.length s) as n eqn:Hn.
  revert s Hn. induction n as [n IH] using lt_wf_ind. intros s Hn.
  destruct s as [|a s1]; [done|]. simpl in *.
  destruct (white_space_1 a).
  { apply (IH (String.length s1)); [lia | done]. }
  destruct s1 as [|b s2]; [done|]. simpl in *.
  destruct (w2 a b).
  { apply (IH (String.length s2)); [lia | done]. }
  destruct s2 as [|c s3]; [done|]. simpl in *.
  destruct (w3 a b c); [|done].
  apply (IH (String.length s3)); [lia | done].
Qed.

Lemma chars_trim s :
  list_ascii_of_string (trim s)
  = reverse (strip_list (λ a b, white_space_2 b a)
               (λ a b c, white_space_3 c b a)
               (reverse (strip_list white_space_2 white_space_3
                           (list_ascii_of_string s)))).
Proof.
  unfold trim, ltrim_reversed, ltrim.
  by rewrite chars_rev, chars_strip, chars_rev, chars_strip.
Qed.

Lemma strip_list_split w2 w3 l :
  ∃ sp, l = (sp ++ strip_list w2 w3 l)%list
        ∧ starts_clean w2 w3 (strip_list w2 w3 l).
Proof.
  remember (length l) as n eqn:Hn.
  revert l Hn. induction n as [n IH] using lt_wf_ind. intros l Hn.
  destruct l as [|a l1]; simpl; [by exists []|].
  destruct (white_space_1 a) eqn:E1.
  { destruct (IH (length l1)) with (l := l1) as (sp & H & Hc);
      [simpl in *; lia | done |].
    exists (a :: sp). split; [simpl; by f_equal | done]. }
  destruct l1 as [|b l2]; [by exists []|].
  destruct (w2 a b) eqn:E2.
  { destruct (IH (length l2)) with (l := l2) as (sp & H & Hc);
      [simpl in *; lia | done |].
    exists (a :: b :: sp). split; [simpl; by do 2 f_equal | done]. }
  destruct l2 as [|c l3]; [by exists []|].
  destruct (w3 a b c) eqn:E3.
  { destruct (IH (length l3)) with (l := l3) as (sp & H & Hc);
      [simpl in *; lia | done |].
    exists (a :: b :: c :: sp). split; [simpl; by do 3 f_equal | done]. }
  by exists [].
Qed.

Lemma strip_list_id w2 w3 l : starts_clean w2 w3 l → strip_list w2 w3 l = l.
Proof.
  destruct l as [|a [|b [|c l]]]; simpl; try done.
  - by intros [-> _].
  - by intros (-> & -> & _).
  - by intros (-> & -> & ->).
Qed.

(** A clean list stays clean when its end is cut. *)
Lemma starts_clean_prefix w2 w3 p q :
  starts_clean w2 w3 (p ++ q) → starts_clean w2 w3 p.
Proof.
  destruct p as [|a [|b [|c p]]]; simpl; try done.
  - by intros [? _].
  - by intros (? & ? & _).
Qed.

Lemma trim_idemp s : trim (trim s) = trim s.
Proof.
  apply chars_inj. rewrite !chars_trim.
  set (L := strip_list white_space_2 white_space_3).
  set (R := strip_list (λ a b, white_space_2 b a) (λ a b c, white_space_3 c b a)).
  set (x := L (list_ascii_of_string s)).
  destruct (strip_list_split white_space_2 white_space_3
              (list_ascii_of_string s)) as (_ & _ & Hx).
  destruct (strip_list_split (λ a b, white_space_2 b a)
              (λ a b c, white_space_3 c b a) (reverse x)) as (sp & Hsp & Hy).
  fold L in Hx. fold x in Hx. fold R in Hsp, Hy.
  assert (Hclean : starts_clean white_space_2 white_space_3 (reverse (R (reverse x)))).
  { apply (starts_clean_prefix _ _ _ (reverse sp)).
    rewrite <-reverse_app, <-Hsp. by rewrite reverse_involutive. }
  unfold L at 1. rewrite (strip_list_id _ _ _ Hclean).
  rewrite reverse_involutive. unfold R at 1.
  by rewrite (strip_list_id _ _ _ Hy).
Qed.

(** White space is cut whatever its encoding takes: here U+00A0, two bytes,
    and U+3000, three. *)
Example trim_examples :
  trim "  hello " = "hello"
  ∧ trim (String "194" (String "160" "hi")) = "hi"
  ∧ trim ("hi" +:+ String "194" (String "160" EmptyString)) = "hi"
  ∧ trim (String "194" (String "160" EmptyString)) = ""
  ∧ trim " 　 " = ""
  ∧ trim "a  b" = "a  b".
Proof. repeat split. Qed.

(** The length counts code units, not bytes. *)
Example js_length_examples :
  js_length "hello" = 5%nat
  ∧ js_length "€" = 1%nat ∧ String.length "€" = 3%nat
  ∧ js_length "📨" = 2%nat
  ∧ js_length (String.concat "" (replicate 2000 "€")) = 2000%nat.
Proof. vm_compute. repeat split. Qed.

Lemma js_length_zero s : js_length s = 0%nat → s = "".
Proof.
  destruct s as [|c s]; [done|]. unfold js_length. simpl.
  repeat case_match; done.
Qed.

(** ** The outcomes of [sendMessage] *)

Arguments trim : simpl never.

Lemma content_errors_empty c :
  Model.content_errors c = ∅ ↔ c ≠ "" ∧ (js_length c ≤ 5000)%nat.
Proof.
  unfold Model.content_errors.
  destruct (bool_decide (c = "")) eqn:Hc.
  { apply bool_decide_eq_true in Hc. split; [|by intros [? _]].
    intros H. by apply map_non_empty_singleton in H. }
  apply bool_decide_eq_false in Hc.
  destruct (5000 <? js_length c)%nat eqn:Hl.
  { apply Nat.ltb_lt in Hl. split; [|intros [_ ?]; lia].
    intros H. by apply map_non_empty_singleton in H. }
  apply Nat.ltb_ge in Hl. done.
Qed.

Lemma messageType_errors_empty t :
  Model.messageType_errors t = ∅ ↔ t ∈ ["text"; "image"; "video"; "file"].
Proof.
  unfold Model.messageType_errors.
  destruct (bool_decide (t ∈ ["text"; "image"; "video"; "file"])) eqn:Ht.
  - by apply bool_decide_eq_true in Ht.
  - apply bool_decide_eq_false in Ht. split; [|done].
    intros H. by apply map_non_empty_singleton in H.
Qed.

Lemma validation_errors_empty dto :
  validation_errors dto = ∅
  ↔ trim (dto_content dto) ≠ ""
    ∧ (js_length (trim (dto_content dto)) ≤ 5000)%nat
    ∧ ChatService.or_else (dto_messageType dto) "text"
      ∈ ["text"; "image"; "video"; "file"].
Proof.
  unfold validation_errors. split.
  - intros H. pose proof (map_positive_l _ _ H) as H1.
    rewrite H1, (left_id_L ∅ (∪)) in H.
    apply content_errors_empty in H1 as [? ?].
    by apply messageType_errors_empty in H.
  - intros (Hc & Hl & Ht).
    rewrite (proj2 (content_errors_empty _) (conj Hc Hl)).
    rewrite (proj2 (messageType_errors_empty _) Ht).
    by rewrite (left_id_L ∅ (∪)).
Qed.

(** The store write of [sendMessage]: refused with the errors of the
    validators or the error of the middleware, else the new document is
    saved. *)
Lemma store_write_result fromUserId dto w :
  (message ← Model.create (ObjectId.lowercase fromUserId)
               (ObjectId.lowercase (dto_to dto)) (trim (dto_content dto))
               (ChatService.or_else (dto_messageType dto) "text")
               (ChatService.or_null (dto_attachmentUrl dto)) false false;
   Model.save message) w
  = match store_write_error fromUserId dto with
    | Some e => (Throw e, set_nextId (nextId w + 1) w)
    | None => (Ok (new_message fromUserId dto w),
               after_save (new_message fromUserId dto w) w)
    end.
Proof.
  unfold store_write_error, Model.create, Model.save, Model.validate,
    Model.pre_save, Model.post_save.
  run. rewrite !trim_idemp. fold (validation_errors dto).
  destruct (bool_decide (validation_errors dto = ∅)) eqn:He; [|done].
  apply bool_decide_eq_true, validation_errors_empty in He as (Hc & _ & _).
  simpl.
  destruct (bool_decide (ObjectId.lowercase fromUserId
                         = ObjectId.lowercase (dto_to dto))); [done|].
  simpl. rewrite (bool_decide_eq_false_2 _ Hc). simpl.
  rewrite (bool_decide_eq_false_2 _ Hc). simpl.
  destruct (js_length (trim (dto_content dto)) =? 0)%nat eqn:Hl; [|done].
  by apply Nat.eqb_eq, js_length_zero in Hl.
Qed.

(** The result of [sendMessage] in every case: the checks of the service
    in their order, then the store write, then the publish attempt, which
    cannot fail the call. *)
Lemma sendMessage_outcome fromUserId dto w :
  ChatService.sendMessage fromUserId dto w
  = if negb (user_exists fromUserId w) then
      (Throw (NotFoundException "Sender not found"), w)
    else if negb (user_exists (dto_to dto) w) then
      (Throw (NotFoundException "Receiver not found"), w)
    else if bool_decide (fromUserId = dto_to dto) then
      (Throw (BadRequestException "Cannot send message to yourself"), w)
    else
      match store_write_error fromUserId dto with
      | Some e => (Throw e, set_nextId (nextId w + 1) w)
      | None =>
          (Ok (populate_paths (users w) [path_from; path_to]
                 (unpopulated (new_message fromUserId dto w))),
           after_publish (new_message fromUserId dto w)
             (after_save (new_message fromUserId dto w) w))
      end.
Proof.
  unfold ChatService.sendMessage.
  rewrite (bind_Ok _ _ _ _ _ (findById_exists fromUserId w)).
  destruct (user_exists fromUserId w) eqn:Hfrom; simpl; [|done].
  assert (Hsf : is_Some (users w !! ObjectId.lowercase fromUserId)).
  { apply andb_true_iff in Hfrom as [_ E]. by apply bool_decide_eq_true in E. }
  assert (Hvf : ObjectId.isValid fromUserId = true).
  { by apply andb_true_iff in Hfrom as [? _]. }
  rewrite (bool_decide_eq_true_2 _ Hsf). simpl.
  rewrite (bind_Ok _ _ _ _ _ (findById_exists (dto_to dto) w)).
  destruct (user_exists (dto_to dto) w) eqn:Hto; simpl; [|done].
  assert (Hst : is_Some (users w !! ObjectId.lowercase (dto_to dto))).
  { apply andb_true_iff in Hto as [_ E]. by apply bool_decide_eq_true in E. }
  assert (Hvt : ObjectId.isValid (dto_to dto) = true).
  { by apply andb_true_iff in Hto as [? _]. }
  rewrite (bool_decide_eq_true_2 _ Hst). simpl.
  destruct (bool_decide (fromUserId = dto_to dto)); [done|].
  rewrite (bind_Ok _ _ _ _ _ (newObjectId_valid _ w Hvf)).
  rewrite (bind_Ok _ _ _ _ _ (newObjectId_valid _ w Hvt)).
  pose proof (store_write_result fromUserId dto w) as Hsw.
  unfold mbind at 1, M_bind at 1 in Hsw. simpl in Hsw.
  unfold mbind at 1, M_bind at 1. simpl.
  unfold mbind at 1, M_bind at 1. rewrite Hsw.
  destruct (store_write_error fromUserId dto) as [e|]; [done|].
  unfold ChatService.publishMessageToQueue, emit, after_publish, sent_event,
    Model.populate_doc.
  run. destruct (brokerUp w); reflexivity.
Qed.

Lemma store_write_error_None fromUserId dto :
  store_write_error fromUserId dto = None
  ↔ ObjectId.lowercase fromUserId ≠ ObjectId.lowercase (dto_to dto)
    ∧ trim (dto_content dto) ≠ ""
    ∧ (js_length (trim (dto_content dto)) ≤ 5000)%nat
    ∧ ChatService.or_else (dto_messageType dto) "text"
      ∈ ["text"; "image"; "video"; "file"].
Proof.
  rewrite <-validation_errors_empty. unfold store_write_error.
  destruct (bool_decide (validation_errors dto = ∅)) eqn:He; simpl.
  2:{ apply bool_decide_eq_false in He. split; [done|]. by intros [_ ?]. }
  apply bool_decide_eq_true in He.
  destruct (bool_decide (ObjectId.lowercase fromUserId
                         = ObjectId.lowercase (dto_to dto))) eqn:Hs.
  { apply bool_decide_eq_true in Hs. split; [done|]. by intros [? _]. }
  by apply bool_decide_eq_false in Hs.
Qed.

(** The errors of the store write are refusals. *)
Lemma store_write_error_refusal fromUserId dto e :
  store_write_error fromUserId dto = Some e → refusal e.
Proof.
  unfold store_write_error, refusal. intros H.
  repeat case_match; simplify_eq; eauto 10.
Qed.

(** X1: [sendMessage] returns a message exactly when the sender and the
    receiver are existing users with different ObjectIds, the content, once
    [trim] has cut its white space, is not empty and [maxlength] lets it
    through, that is, its [length] is at most 5000 UTF-16 code units, and
    the message type, ["text"] when none is given, is one of the four of
    the schema. *)
Theorem sendMessage_succeeds_iff
    (fromUserId : string) (dto : SendMessageDto) (w : World) :
  (∃ d w', ChatService.sendMessage fromUserId dto w = (Ok d, w'))
  ↔ user_exists fromUserId w = true
    ∧ user_exists (dto_to dto) w = true
    ∧ ObjectId.lowercase fromUserId ≠ ObjectId.lowercase (dto_to dto)
    ∧ trim (dto_content dto) ≠ ""
    ∧ (js_length (trim (dto_content dto)) ≤ 5000)%nat
    ∧ ChatService.or_else (dto_messageType dto) "text"
      ∈ ["text"; "image"; "video"; "file"].
Proof.
  rewrite sendMessage_outcome, <-store_write_error_None.
  destruct (user_exists fromUserId w); simpl.
  2:{ split; [by intros (? & ? & ?)|by intros (? & _)]. }
  destruct (user_exists (dto_to dto) w); simpl.
  2:{ split; [by intros (? & ? & ?)|by intros (_ & ? & _)]. }
  destruct (bool_decide (fromUserId = dto_to dto)) eqn:Hs.
  { apply bool_decide_eq_true in Hs. split; [by intros (? & ? & ?)|].
    intros (_ & _ & He). apply store_write_error_None in He as [Hne _].
    by rewrite Hs in Hne. }
  destruct (store_write_error fromUserId dto) as [e|].
  - split; [by intros (? & ? & ?)|by intros (_ & _ & ?)].
  - split; [done|]. intros _. by eexists _, _.
Qed.

Lemma populate_both us m uf ut :
  us !! from m = Some uf → us !! to m = Some ut →
  populate_paths us [path_from; path_to] (unpopulated m)
  = {| doc := m;
       from_ref := Populated (Some {| ref_id := from m;
                                      ref_username := username uf;
                                      ref_email := email uf |});
       to_ref := Populated (Some {| ref_id := to m;
                                    ref_username := username ut;
                                    ref_email := email ut |}) |}.
Proof.
  intros Hf Ht. unfold populate_paths, populate_path, resolve. simpl.
  by rewrite Hf, Ht.
Qed.

(** X2: when [sendMessage] goes through, it returns the new message with
    both participants populated: in place of the two ids stand the id, the
    username and the email of the sender and of the receiver.  The message
    has the trimmed content, the initial state and the time of the call as
    [createdAt]; the collection grows by exactly this message; and, the
    broker being up, exactly one ['message.sent'] event goes out, which
    repeats the id, participants, content, type and creation time of the
    message; with the broker down none goes out. *)
Theorem sendMessage_saves_and_publishes
    (fromUserId : string) (dto : SendMessageDto) (w : World) :
  user_exists fromUserId w = true →
  user_exists (dto_to dto) w = true →
  ObjectId.lowercase fromUserId ≠ ObjectId.lowercase (dto_to dto) →
  trim (dto_content dto) ≠ "" →
  (js_length (trim (dto_content dto)) ≤ 5000)%nat →
  ChatService.or_else (dto_messageType dto) "text"
    ∈ ["text"; "image"; "video"; "file"] →
  ∃ d w' sender receiver,
    ChatService.sendMessage fromUserId dto w = (Ok d, w')
    ∧ users w !! ObjectId.lowercase fromUserId = Some sender
    ∧ users w !! ObjectId.lowercase (dto_to dto) = Some receiver
    ∧ from_ref d
      = Populated (Some {| ref_id := ObjectId.lowercase fromUserId;
                           ref_username := username sender;
                           ref_email := email sender |})
    ∧ to_ref d
      = Populated (Some {| ref_id := ObjectId.lowercase (dto_to dto);
                           ref_username := username receiver;
                           ref_email := email receiver |})
    ∧ doc d = new_message fromUserId dto w
    ∧ from (doc d) = ObjectId.lowercase fromUserId
    ∧ to (doc d) = ObjectId.lowercase (dto_to dto)
    ∧ content (doc d) = trim (dto_content dto)
    ∧ messageType (doc d) = ChatService.or_else (dto_messageType dto) "text"
    ∧ attachmentUrl (doc d) = ChatService.or_null (dto_attachmentUrl dto)
    ∧ delivered (doc d) = false ∧ deliveredAt (doc d) = None
    ∧ read (doc d) = false ∧ readAt (doc d) = None
    ∧ isDeleted (doc d) = false ∧ deletedAt (doc d) = None
    ∧ createdAt (doc d) = clock w
    ∧ messages w' = (messages w ++ [doc d])%list
    ∧ emitted w'
      = (if brokerUp w
         then (emitted w
               ++ [("message.sent",
                    {| ev_messageId := _id (doc d);
                       ev_from := ObjectId.lowercase fromUserId;
                       ev_to := ObjectId.lowercase (dto_to dto);
                       ev_content := Some (trim (dto_content dto));
                       ev_messageType :=
                         ChatService.or_else (dto_messageType dto) "text";
                       ev_timestamp := clock w |})])%list
         else emitted w)
    ∧ users w' = users w ∧ acked w' = acked w ∧ clock w' = clock w.
Proof.
  intros Hfrom Hto Hne Hc Hl Ht.
  assert (Hok : store_write_error fromUserId dto = None).
  { by apply store_write_error_None. }
  assert (is_Some (users w !! ObjectId.lowercase fromUserId)) as [uf Huf].
  { apply andb_true_iff in Hfrom as [_ E]. by apply bool_decide_eq_true in E. }
  assert (is_Some (users w !! ObjectId.lowercase (dto_to dto))) as [ut Hut].
  { apply andb_true_iff in Hto as [_ E]. by apply bool_decide_eq_true in E. }
  exists (populate_paths (users w) [path_from; path_to]
            (unpopulated (new_message fromUserId dto w))),
    (after_publish (new_message fromUserId dto w)
       (after_save (new_message fromUserId dto w) w)), uf, ut.
  split.
  - rewrite sendMessage_outcome, Hfrom, Hto, Hok. simpl.
    rewrite bool_decide_eq_false_2; [done|]. intros Heq. by rewrite Heq in Hne.
  - rewrite (populate_both _ _ uf ut) by done.
    unfold after_publish. simpl. split_and!; try done;
      by destruct (brokerUp w).
Qed.

Lemma sendMessage_saves_and_publishes_witness :
  ∃ d w',
    ChatService.sendMessage Examples.alice Examples.greeting
      (Examples.world [] true) = (Ok d, w')
    ∧ from_ref d
      = Populated (Some {| ref_id := Examples.alice; ref_username := "alice";
                           ref_email := "alice@example.com" |})
    ∧ to_ref d
      = Populated (Some {| ref_id := Examples.bob; ref_username := "bob";
                           ref_email := "bob@example.com" |})
    ∧ doc d = Examples.greeting_saved
    ∧ messages w' = [Examples.greeting_saved]
    ∧ emitted w' = [sent_event Examples.greeting_saved].
Proof.
  destruct (sendMessage_saves_and_publishes Examples.alice Examples.greeting
              (Examples.world [] true) eq_refl eq_refl)
    as (d & w' & sender & receiver & H & Hs & Hr & Hfrom & Hto & Hd & _ & _
        & _ & _ & _ & _ & _ & _ & _ & _ & _ & _ & Hm & He & _);
    [discriminate | discriminate | vm_compute; lia | by left |].
  exists d, w'. split; [exact H|].
  assert (sender = {| username := "alice"; email := "alice@example.com" |})
    as Es by (vm_compute in Hs; congruence).
  assert (receiver = {| username := "bob"; email := "bob@example.com" |})
    as Er by (vm_compute in Hr; congruence).
  split; [rewrite Hfrom, Es; reflexivity|].
  split; [rewrite Hto, Er; reflexivity|].
  split; [exact Hd|].
  split; [rewrite Hm, Hd; reflexivity|].
  rewrite He, Hd. reflexivity.
Defined.

(** X3: a [sendMessage] that is refused, by one of its own checks (sender
    or receiver not found, a message to oneself), by the validators of the
    schema or by the pre-save middleware, has persisted nothing and
    published nothing: the collection, the queue, the users and the console
    are as they were.  These errors are all raised before the insert; a
    failure of the store itself is another matter. *)
Theorem sendMessage_failure_changes_nothing
    (fromUserId : string) (dto : SendMessageDto) (w w' : World) (e : Exn) :
  ChatService.sendMessage fromUserId dto w = (Throw e, w') →
  refusal e →
  messages w' = messages w ∧ emitted w' = emitted w ∧ users w' = users w
  ∧ console w' = console w ∧ acked w' = acked w.
Proof.
  rewrite sendMessage_outcome. intros H _.
  repeat (case_match; simplify_eq/=); done.
Qed.

Lemma sendMessage_failure_changes_nothing_witness :
  messages
    (snd (ChatService.sendMessage Examples.alice
            {| dto_to := Examples.bob; dto_content := "   ";
               dto_messageType := None; dto_attachmentUrl := None |}
            (Examples.world [Examples.hello] true)))
  = [Examples.hello].
Proof.
  refine (proj1 (sendMessage_failure_changes_nothing Examples.alice
                   {| dto_to := Examples.bob; dto_content := "   ";
                      dto_messageType := None; dto_attachmentUrl := None |}
                   (Examples.world [Examples.hello] true)
                   (snd (ChatService.sendMessage Examples.alice
                           {| dto_to := Examples.bob; dto_content := "   ";
                              dto_messageType := None;
                              dto_attachmentUrl := None |}
                           (Examples.world [Examples.hello] true)))
                   (ValidationError {[ "content" := "required" ]}) eq_refl _)).
  right; right; right; left. eexists. reflexivity.
Defined.

(** X4: the same user under two spellings of the id (the hexadecimal
    digits differ in letter case only) passes the string comparison of the
    service; the pre-save middleware refuses the message, with a plain
    [Error] where the service would have raised a bad-request error.
    Nothing is persisted. *)
Theorem sendMessage_same_user_other_spelling
    (fromUserId : string) (dto : SendMessageDto) (w : World) :
  user_exists fromUserId w = true →
  ObjectId.isValid (dto_to dto) = true →
  fromUserId ≠ dto_to dto →
  ObjectId.lowercase fromUserId = ObjectId.lowercase (dto_to dto) →
  trim (dto_content dto) ≠ "" →
  (js_length (trim (dto_content dto)) ≤ 5000)%nat →
  ChatService.or_else (dto_messageType dto) "text"
    ∈ ["text"; "image"; "video"; "file"] →
  ∃ w',
    ChatService.sendMessage fromUserId dto w
    = (Throw (Error "Cannot send message to yourself"), w')
    ∧ messages w' = messages w ∧ emitted w' = emitted w.
Proof.
  intros Hfrom Hvt Hne Hsame Hc Hl Ht.
  assert (Hto : user_exists (dto_to dto) w = true).
  { unfold user_exists in *. rewrite Hvt, <-Hsame. simpl.
    by apply andb_true_iff in Hfrom as [_ ?]. }
  assert (He : validation_errors dto = ∅) by by apply validation_errors_empty.
  eexists. rewrite sendMessage_outcome, Hfrom, Hto. simpl.
  rewrite (bool_decide_eq_false_2 _ Hne). unfold store_write_error.
  rewrite (bool_decide_eq_true_2 _ He). simpl.
  by rewrite (bool_decide_eq_true_2 _ Hsame).
Qed.

Lemma sendMessage_same_user_other_spelling_witness :
  ∃ w',
    ChatService.sendMessage Examples.alice
      {| dto_to := "507F1F77BCF86CD799439011"; dto_content := "note to self";
         dto_messageType := None; dto_attachmentUrl := None |}
      (Examples.world [] true)
    = (Throw (Error "Cannot send message to yourself"), w')
    ∧ messages w' = [] ∧ emitted w' = [].
Proof.
  apply (sendMessage_same_user_other_spelling Examples.alice
           {| dto_to := "507F1F77BCF86CD799439011";
              dto_content := "note to self";
              dto_messageType := None; dto_attachmentUrl := None |}
           (Examples.world [] true)).
  - reflexivity.
  - reflexivity.
  - discriminate.
  - reflexivity.
  - discriminate.
  - vm_compute. lia.
  - by left.
Defined.

(** X5: content that is empty, or made of white space only ([trim] leaves
    nothing of it: spaces, tabs, line ends, no-break spaces and the other
    white space of ECMAScript), is refused by the [required] validator of
    the schema, for any two existing users: the call throws a
    [ValidationError] whose [errors] has [content], of kind [required],
    and [messageType] exactly when the message type is none of the four;
    nothing is persisted, published or printed. *)
Theorem sendMessage_blank_content
    (fromUserId : string) (dto : SendMessageDto) (w : World) :
  user_exists fromUserId w = true →
  user_exists (dto_to dto) w = true →
  fromUserId ≠ dto_to dto →
  trim (dto_content dto) = "" →
  ∃ errors w',
    ChatService.sendMessage fromUserId dto w
    = (Throw (ValidationError errors), w')
    ∧ errors !! "content" = Some "required"
    ∧ (errors !! "messageType" = None
       ↔ ChatService.or_else (dto_messageType dto) "text"
         ∈ ["text"; "image"; "video"; "file"])
    ∧ messages w' = messages w ∧ emitted w' = emitted w
    ∧ console w' = console w.
Proof.
  intros Hfrom Hto Hne Hc.
  assert (Hcontent : Model.content_errors (trim (dto_content dto))
                     = {[ "content" := "required" ]}).
  { unfold Model.content_errors. by rewrite Hc. }
  assert (He : validation_errors dto ≠ ∅).
  { unfold validation_errors. rewrite Hcontent.
    apply map_positive_l_alt, map_non_empty_singleton. }
  eexists _, _. split; [|split; [|split]].
  - rewrite sendMessage_outcome, Hfrom, Hto. simpl.
    rewrite (bool_decide_eq_false_2 _ Hne). unfold store_write_error.
    rewrite (bool_decide_eq_false_2 _ He). reflexivity.
  - unfold validation_errors. rewrite Hcontent.
    apply lookup_union_Some_l, lookup_singleton_eq.
  - unfold validation_errors. rewrite Hcontent, lookup_union_None.
    rewrite lookup_singleton_ne by done.
    unfold Model.messageType_errors. case_bool_decide as Ht.
    + by rewrite lookup_empty.
    + rewrite lookup_singleton_eq. split; [by intros [_ ?]|done].
  - done.
Qed.

Lemma sendMessage_blank_content_witness :
  ∃ w',
    ChatService.sendMessage Examples.alice
      {| dto_to := Examples.bob; dto_content := " 　 ";
         dto_messageType := None; dto_attachmentUrl := None |}
      (Examples.world [Examples.hello] true)
    = (Throw (ValidationError {[ "content" := "required" ]}), w')
    ∧ messages w' = [Examples.hello] ∧ emitted w' = [].
Proof.
  destruct (sendMessage_blank_content Examples.alice
              {| dto_to := Examples.bob; dto_content := " 　 ";
                 dto_messageType := None; dto_attachmentUrl := None |}
              (Examples.world [Examples.hello] true))
    as (errors & w' & H & _ & _ & Hm & He & _);
    [reflexivity | reflexivity | discriminate | reflexivity |].
  exists w'. split; [|split; [exact Hm | exact He]].
  rewrite H. pose proof H as H'. vm_compute in H'.
  injection H' as <- _. reflexivity.
Defined.

(** ** The read paths *)

Lemma cursor_elem q (l : list Message) m :
  m ∈ Model.cursor q l → m ∈ l ∧ Model.q_filter q m = true.
Proof.
  unfold Model.cursor, Model.matching. intros Hm.
  assert (Hs : m ∈ drop (default 0%nat (Model.q_skip q))
                     (if Model.q_sort q
                      then merge_sort newer_first
                             (filter (λ m, Model.q_filter q m = true) l)
                      else filter (λ m, Model.q_filter q m = true) l)).
  { destruct (Model.q_limit q) as [[|n]|]; try done.
    eapply elem_of_sublist; [exact Hm|apply sublist_take]. }
  pose proof (elem_of_sublist _ _ _ Hs (sublist_drop _ _)) as Hf.
  destruct (Model.q_sort q); [rewrite merge_sort_Permutation in Hf|];
    by apply list_elem_of_filter in Hf as [? ?].
Qed.

Lemma cursor_sorted q (l : list Message) :
  Model.q_sort q = true → StronglySorted newer_first (Model.cursor q l).
Proof.
  unfold Model.cursor. intros ->.
  assert (Hs : StronglySorted newer_first
                 (drop (default 0%nat (Model.q_skip q))
                    (merge_sort newer_first (Model.matching (Model.q_filter q) l)))).
  { eapply StronglySorted_sublist; [apply sublist_drop|].
    apply sorted_newer_first. }
  destruct (Model.q_limit q) as [[|n]|]; try done.
  eapply StronglySorted_sublist; [apply sublist_take|done].
Qed.

Lemma cursor_length q (l : list Message) n :
  Model.q_limit q = Some n → (0 < n)%nat →
  (length (Model.cursor q l) ≤ n)%nat.
Proof.
  unfold Model.cursor. intros -> Hn. destruct n as [|n]; [lia|].
  rewrite length_take. lia.
Qed.

(** With no skip and no limit the cursor is the matching documents, in
    some order. *)
Lemma cursor_all q (l : list Message) :
  Model.q_skip q = None → Model.q_limit q = None →
  Model.cursor q l ≡ₚ Model.matching (Model.q_filter q) l.
Proof.
  unfold Model.cursor. intros -> ->. simpl.
  destruct (Model.q_sort q); [apply merge_sort_Permutation|done].
Qed.

Lemma unread_filter_true u m :
  ChatService.unread_filter u m = true
  ↔ to m = u ∧ read m = false ∧ isDeleted m = false.
Proof.
  unfold ChatService.unread_filter.
  rewrite !andb_true_iff, !bool_decide_eq_true. tauto.
Qed.

Lemma getUnreadCount_valid userId w :
  ObjectId.isValid userId = true →
  ChatService.getUnreadCount userId w
  = (Ok (length (Model.matching
                   (ChatService.unread_filter (ObjectId.lowercase userId))
                   (messages w))), w).
Proof.
  intros Hv. unfold ChatService.getUnreadCount, newObjectId. by rewrite Hv.
Qed.

Lemma getUnreadMessages_valid userId w :
  ObjectId.isValid userId = true →
  ChatService.getUnreadMessages userId w
  = (Ok (populate_paths (users w) [path_from] ∘ unpopulated
           <$> Model.cursor
                 (Model.populate path_from
                    (Model.sort_createdAt_desc
                       (Model.find
                          (ChatService.unread_filter
                             (ObjectId.lowercase userId)))))
                 (messages w)), w).
Proof.
  intros Hv. unfold ChatService.getUnreadMessages, newObjectId. by rewrite Hv.
Qed.

(** X6: for a valid user id, [getUnreadCount] is the number of messages
    [getUnreadMessages] returns; these are, newest first, the messages of
    the collection that are addressed to the user, unread and not deleted,
    each with its sender populated. *)
Theorem getUnreadCount_counts_unread_messages (userId : string) (w : World) :
  ObjectId.isValid userId = true →
  ∃ l,
    ChatService.getUnreadMessages userId w = (Ok l, w)
    ∧ ChatService.getUnreadCount userId w = (Ok (length l), w)
    ∧ doc <$> l
      ≡ₚ filter (λ m, to m = ObjectId.lowercase userId ∧ read m = false
                      ∧ isDeleted m = false) (messages w)
    ∧ StronglySorted newer_first (doc <$> l)
    ∧ ∀ d, d ∈ l →
           from_ref d = Populated (resolve (users w) (from (doc d))).
Proof.
  intros Hv. eexists. split; [by apply getUnreadMessages_valid|].
  assert (Hdoc : ∀ k : list Message,
             doc <$> (populate_paths (users w) [path_from] ∘ unpopulated <$> k)
             = k).
  { intros k. rewrite <-list_fmap_compose. by rewrite list_fmap_id. }
  rewrite Hdoc. split; [|split; [|split]].
  - rewrite getUnreadCount_valid by done. rewrite length_fmap.
    by rewrite cursor_all.
  - rewrite cursor_all by done. unfold Model.matching. simpl.
    erewrite list_filter_iff; [done|]. intros m. simpl.
    apply unread_filter_true.
  - by apply cursor_sorted.
  - intros d Hd. apply list_elem_of_fmap in Hd as (m & -> & _). done.
Qed.

Lemma getUnreadCount_counts_unread_messages_witness :
  ∃ l,
    ChatService.getUnreadMessages Examples.bob
      (Examples.world [Examples.hello] true)
    = (Ok l, Examples.world [Examples.hello] true)
    ∧ ChatService.getUnreadCount Examples.bob
        (Examples.world [Examples.hello] true)
      = (Ok (length l), Examples.world [Examples.hello] true).
Proof.
  destruct (getUnreadCount_counts_unread_messages Examples.bob
              (Examples.world [Examples.hello] true) eq_refl)
    as (l & H1 & H2 & _).
  exists l. split; [exact H1 | exact H2].
Defined.

Lemma getInboxMessages_valid userId limit skip w :
  ObjectId.isValid userId = true →
  ChatService.getInboxMessages userId limit skip w
  = (Ok (populate_paths (users w) [path_from] ∘ unpopulated
           <$> Model.cursor
                 (Model.populate path_from
                    (Model.skip skip
                       (Model.limit limit
                          (Model.sort_createdAt_desc
                             (Model.find
                                (ChatService.inbox_filter
                                   (ObjectId.lowercase userId)))))))
                 (messages w)), w).
Proof.
  intros Hv. unfold ChatService.getInboxMessages, newObjectId. by rewrite Hv.
Qed.

(** X7: for a valid user id and a limit of at least 1, [getInboxMessages]
    returns the window of size [limit] at offset [skip] of the non-deleted
    messages addressed to the user, newest first (it does not reverse the
    page as [getConversation] does), with the sender populated and the
    receiver left as an id. *)
Theorem getInboxMessages_newest_first
    (userId : string) (limit skip : nat) (w : World) :
  ObjectId.isValid userId = true →
  (0 < limit)%nat →
  ∃ l,
    ChatService.getInboxMessages userId limit skip w = (Ok l, w)
    ∧ doc <$> l
      = take limit
          (drop skip
             (merge_sort newer_first
                (filter (λ m, to m = ObjectId.lowercase userId
                              ∧ isDeleted m = false) (messages w))))
    ∧ StronglySorted newer_first (doc <$> l)
    ∧ (length l ≤ limit)%nat
    ∧ ∀ d, d ∈ l →
           doc d ∈ messages w
           ∧ to (doc d) = ObjectId.lowercase userId
           ∧ isDeleted (doc d) = false
           ∧ from_ref d = Populated (resolve (users w) (from (doc d)))
           ∧ to_ref d = Unpopulated (to (doc d)).
Proof.
  intros Hv Hlimit. eexists. split; [by apply getInboxMessages_valid|].
  assert (Hdoc : ∀ k : list Message,
             doc <$> (populate_paths (users w) [path_from] ∘ unpopulated <$> k)
             = k).
  { intros k. rewrite <-list_fmap_compose. by rewrite list_fmap_id. }
  rewrite Hdoc. split; [|split; [|split]].
  - unfold Model.cursor, Model.matching. simpl.
    destruct limit as [|n]; [lia|]. do 3 f_equal.
    apply list_filter_iff. intros m. unfold ChatService.inbox_filter.
    by rewrite andb_true_iff, !bool_decide_eq_true.
  - by apply cursor_sorted.
  - rewrite length_fmap. by apply cursor_length.
  - intros d Hd. apply list_elem_of_fmap in Hd as (m & -> & Hm).
    apply cursor_elem in Hm as [Hin Hf]. simpl in Hf.
    unfold ChatService.inbox_filter in Hf.
    apply andb_true_iff in Hf as [Ht Hd]. apply bool_decide_eq_true in Ht, Hd.
    done.
Qed.

Lemma getInboxMessages_newest_first_witness :
  ∃ l,
    ChatService.getInboxMessages Examples.bob 1 0
      (Examples.world
         [Examples.hello;
          Examples.message "65a000000000000000000002" Examples.alice
            Examples.bob "again" 3000] true)
    = (Ok l,
       Examples.world
         [Examples.hello;
          Examples.message "65a000000000000000000002" Examples.alice
            Examples.bob "again" 3000] true)
    ∧ doc <$> l
      = [Examples.message "65a000000000000000000002" Examples.alice
           Examples.bob "again" 3000].
Proof.
  destruct (getInboxMessages_newest_first Examples.bob 1 0
              (Examples.world
                 [Examples.hello;
                  Examples.message "65a000000000000000000002" Examples.alice
                    Examples.bob "again" 3000] true) eq_refl (le_n 1))
    as (l & H & Hdoc & _).
  exists l. split; [exact H | exact Hdoc].
Defined.

(** ** Marking a conversation as read *)

Lemma unread_from_filter_true f u m :
  ChatService.unread_from_filter f u m = true ↔ Spec.unread_from f u m.
Proof.
  unfold ChatService.unread_from_filter, Spec.unread_from.
  rewrite !andb_true_iff, !bool_decide_eq_true. tauto.
Qed.


Lemma set_read_changes_unread now m : read m = false → set_read now m ≠ m.
Proof. intros Hr Heq. apply (f_equal read) in Heq. simpl in Heq. congruence. Qed.

Lemma markConversationAsRead_valid userId fromUserId w :
  ObjectId.isValid userId = true →
  ObjectId.isValid fromUserId = true →
  ChatService.markConversationAsRead userId fromUserId w
  = (Ok (length (filter (Spec.unread_from (ObjectId.lowercase fromUserId)
                           (ObjectId.lowercase userId)) (messages w))),
     set_messages
       (read_all (ObjectId.lowercase fromUserId) (ObjectId.lowercase userId)
          (clock w) <$> messages w) w).
Proof.
  intros Hu Hf. unfold ChatService.markConversationAsRead.
  rewrite Hu, Hf. simpl.
  rewrite (bind_Ok _ _ _ _ _ (newObjectId_valid _ w Hf)).
  rewrite (bind_Ok _ _ _ _ _ (newObjectId_valid _ w Hu)).
  unfold mbind, M_bind, newDate, gets, Model.updateMany. simpl.
  do 3 f_equal. apply list_filter_iff. intros m.
  rewrite unread_from_filter_true. split; [by intros [? _]|].
  intros Hm. split; [done|]. apply set_read_changes_unread.
  by destruct Hm as (_ & _ & ? & _).
Qed.





(** Reading every unread message of one sender takes them, and only them,
    off the unread messages of the reader. *)
Lemma unread_after_read_all f u now (l : list Message) :
  (length (Model.matching (ChatService.unread_filter u) (read_all f u now <$> l))
   + length (filter (Spec.unread_from f u) l))%nat
  = length (Model.matching (ChatService.unread_filter u) l).
Proof.
  unfold Model.matching. induction l as [|m l IH]; [done|].
  rewrite fmap_cons, !filter_cons.
  destruct (ChatService.unread_from_filter f u m) eqn:E.
  - assert (read_all f u now m = set_read now m) as ->.
    { unfold read_all. by rewrite E. }
    rewrite (decide_True (P := Spec.unread_from f u m))
      by by apply unread_from_filter_true.
    apply unread_from_filter_true in E as (Hf & Ht & Hr & Hd).
    rewrite (decide_True (P := ChatService.unread_filter u m = true))
      by by apply unread_filter_true.
    rewrite (decide_False
               (P := ChatService.unread_filter u (set_read now m) = true));
      [simpl; lia|].
    rewrite unread_filter_true. simpl. by intros (_ & ? & _).
  - assert (read_all f u now m = m) as ->.
    { unfold read_all. by rewrite E. }
    rewrite (decide_False (P := Spec.unread_from f u m)).
    2:{ rewrite <-unread_from_filter_true. congruence. }
    destruct (decide (ChatService.unread_filter u m = true)); simpl; lia.
Qed.

(** X9: after [markConversationAsRead(reader, sender)] has returned [n],
    the unread count of the reader is lower by exactly [n]. *)
Theorem markConversationAsRead_lowers_unread_count
    (userId fromUserId : string) (w w' : World) (n : nat) :
  ObjectId.isValid userId = true →
  ChatService.markConversationAsRead userId fromUserId w = (Ok n, w') →
  ∃ before after,
    ChatService.getUnreadCount userId w = (Ok before, w)
    ∧ ChatService.getUnreadCount userId w' = (Ok after, w')
    ∧ (after + n)%nat = before.
Proof.
  intros Hu H.
  destruct (ObjectId.isValid fromUserId) eqn:Hf.
  2:{ unfold ChatService.markConversationAsRead in H. rewrite Hu, Hf in H.
      done. }
  rewrite markConversationAsRead_valid in H by done. simplify_eq.
  eexists _, _. split; [by apply getUnreadCount_valid|].
  split; [by apply getUnreadCount_valid|]. simpl.
  apply unread_after_read_all.
Qed.

Lemma markConversationAsRead_lowers_unread_count_witness :
  ∃ before after,
    ChatService.getUnreadCount Examples.bob
      (Examples.world [Examples.hello] true)
    = (Ok before, Examples.world [Examples.hello] true)
    ∧ ChatService.getUnreadCount Examples.bob
        (Examples.world [set_read 5000 Examples.hello] true)
      = (Ok after, Examples.world [set_read 5000 Examples.hello] true)
    ∧ (after + 1)%nat = before.
Proof.
  exact (markConversationAsRead_lowers_unread_count Examples.bob Examples.alice
           (Examples.world [Examples.hello] true)
           (Examples.world [set_read 5000 Examples.hello] true) 1
           eq_refl eq_refl).
Defined.

(** ** Reading one message and the unread count *)

Lemma unread_after_set_read u now (l : list Message) i m :
  l !! i = Some m → to m = u → isDeleted m = false →
  (length (Model.matching (ChatService.unread_filter u)
             (<[i := set_read now m]> l))
   + (if read m then 0 else 1))%nat
  = length (Model.matching (ChatService.unread_filter u) l).
Proof.
  intros Hi Ht Hd. unfold Model.matching.
  rewrite insert_take_drop by by eapply lookup_lt_Some.
  rewrite <-(take_drop_middle l i m Hi) at 3.
  rewrite !filter_app, !filter_cons, !length_app.
  rewrite (decide_False
             (P := ChatService.unread_filter u (set_read now m) = true)).
  2:{ rewrite unread_filter_true. simpl. by intros (_ & ? & _). }
  destruct (read m) eqn:Hr.
  - rewrite (decide_False (P := ChatService.unread_filter u m = true)).
    2:{ rewrite unread_filter_true. intros (_ & ? & _). congruence. }
    lia.
  - rewrite (decide_True (P := ChatService.unread_filter u m = true))
      by by apply unread_filter_true.
    simpl. lia.
Qed.

(** X10: a [markAsRead] that succeeds has updated one message of the
    collection, the first with that id that is addressed to the reader and
    not deleted: it is now read, since the time of the call, and every
    other message is as it was.  The unread count of the reader is lower by
    one when that message was unread, and the same when it was read
    already. *)
Theorem markAsRead_lowers_unread_count
    (messageId readerId : string) (w w' : World) (d : MessageDocument) :
  ChatService.markAsRead messageId readerId w = (Ok d, w') →
  ∃ i m before after,
    first_match (λ m, _id m = ObjectId.lowercase messageId
                      ∧ to m = ObjectId.lowercase readerId
                      ∧ isDeleted m = false) (messages w) i m
    ∧ _id (doc d) = ObjectId.lowercase messageId
    ∧ to (doc d) = ObjectId.lowercase readerId
    ∧ read (doc d) = true ∧ readAt (doc d) = Some (clock w)
    ∧ marked_read (clock w) m (doc d)
    ∧ replaced i (doc d) (messages w) (messages w')
    ∧ ChatService.getUnreadCount readerId w = (Ok before, w)
    ∧ ChatService.getUnreadCount readerId w' = (Ok after, w')
    ∧ (after + (if read m then 0 else 1))%nat = before.
Proof.
  intros H.
  destruct (ObjectId.isValid messageId) eqn:Hm.
  2:{ unfold ChatService.markAsRead in H. by rewrite Hm in H. }
  destruct (ObjectId.isValid readerId) eqn:Hu.
  2:{ unfold ChatService.markAsRead in H. by rewrite Hm, Hu in H. }
  destruct (list_find
              (λ m, ChatService.read_filter (ObjectId.lowercase messageId)
                      (ObjectId.lowercase readerId) m = true) (messages w))
    as [[i m]|] eqn:Hfind.
  2:{ by rewrite (markAsRead_not_found _ _ _ Hm Hu Hfind) in H. }
  rewrite (markAsRead_found _ _ _ _ _ Hm Hu Hfind) in H. simplify_eq.
  pose proof (list_find_first_match _ _ _ _ Hfind) as Hfirst.
  apply (first_match_iff _ _ _ _ _ (read_filter_true _ _)) in Hfirst.
  pose proof Hfirst as (Hi & (Hid & Ht & Hd) & _).
  eexists i, m, _, _. split; [exact Hfirst|]. simpl.
  split; [done|]. split; [done|]. split; [done|]. split; [done|].
  split; [apply set_read_marked|].
  split; [by apply replaced_insert with m|].
  split; [by apply getUnreadCount_valid|].
  split; [by apply getUnreadCount_valid|]. simpl.
  by apply unread_after_set_read.
Qed.

Lemma markAsRead_lowers_unread_count_witness :
  ∃ before after,
    ChatService.getUnreadCount Examples.bob
      (Examples.world [Examples.hello] true)
    = (Ok before, Examples.world [Examples.hello] true)
    ∧ (after + 1)%nat = before.
Proof.
  destruct (markAsRead_lowers_unread_count "65a000000000000000000001"
              Examples.bob (Examples.world [Examples.hello] true)
              (Examples.world [set_read 5000 Examples.hello] true)
              (populate_paths Examples.registered [path_from]
                 (unpopulated (set_read 5000 Examples.hello))) eq_refl)
    as (i & m & before & after & (Hi & _) & _ & _ & _ & _ & _ & _ & Hb & _
        & Hsum).
  exists before, after. split; [exact Hb|].
  destruct i as [|i]; simpl in Hi.
  - injection Hi as <-. exact Hsum.
  - destruct i; discriminate Hi.
Defined.

(** ** Deleting a message *)

Lemma delete_filter_true id u m :
  ChatService.delete_filter id u m = true
  ↔ _id m = id ∧ (from m = u ∨ to m = u).
Proof.
  unfold ChatService.delete_filter.
  by rewrite andb_true_iff, orb_true_iff, !bool_decide_eq_true.
Qed.

Lemma deleteMessage_found messageId userId w i m :
  ObjectId.isValid messageId = true →
  ObjectId.isValid userId = true →
  list_find (λ m, ChatService.delete_filter (ObjectId.lowercase messageId)
                    (ObjectId.lowercase userId) m = true) (messages w)
  = Some (i, m) →
  ChatService.deleteMessage messageId userId w
  = (Ok tt, set_messages (<[i := set_deleted (clock w) m]> (messages w)) w).
Proof.
  intros Hm Hu Hfind. unfold ChatService.deleteMessage.
  rewrite Hm, Hu. simpl.
  rewrite (bind_Ok _ _ _ _ _ (newObjectId_valid _ w Hm)).
  rewrite (bind_Ok _ _ _ _ _ (newObjectId_valid _ w Hu)).
  unfold mbind, M_bind, newDate, gets, Model.findOneAndUpdate,
    Model.update_one.
  rewrite Hfind. reflexivity.
Qed.

Lemma deleteMessage_not_found messageId userId w :
  ObjectId.isValid messageId = true →
  ObjectId.isValid userId = true →
  list_find (λ m, ChatService.delete_filter (ObjectId.lowercase messageId)
                    (ObjectId.lowercase userId) m = true) (messages w)
  = None →
  ChatService.deleteMessage messageId userId w
  = (Throw (NotFoundException "Message not found or unauthorized"), w).
Proof.
  intros Hm Hu Hfind. unfold ChatService.deleteMessage.
  rewrite Hm, Hu. simpl.
  rewrite (bind_Ok _ _ _ _ _ (newObjectId_valid _ w Hm)).
  rewrite (bind_Ok _ _ _ _ _ (newObjectId_valid _ w Hu)).
  unfold mbind, M_bind, newDate, gets, Model.findOneAndUpdate,
    Model.update_one.
  rewrite Hfind. simpl. by rewrite set_messages_same.
Qed.

(** X11: for two valid ids, [deleteMessage] marks the first message with
    that id of which the acting user is the sender or the receiver as
    deleted at the time of the call: [isDeleted = true], [deletedAt = now];
    the message stays in its place in the collection with its content and
    its delivery and read state, no other message changes, and nothing else
    of the world does.  When the id belongs to no message, or only to
    messages of other users, the call fails with the not-found error and
    changes nothing; an id that is no ObjectId is a bad request. *)
Theorem deleteMessage_soft_deletes
    (messageId userId : string) (w : World) :
  (ObjectId.isValid messageId = true →
   ObjectId.isValid userId = true →
   (∃ m, m ∈ messages w
         ∧ _id m = ObjectId.lowercase messageId
         ∧ (from m = ObjectId.lowercase userId
            ∨ to m = ObjectId.lowercase userId)) →
   ∃ i m m' w',
     first_match (λ m, _id m = ObjectId.lowercase messageId
                       ∧ (from m = ObjectId.lowercase userId
                          ∨ to m = ObjectId.lowercase userId))
       (messages w) i m
     ∧ ChatService.deleteMessage messageId userId w = (Ok tt, w')
     ∧ isDeleted m' = true ∧ deletedAt m' = Some (clock w)
     ∧ content m' = content m
     ∧ marked_deleted (clock w) m m'
     ∧ replaced i m' (messages w) (messages w')
     ∧ same_but_messages w w')
  ∧ (ObjectId.isValid messageId = true →
     ObjectId.isValid userId = true →
     (∀ m, m ∈ messages w →
           _id m = ObjectId.lowercase messageId →
           from m ≠ ObjectId.lowercase userId
           ∧ to m ≠ ObjectId.lowercase userId) →
     ChatService.deleteMessage messageId userId w
     = (Throw (NotFoundException "Message not found or unauthorized"), w))
  ∧ (ObjectId.isValid messageId = false ∨ ObjectId.isValid userId = false →
     ChatService.deleteMessage messageId userId w
     = (Throw (BadRequestException "Invalid IDs"), w)).
Proof.
  split; [|split].
  - intros Hm Hu (m0 & Hin & Hid & Hp).
    destruct (list_find_elem_of
                (λ m, ChatService.delete_filter (ObjectId.lowercase messageId)
                        (ObjectId.lowercase userId) m = true)
                (messages w) m0 Hin) as [[i m] Hfind].
    { by apply delete_filter_true. }
    pose proof (list_find_first_match _ _ _ _ Hfind) as Hfirst.
    apply (first_match_iff _ _ _ _ _ (delete_filter_true _ _)) in Hfirst.
    pose proof Hfirst as (Hi & _ & _).
    exists i, m, (set_deleted (clock w) m), 
      (set_messages (<[i := set_deleted (clock w) m]> (messages w)) w).
    split; [exact Hfirst|].
    split; [by apply deleteMessage_found|].
    split; [done|]. split; [done|]. split; [done|].
    split; [apply set_deleted_marked|].
    split; [by apply replaced_insert with m|]. by repeat split.
  - intros Hm Hu Hnone. apply deleteMessage_not_found; [done..|].
    apply list_find_None, Forall_forall. intros m Hin.
    rewrite delete_filter_true. intros [Hid Hp].
    destruct (Hnone m Hin Hid) as [? ?]. by destruct Hp.
  - intros Hinv. unfold ChatService.deleteMessage.
    destruct Hinv as [-> | ->]; simpl; [done|].
    by rewrite orb_true_r.
Qed.

Lemma deleteMessage_soft_deletes_witness :
  ChatService.deleteMessage "65a000000000000000000001" Examples.carol
    (Examples.world [Examples.hello] true)
  = (Throw (NotFoundException "Message not found or unauthorized"),
     Examples.world [Examples.hello] true)
  ∧ ∃ m' w',
      ChatService.deleteMessage "65a000000000000000000001" Examples.bob
        (Examples.world [Examples.hello] true) = (Ok tt, w')
      ∧ messages w' !! 0%nat = Some m'
      ∧ isDeleted m' = true ∧ deletedAt m' = Some 5000
      ∧ content m' = "hello".
Proof.
  split.
  - apply (proj1 (proj2 (deleteMessage_soft_deletes "65a000000000000000000001"
                           Examples.carol
                           (Examples.world [Examples.hello] true))));
      [reflexivity | reflexivity |].
    intros m Hin _. apply list_elem_of_singleton in Hin as ->.
    split; discriminate.
  - destruct (proj1 (deleteMessage_soft_deletes "65a000000000000000000001"
                       Examples.bob (Examples.world [Examples.hello] true))
                eq_refl eq_refl)
      as (i & m & m' & w' & (Hi & _) & H & Hdel & Hat & Hc & _
          & (_ & Hlook & _) & _).
    + exists Examples.hello. split; [apply list_elem_of_singleton; reflexivity|].
      split; [reflexivity|]. right. reflexivity.
    + exists m', w'. split; [exact H|].
      destruct i as [|i]; [|destruct i; discriminate Hi].
      injection Hi as <-. repeat split; assumption.
Defined.

(** ** Deleted messages and the read paths *)

Lemma getConversation_live userId1 userId2 limit skip w l w' d :
  ChatService.getConversation userId1 userId2 limit skip w = (Ok l, w') →
  d ∈ l → doc d ∈ messages w ∧ isDeleted (doc d) = false.
Proof.
  intros H Hd.
  destruct (ObjectId.isValid userId1) eqn:H1, (ObjectId.isValid userId2) eqn:H2;
    try (unfold ChatService.getConversation in H; rewrite H1, H2 in H; done).
  rewrite getConversation_valid in H by done. simplify_eq.
  apply elem_of_reverse, list_elem_of_fmap in Hd as (m & -> & Hm).
  apply cursor_elem in Hm as [Hin Hf]. simpl in Hf.
  apply conversation_filter_between in Hf as [_ ?]. done.
Qed.

Lemma getInboxMessages_live userId limit skip w l w' d :
  ChatService.getInboxMessages userId limit skip w = (Ok l, w') →
  d ∈ l → doc d ∈ messages w ∧ isDeleted (doc d) = false.
Proof.
  intros H Hd.
  destruct (ObjectId.isValid userId) eqn:Hv;
    [|unfold ChatService.getInboxMessages in H; rewrite Hv in H; done].
  rewrite getInboxMessages_valid in H by done. simplify_eq.
  apply list_elem_of_fmap in Hd as (m & -> & Hm).
  apply cursor_elem in Hm as [Hin Hf]. simpl in Hf.
  unfold ChatService.inbox_filter in Hf.
  apply andb_true_iff in Hf as [_ Hf]. by apply bool_decide_eq_true in Hf.
Qed.

Lemma getUnreadMessages_live userId w l w' d :
  ChatService.getUnreadMessages userId w = (Ok l, w') →
  d ∈ l → doc d ∈ messages w ∧ isDeleted (doc d) = false.
Proof.
  intros H Hd.
  destruct (ObjectId.isValid userId) eqn:Hv;
    [|unfold ChatService.getUnreadMessages in H; rewrite Hv in H; done].
  rewrite getUnreadMessages_valid in H by done. simplify_eq.
  apply list_elem_of_fmap in Hd as (m & -> & Hm).
  apply cursor_elem in Hm as [Hin Hf]. simpl in Hf.
  by apply unread_filter_true in Hf as (_ & _ & ?).
Qed.

(** X12: whatever the arguments, every document that [getConversation],
    [getInboxMessages] or [getUnreadMessages] returns is a message of the
    collection that is not deleted. *)
Theorem queries_return_live_messages (w : World) :
  (∀ userId1 userId2 limit skip l w' d,
     ChatService.getConversation userId1 userId2 limit skip w = (Ok l, w') →
     d ∈ l → doc d ∈ messages w ∧ isDeleted (doc d) = false)
  ∧ (∀ userId limit skip l w' d,
       ChatService.getInboxMessages userId limit skip w = (Ok l, w') →
       d ∈ l → doc d ∈ messages w ∧ isDeleted (doc d) = false)
  ∧ (∀ userId l w' d,
       ChatService.getUnreadMessages userId w = (Ok l, w') →
       d ∈ l → doc d ∈ messages w ∧ isDeleted (doc d) = false).
Proof.
  split; [|split].
  - intros. by eapply getConversation_live.
  - intros. by eapply getInboxMessages_live.
  - intros. by eapply getUnreadMessages_live.
Qed.

Lemma queries_return_live_messages_witness :
  doc (populate_paths Examples.registered [path_from]
         (unpopulated Examples.hello)) ∈ [Examples.hello]
  ∧ isDeleted (doc (populate_paths Examples.registered [path_from]
                      (unpopulated Examples.hello))) = false.
Proof.
  apply (proj2 (proj2 (queries_return_live_messages
                         (Examples.world [Examples.hello] true)))
           Examples.bob
           [populate_paths Examples.registered [path_from]
              (unpopulated Examples.hello)]
           (Examples.world [Examples.hello] true)
           (populate_paths Examples.registered [path_from]
              (unpopulated Examples.hello)) eq_refl).
  apply list_elem_of_singleton. reflexivity.
Defined.

Lemma markAsRead_Ok_inv messageId userId w d w' :
  ChatService.markAsRead messageId userId w = (Ok d, w') →
  ∃ m, m ∈ messages w
       ∧ _id m = ObjectId.lowercase messageId
       ∧ to m = ObjectId.lowercase userId
       ∧ isDeleted m = false.
Proof.
  intros H.
  destruct (ObjectId.isValid messageId) eqn:Hm.
  2:{ unfold ChatService.markAsRead in H. by rewrite Hm in H. }
  destruct (ObjectId.isValid userId) eqn:Hu.
  2:{ unfold ChatService.markAsRead in H. by rewrite Hm, Hu in H. }
  destruct (list_find
              (λ m, ChatService.read_filter (ObjectId.lowercase messageId)
                      (ObjectId.lowercase userId) m = true) (messages w))
    as [[i m]|] eqn:Hfind.
  2:{ by rewrite (markAsRead_not_found _ _ _ Hm Hu Hfind) in H. }
  apply list_find_Some in Hfind as (Hi & Hp & _).
  apply read_filter_true in Hp. exists m. split; [|done].
  by eapply list_elem_of_lookup_2.
Qed.

Lemma deleteMessage_Ok_inv messageId userId w w' :
  ChatService.deleteMessage messageId userId w = (Ok tt, w') →
  ∃ i m,
    messages w !! i = Some m
    ∧ _id m = ObjectId.lowercase messageId
    ∧ w' = set_messages (<[i := set_deleted (clock w) m]> (messages w)) w.
Proof.
  intros H.
  destruct (ObjectId.isValid messageId) eqn:Hm.
  2:{ unfold ChatService.deleteMessage in H. by rewrite Hm in H. }
  destruct (ObjectId.isValid userId) eqn:Hu.
  2:{ unfold ChatService.deleteMessage in H. by rewrite Hm, Hu in H. }
  destruct (list_find
              (λ m, ChatService.delete_filter (ObjectId.lowercase messageId)
                      (ObjectId.lowercase userId) m = true) (messages w))
    as [[i m]|] eqn:Hfind.
  2:{ by rewrite (deleteMessage_not_found _ _ _ Hm Hu Hfind) in H. }
  rewrite (deleteMessage_found _ _ _ _ _ Hm Hu Hfind) in H. simplify_eq.
  apply list_find_Some in Hfind as (Hi & Hp & _).
  apply delete_filter_true in Hp as [? _]. by exists i, m.
Qed.

(** With unique ids, the one message of an id is deleted once the update at
    its place has marked it. *)
Lemma deleted_everywhere (l : list Message) i m now x :
  NoDup (_id <$> l) → l !! i = Some m →
  x ∈ <[i := set_deleted now m]> l → _id x = _id m →
  x = set_deleted now m.
Proof.
  intros Hnd Hi Hx Hid. apply list_elem_of_lookup in Hx as [j Hj].
  destruct (decide (i = j)) as [->|Hne].
  - rewrite list_lookup_insert_eq in Hj by by eapply lookup_lt_Some.
    congruence.
  - rewrite list_lookup_insert_ne in Hj by done.
    exfalso. apply Hne. eapply (NoDup_lookup _ i j (_id m) Hnd).
    + by rewrite list_lookup_fmap, Hi.
    + rewrite list_lookup_fmap, Hj. simpl. by rewrite Hid.
Qed.

(** X13: in a collection with unique ids, once [deleteMessage] has
    succeeded the message is still stored, now deleted at the time of the
    call, but no read path shows it: no document of that id comes back from
    [getConversation], [getInboxMessages] or [getUnreadMessages], whoever
    asks, and [markAsRead] on it no longer succeeds. *)
Theorem deleteMessage_hides_message
    (messageId userId : string) (w w' : World) :
  NoDup (_id <$> messages w) →
  ChatService.deleteMessage messageId userId w = (Ok tt, w') →
  (∃ m, m ∈ messages w'
        ∧ _id m = ObjectId.lowercase messageId
        ∧ isDeleted m = true ∧ deletedAt m = Some (clock w))
  ∧ (∀ userId1 userId2 limit skip l w'' d,
       ChatService.getConversation userId1 userId2 limit skip w' = (Ok l, w'') →
       d ∈ l → _id (doc d) ≠ ObjectId.lowercase messageId)
  ∧ (∀ reader limit skip l w'' d,
       ChatService.getInboxMessages reader limit skip w' = (Ok l, w'') →
       d ∈ l → _id (doc d) ≠ ObjectId.lowercase messageId)
  ∧ (∀ reader l w'' d,
       ChatService.getUnreadMessages reader w' = (Ok l, w'') →
       d ∈ l → _id (doc d) ≠ ObjectId.lowercase messageId)
  ∧ (∀ reader d w'',
       ChatService.markAsRead messageId reader w' ≠ (Ok d, w'')).
Proof.
  intros Hnd H. apply deleteMessage_Ok_inv in H as (i & m & Hi & Hid & ->).
  simpl.
  assert (Hall : ∀ x, x ∈ <[i := set_deleted (clock w) m]> (messages w) →
                      _id x = ObjectId.lowercase messageId →
                      isDeleted x = true).
  { intros x Hx Hx'. rewrite <-Hid in Hx'.
    by rewrite (deleted_everywhere _ _ _ _ _ Hnd Hi Hx Hx'). }
  split; [|split; [|split; [|split]]].
  - exists (set_deleted (clock w) m). split; [|done].
    eapply list_elem_of_lookup_2, list_lookup_insert_eq.
    by eapply lookup_lt_Some.
  - intros ??????? Hq Hd Heq.
    destruct (getConversation_live _ _ _ _ _ _ _ _ Hq Hd) as [Hin Hlive].
    simpl in Hin. rewrite (Hall _ Hin Heq) in Hlive. done.
  - intros ?????? Hq Hd Heq.
    destruct (getInboxMessages_live _ _ _ _ _ _ _ Hq Hd) as [Hin Hlive].
    simpl in Hin. rewrite (Hall _ Hin Heq) in Hlive. done.
  - intros ???? Hq Hd Heq.
    destruct (getUnreadMessages_live _ _ _ _ _ Hq Hd) as [Hin Hlive].
    simpl in Hin. rewrite (Hall _ Hin Heq) in Hlive. done.
  - intros reader d w'' Hr.
    apply markAsRead_Ok_inv in Hr as (x & Hin & Hx & _ & Hlive).
    simpl in Hin. rewrite (Hall _ Hin Hx) in Hlive. done.
Qed.

Lemma deleteMessage_hides_message_witness :
  ChatService.markAsRead "65a000000000000000000001" Examples.bob
    (Examples.world [set_deleted 5000 Examples.hello] true)
  ≠ (Ok (unpopulated Examples.hello),
     Examples.world [set_deleted 5000 Examples.hello] true).
Proof.
  refine (proj2 (proj2 (proj2 (proj2
            (deleteMessage_hides_message "65a000000000000000000001"
               Examples.alice (Examples.world [Examples.hello] true)
               (Examples.world [set_deleted 5000 Examples.hello] true)
               _ eq_refl)))) Examples.bob (unpopulated Examples.hello)
            (Examples.world [set_deleted 5000 Examples.hello] true)).
  apply NoDup_singleton.
Defined.

(** ** Marking a message as delivered *)

Lemma list_find_insert_same {A} (P : A → Prop) `{∀ x, Decision (P x)}
    (l : list A) i x y :
  list_find P l = Some (i, x) → P y →
  list_find P (<[i := y]> l) = Some (i, y).
Proof.
  intros Hfind Hy. apply list_find_Some in Hfind as (Hi & Hp & Hbefore).
  apply list_find_Some. split; [|split; [done|]].
  - apply list_lookup_insert_eq. by eapply lookup_lt_Some.
  - intros j z Hj Hlt. rewrite list_lookup_insert_ne in Hj by lia.
    by eapply Hbefore.
Qed.

Lemma markAsDelivered_found messageId w i m :
  ObjectId.isValid messageId = true →
  list_find (λ m, bool_decide (_id m = ObjectId.lowercase messageId) = true)
    (messages w) = Some (i, m) →
  ChatService.markAsDelivered messageId w
  = (Ok tt, set_messages (<[i := set_delivered (clock w) m]> (messages w)) w).
Proof.
  intros Hv Hfind. unfold ChatService.markAsDelivered. rewrite Hv. simpl.
  rewrite (bind_Ok _ _ _ _ _ (newObjectId_valid _ w Hv)).
  unfold mbind, M_bind, newDate, gets, Model.findByIdAndUpdate,
    Model.findOneAndUpdate, Model.update_one.
  rewrite Hfind. reflexivity.
Qed.

Lemma markAsDelivered_not_found messageId w :
  ObjectId.isValid messageId = true →
  list_find (λ m, bool_decide (_id m = ObjectId.lowercase messageId) = true)
    (messages w) = None →
  ChatService.markAsDelivered messageId w = (Ok tt, w).
Proof.
  intros Hv Hfind. unfold ChatService.markAsDelivered. rewrite Hv. simpl.
  rewrite (bind_Ok _ _ _ _ _ (newObjectId_valid _ w Hv)).
  unfold mbind, M_bind, newDate, gets, Model.findByIdAndUpdate,
    Model.findOneAndUpdate, Model.update_one.
  rewrite Hfind. simpl. by rewrite set_messages_same.
Qed.

(** X14: [markAsDelivered] never fails.  For a string that is no ObjectId,
    or an id no message has, it does nothing at all.  Otherwise it sets
    [delivered = true] and [deliveredAt = now] on the first message of that
    id, whatever its state, keeps the other fields of the message, and
    changes no other message and nothing else of the world; a repeated call
    at a later time keeps the message delivered and only moves
    [deliveredAt] to the time of the later call. *)
Theorem markAsDelivered_sets_delivered (messageId : string) (w : World) :
  (ObjectId.isValid messageId = false
   ∨ (∀ m, m ∈ messages w → _id m ≠ ObjectId.lowercase messageId) →
   ChatService.markAsDelivered messageId w = (Ok tt, w))
  ∧ (ObjectId.isValid messageId = true →
     (∃ m, m ∈ messages w ∧ _id m = ObjectId.lowercase messageId) →
     ∃ i m m' w',
       first_match (λ m, _id m = ObjectId.lowercase messageId)
         (messages w) i m
       ∧ ChatService.markAsDelivered messageId w = (Ok tt, w')
       ∧ delivered m' = true ∧ deliveredAt m' = Some (clock w)
       ∧ marked_delivered (clock w) m m'
       ∧ replaced i m' (messages w) (messages w')
       ∧ same_but_messages w w'
       ∧ ∀ later, ∃ m'' w'',
           ChatService.markAsDelivered messageId (set_clock later w')
           = (Ok tt, w'')
           ∧ delivered m'' = true ∧ deliveredAt m'' = Some later
           ∧ marked_delivered later m' m''
           ∧ replaced i m'' (messages w') (messages w'')).
Proof.
  split.
  - intros [Hinv|Hnone].
    + unfold ChatService.markAsDelivered. by rewrite Hinv.
    + destruct (ObjectId.isValid messageId) eqn:Hv;
        [|unfold ChatService.markAsDelivered; by rewrite Hv].
      apply markAsDelivered_not_found; [done|].
      apply list_find_None, Forall_forall. intros m Hin.
      rewrite bool_decide_eq_true. by apply Hnone.
  - intros Hv (m0 & Hin & Hid).
    destruct (list_find_elem_of
                (λ m, bool_decide (_id m = ObjectId.lowercase messageId) = true)
                (messages w) m0 Hin) as [[i m] Hfind].
    { by apply bool_decide_eq_true. }
    pose proof (list_find_first_match _ _ _ _ Hfind) as Hfirst.
    apply (first_match_iff _ (λ m, _id m = ObjectId.lowercase messageId))
      in Hfirst; [|intros x; apply bool_decide_eq_true].
    pose proof Hfirst as (Hi & Hp & _).
    exists i, m, (set_delivered (clock w) m),
      (set_messages (<[i := set_delivered (clock w) m]> (messages w)) w).
    split; [exact Hfirst|].
    split; [by apply markAsDelivered_found|].
    split; [done|]. split; [done|].
    split; [apply set_delivered_marked|].
    split; [by apply replaced_insert with m|].
    split; [by repeat split|].
    intros later.
    exists (set_delivered later (set_delivered (clock w) m)).
    eexists. split.
    + apply (markAsDelivered_found messageId _ i (set_delivered (clock w) m) Hv).
      simpl. apply (list_find_insert_same _ _ _ m); [done|].
      by apply bool_decide_eq_true.
    + split; [done|]. split; [done|].
      split; [apply set_delivered_marked|]. simpl.
      apply replaced_insert with (set_delivered (clock w) m).
      apply list_lookup_insert_eq. by eapply lookup_lt_Some.
Qed.

Lemma markAsDelivered_sets_delivered_witness :
  ChatService.markAsDelivered "not-an-object-id"
    (Examples.world [Examples.hello] true)
  = (Ok tt, Examples.world [Examples.hello] true)
  ∧ ∃ m' w',
      ChatService.markAsDelivered "65a000000000000000000001"
        (Examples.world [Examples.hello] true) = (Ok tt, w')
      ∧ messages w' !! 0%nat = Some m'
      ∧ delivered m' = true ∧ deliveredAt m' = Some 5000.
Proof.
  split.
  - apply (proj1 (markAsDelivered_sets_delivered "not-an-object-id"
                    (Examples.world [Examples.hello] true))).
    left. reflexivity.
  - destruct (proj2 (markAsDelivered_sets_delivered "65a000000000000000000001"
                       (Examples.world [Examples.hello] true)) eq_refl)
      as (i & m & m' & w' & (Hi & _) & H & Hd & Hat & _ & (_ & Hlook & _) & _).
    + exists Examples.hello. split; [apply list_elem_of_singleton|]; reflexivity.
    + exists m', w'. split; [exact H|].
      destruct i as [|i]; [|destruct i; discriminate Hi].
      repeat split; assumption.
Defined.

(** ** Invariants of the collection *)

Lemma touched_consistent m m' : touched m m' → consistent m → consistent m'.
Proof.
  intros [-> | [t [-> | [-> | ->]]]] (Hd & Hr & Hx & Hrd); [done|..];
    unfold consistent; simpl; split_and!; try done;
    try (split; [by eauto|done]).
Qed.

Lemma touched_well_formed m m' : touched m m' → well_formed m → well_formed m'.
Proof.
  intros Ht (Hc & Hrest). split; [by eapply touched_consistent|].
  by destruct Ht as [-> | [t [-> | [-> | ->]]]].
Qed.

Lemma touched_later_state m m' : touched m m' → later_state m m'.
Proof.
  intros [-> | [t [-> | [-> | ->]]]]; unfold later_state; simpl; by split_and!.
Qed.

Lemma later_state_trans a b c :
  later_state a b → later_state b c → later_state a c.
Proof.
  unfold later_state.
  intros (?&?&?&?&?&?&?&?&?&?) (?&?&?&?&?&?&?&?&?&?).
  split_and!; try congruence; auto.
Qed.

Lemma grows_refl l : grows l l.
Proof.
  split.
  - intros j m Hj. exists m. split; [done|by left].
  - intros j m' Hj Hle. apply lookup_lt_Some in Hj. lia.
Qed.

Lemma grows_insert l i m m' :
  l !! i = Some m → touched m m' → grows l (<[i := m']> l).
Proof.
  intros Hi Ht. split.
  - intros j x Hj. destruct (decide (i = j)) as [->|Hne].
    + exists m'. rewrite list_lookup_insert_eq by by eapply lookup_lt_Some.
      by simplify_eq.
    + exists x. rewrite list_lookup_insert_ne by done. split; [done|by left].
  - intros j x Hj Hle. apply lookup_lt_Some in Hj.
    rewrite length_insert in Hj. lia.
Qed.

Lemma grows_snoc l m : well_formed m → grows l (l ++ [m]).
Proof.
  intros Hm. split.
  - intros j x Hj. exists x. split; [by apply lookup_app_l_Some|by left].
  - intros j x Hj Hle. rewrite lookup_app_r in Hj by done.
    destruct (j - length l)%nat; simpl in Hj; [by simplify_eq|].
    by rewrite lookup_nil in Hj.
Qed.

Lemma grows_read_all f u now l : grows l (read_all f u now <$> l).
Proof.
  split.
  - intros j m Hj. exists (read_all f u now m).
    rewrite list_lookup_fmap, Hj. split; [done|].
    unfold read_all. destruct (ChatService.unread_from_filter f u m);
      [right; exists now|]; by left.
  - intros j x Hj Hle. apply lookup_lt_Some in Hj.
    rewrite length_fmap in Hj. lia.
Qed.

Lemma new_message_well_formed fromUserId dto w :
  store_write_error fromUserId dto = None →
  well_formed (new_message fromUserId dto w).
Proof.
  intros H. apply store_write_error_None in H as (Hne & Hc & Hl & Ht).
  unfold well_formed, consistent. simpl. split_and!; try done;
    split; try done; by intros [? ?].
Qed.

Lemma sendMessage_grows fromUserId dto w :
  grows (messages w) (messages (snd (ChatService.sendMessage fromUserId dto w))).
Proof.
  rewrite sendMessage_outcome.
  destruct (user_exists fromUserId w); simpl; [|apply grows_refl].
  destruct (user_exists (dto_to dto) w); simpl; [|apply grows_refl].
  destruct (bool_decide (fromUserId = dto_to dto)); [apply grows_refl|].
  destruct (store_write_error fromUserId dto) as [e|] eqn:E;
    [apply grows_refl|].
  assert (messages (after_publish (new_message fromUserId dto w)
                      (after_save (new_message fromUserId dto w) w))
          = (messages w ++ [new_message fromUserId dto w])%list) as Hm.
  { unfold after_publish. simpl. by destruct (brokerUp w). }
  simpl. rewrite Hm. by apply grows_snoc, new_message_well_formed.
Qed.

Lemma markAsRead_grows messageId userId w :
  grows (messages w) (messages (snd (ChatService.markAsRead messageId userId w))).
Proof.
  destruct (ObjectId.isValid messageId) eqn:Hm;
    [destruct (ObjectId.isValid userId) eqn:Hu|].
  - destruct (list_find
                (λ m, ChatService.read_filter (ObjectId.lowercase messageId)
                        (ObjectId.lowercase userId) m = true) (messages w))
      as [[i x]|] eqn:Hfind.
    + rewrite (markAsRead_found _ _ _ _ _ Hm Hu Hfind). simpl.
      apply list_find_Some in Hfind as (Hi & _ & _).
      apply (grows_insert _ _ x); [done|]. right. exists (clock w). by left.
    + rewrite (markAsRead_not_found _ _ _ Hm Hu Hfind). apply grows_refl.
  - unfold ChatService.markAsRead. rewrite Hm, Hu. apply grows_refl.
  - unfold ChatService.markAsRead. rewrite Hm. apply grows_refl.
Qed.

Lemma markConversationAsRead_grows userId fromUserId w :
  grows (messages w)
    (messages (snd (ChatService.markConversationAsRead userId fromUserId w))).
Proof.
  destruct (ObjectId.isValid userId) eqn:Hu;
    [destruct (ObjectId.isValid fromUserId) eqn:Hf|].
  - rewrite markConversationAsRead_valid by done. apply grows_read_all.
  - unfold ChatService.markConversationAsRead. rewrite Hu, Hf.
    apply grows_refl.
  - unfold ChatService.markConversationAsRead. rewrite Hu. apply grows_refl.
Qed.

Lemma deleteMessage_grows messageId userId w :
  grows (messages w)
    (messages (snd (ChatService.deleteMessage messageId userId w))).
Proof.
  destruct (ObjectId.isValid messageId) eqn:Hm;
    [destruct (ObjectId.isValid userId) eqn:Hu|].
  - destruct (list_find
                (λ m, ChatService.delete_filter (ObjectId.lowercase messageId)
                        (ObjectId.lowercase userId) m = true) (messages w))
      as [[i x]|] eqn:Hfind.
    + rewrite (deleteMessage_found _ _ _ _ _ Hm Hu Hfind). simpl.
      apply list_find_Some in Hfind as (Hi & _ & _).
      apply (grows_insert _ _ x); [done|]. right. exists (clock w).
      by right; right.
    + rewrite (deleteMessage_not_found _ _ _ Hm Hu Hfind). apply grows_refl.
  - unfold ChatService.deleteMessage. rewrite Hm, Hu. apply grows_refl.
  - unfold ChatService.deleteMessage. rewrite Hm. apply grows_refl.
Qed.

Lemma markAsDelivered_grows messageId w :
  grows (messages w) (messages (snd (ChatService.markAsDelivered messageId w))).
Proof.
  destruct (ObjectId.isValid messageId) eqn:Hv.
  - destruct (list_find
                (λ m, bool_decide (_id m = ObjectId.lowercase messageId) = true)
                (messages w)) as [[i x]|] eqn:Hfind.
    + rewrite (markAsDelivered_found _ _ _ _ Hv Hfind). simpl.
      apply list_find_Some in Hfind as (Hi & _ & _).
      apply (grows_insert _ _ x); [done|]. right. exists (clock w).
      by right; left.
    + rewrite (markAsDelivered_not_found _ _ Hv Hfind). apply grows_refl.
  - unfold ChatService.markAsDelivered. rewrite Hv. apply grows_refl.
Qed.

(** The consumer changes the collection through [markAsDelivered] only,
    called when the first delay is over. *)
Lemma consume_messages data context w :
  messages (snd (ChatMicroservice.consume data context w))
  = messages
      (snd (ChatService.markAsDelivered (ev_messageId data)
              (set_clock (clock w + 500) w))).
Proof.
  assert (Hindep : ∀ w1 w2,
            messages w1 = messages w2 → clock w1 = clock w2 →
            messages (snd (ChatService.markAsDelivered (ev_messageId data) w1))
            = messages (snd (ChatService.markAsDelivered (ev_messageId data) w2))).
  { intros w1 w2 Hm Hc. unfold ChatService.markAsDelivered, newObjectId.
    destruct (ObjectId.isValid (ev_messageId data)); simpl; [|done].
    unfold Model.findByIdAndUpdate, Model.findOneAndUpdate. run.
    rewrite Hm, Hc. by destruct (Model.update_one _ _ _). }
  unfold ChatMicroservice.consume, ChatMicroservice.handleMessageSent,
    ChatMicroservice.sendPushNotification, ChatMicroservice.content_preview,
    ChatMicroservice.notifyReceiverViaWebSocker,
    ChatMicroservice.logMessageAnalytics, ChatMicroservice.simulateDelay,
    ChatMicroservice.channel_ack.
  run.
  match goal with
  | |- context [ChatService.markAsDelivered ?id ?w0] =>
      rewrite <-(Hindep w0 (set_clock (clock w + 500) w)) by done;
      destruct (ChatService.markAsDelivered id w0) as [[[]|e] w1]
  end; simpl; [|done].
  by destruct (ev_content data).
Qed.

Lemma step_grows w op : grows (messages w) (messages (step w op)).
Proof.
  destruct op; simpl.
  - apply sendMessage_grows.
  - apply markAsRead_grows.
  - apply markConversationAsRead_grows.
  - apply deleteMessage_grows.
  - apply markAsDelivered_grows.
  - rewrite consume_messages.
    apply (markAsDelivered_grows _ (set_clock (clock w + 500) w)).
  - apply grows_refl.
Qed.

(** X15: the invariant of the collection.  If every stored message is
    well-formed (sender and receiver differ, the content is non-empty and
    at most 5000 code units, the type is one of the schema, [delivered],
    [read] and [isDeleted] are set exactly when their dates are, and a read
    message is delivered), then so is every stored message after any
    sequence of sends, reads, bulk reads, deletions, delivery marks and
    consumed events, whether these calls return or throw. *)
Theorem collection_stays_well_formed (ops : list Operation) (w : World) :
  Forall well_formed (messages w) →
  Forall well_formed (messages (run ops w)).
Proof.
  unfold run. revert w. induction ops as [|op ops IH]; intros w Hw; [done|].
  simpl. apply IH. destruct (step_grows w op) as [Hold Hnew].
  apply Forall_forall. intros m' Hm'.
  apply list_elem_of_lookup in Hm' as [j Hj].
  destruct (decide (j < length (messages w))%nat) as [Hlt|Hge].
  - destruct (lookup_lt_is_Some_2 _ _ Hlt) as [m Hm].
    destruct (Hold j m Hm) as (m2 & Hj2 & Ht). simplify_eq.
    eapply touched_well_formed; [done|].
    rewrite Forall_forall in Hw. apply Hw. by eapply list_elem_of_lookup_2.
  - apply (Hnew j m' Hj). lia.
Qed.

Lemma collection_stays_well_formed_witness :
  Forall well_formed
    (messages
       (run [OpSend Examples.alice Examples.greeting;
             OpConsume Examples.hello_sent {| deliveryTag := 1 |};
             OpMarkAsRead "65a000000000000000000001" Examples.bob;
             OpDelete "65a000000000000000000001" Examples.alice]
          (Examples.world [Examples.hello] true))).
Proof.
  apply collection_stays_well_formed.
  apply Forall_singleton. unfold well_formed, consistent. simpl.
  split_and!; try done; try (split; [done|by intros [? ?]]).
  - vm_compute. lia.
  - by left.
Defined.

(** X16: no call removes, moves or rewrites a message.  After any sequence
    of operations a message is still at its place in the collection, with
    the id, sender, receiver, content, type, attachment and creation time it
    had; and a message that was delivered, read or deleted still is. *)
Theorem messages_are_never_lost_or_rewritten
    (ops : list Operation) (w : World) (j : nat) (m : Message) :
  messages w !! j = Some m →
  ∃ m', messages (run ops w) !! j = Some m' ∧ later_state m m'.
Proof.
  unfold run. revert w m. induction ops as [|op ops IH]; intros w m Hj.
  - exists m. split; [done|]. apply touched_later_state. by left.
  - simpl. destruct (step_grows w op) as [Hold _].
    destruct (Hold j m Hj) as (m1 & Hj1 & Ht).
    destruct (IH _ _ Hj1) as (m' & Hj' & Hl).
    exists m'. split; [done|].
    eapply later_state_trans; [by apply touched_later_state|done].
Qed.

Lemma messages_are_never_lost_or_rewritten_witness :
  ∃ m',
    messages
      (run [OpDelete "65a000000000000000000001" Examples.alice;
            OpMarkAsDelivered "65a000000000000000000001"]
         (Examples.world [Examples.hello] true)) !! 0%nat = Some m'
    ∧ later_state Examples.hello m'.
Proof.
  exact (messages_are_never_lost_or_rewritten
           [OpDelete "65a000000000000000000001" Examples.alice;
            OpMarkAsDelivered "65a000000000000000000001"]
           (Examples.world [Examples.hello] true) 0 Examples.hello eq_refl).
Defined.

(** ** The consumer on the real service *)

(** [markAsDelivered] returns normally and touches the collection only. *)
Lemma markAsDelivered_world messageId w :
  ChatService.markAsDelivered messageId w
  = (Ok tt,
     set_messages (messages (snd (ChatService.markAsDelivered messageId w))) w).
Proof.
  unfold ChatService.markAsDelivered, newObjectId.
  destruct (ObjectId.isValid messageId); simpl.
  - unfold Model.findByIdAndUpdate, Model.findOneAndUpdate. run.
    by destruct (Model.update_one _ _ _).
  - by rewrite set_messages_same.
Qed.

(** X17: the consumer wired to the real service always returns normally
    and acknowledges the event once.  The collection is the one
    [markAsDelivered] leaves when called 500 ms after the event came in.
    With a content in the payload the whole pipeline runs: 800 ms pass and
    the console ends with the completion line.  Without one the push step
    raises after the delivery mark: only 500 ms pass, the mark is not taken
    back, and the console ends with the caught [TypeError]. *)
Theorem consume_runs_the_pipeline
    (data : DeliveryEvent) (context : RmqContext) (w : World) :
  ∃ w',
    ChatMicroservice.consume data context w = (Ok tt, w')
    ∧ acked w' = (acked w ++ [deliveryTag context])%list
    ∧ emitted w' = emitted w
    ∧ users w' = users w
    ∧ messages w'
      = messages (snd (ChatService.markAsDelivered (ev_messageId data)
                         (set_clock (clock w + 500) w)))
    ∧ match ev_content data with
      | Some _ =>
          clock w' = clock w + 800
          ∧ last (console w')
            = Some (Log ("Message processing completed: "
                         +:+ ev_messageId data))
      | None =>
          clock w' = clock w + 500
          ∧ last (console w')
            = Some (LogError "Error processing messages:"
                      (TypeError "Cannot read properties of undefined (reading 'substring')"))
      end.
Proof.
  exists (snd (ChatMicroservice.consume data context w)).
  rewrite <-(consume_messages data context w).
  unfold ChatMicroservice.consume, ChatMicroservice.handleMessageSent,
    ChatMicroservice.sendPushNotification, ChatMicroservice.content_preview,
    ChatMicroservice.notifyReceiverViaWebSocker,
    ChatMicroservice.logMessageAnalytics, ChatMicroservice.simulateDelay,
    ChatMicroservice.channel_ack.
  run.
  match goal with
  | |- context [ChatService.markAsDelivered ?id ?w0] =>
      rewrite (markAsDelivered_world id w0)
  end.
  destruct (ev_content data); simpl; split_and!; try reflexivity;
    try apply last_snoc; lia.
Qed.

(** ** The pagination arguments of the controller *)

Example parseInt_examples :
  ChatController.parseInt "25" = ChatController.Num 25
  ∧ ChatController.parseInt "  -7px" = ChatController.Num (-7)
  ∧ ChatController.parseInt "0x1F" = ChatController.Num 31
  ∧ ChatController.parseInt "abc" = ChatController.NaN
  ∧ ChatController.parseInt "" = ChatController.NaN
  ∧ ChatController.parseInt "9007199254740993"
    = ChatController.Num 9007199254740992
  ∧ ChatController.parseInt "1e400" = ChatController.Num 1
  ∧ ChatController.limitNum (Some "1000") = ChatController.Num 200
  ∧ ChatController.limitNum (Some "0") = ChatController.Num 1
  ∧ ChatController.limitNum None = ChatController.Num 50
  ∧ ChatController.skipNum (Some "-3") = ChatController.Num 0
  ∧ ChatController.skipNum None = ChatController.Num 0.
Proof. repeat split. Qed.

(** A number of 400 digits is beyond the doubles: as a limit it is cut to
    200, as a skip it stays infinite. *)
Example parseInt_overflow :
  let nines := String.concat "" (replicate 400 "9") in
  ChatController.parseInt nines = ChatController.PosInfinity
  ∧ ChatController.limitNum (Some nines) = ChatController.Num 200
  ∧ ChatController.skipNum (Some nines) = ChatController.PosInfinity
  ∧ ChatController.skipNum (Some ("-" +:+ nines)) = ChatController.Num 0.
Proof. vm_compute. repeat split. Qed.

(** X18: whatever the client sends as [limit] and [skip], the controller's
    [limitNum] is an integer from 1 to 200, or [NaN], and [NaN] exactly when
    [parseInt] finds no number at the head of the text; it is never
    infinite.  Its [skipNum] is an integer that is not negative, or [NaN]
    under the same condition, or [Infinity] exactly when the digits write a
    number beyond the doubles.  An absent [limit] gives 50 and an absent
    [skip] gives 0. *)
Theorem pagination_arguments_are_clamped
    (limit skip : ChatController.QueryValue) :
  match ChatController.limitNum limit with
  | ChatController.Num n => 1 ≤ n ≤ 200
  | ChatController.NaN => True
  | ChatController.PosInfinity | ChatController.NegInfinity => False
  end
  ∧ (ChatController.limitNum limit = ChatController.NaN
     ↔ ChatController.parseInt (ChatController.String_limit limit)
       = ChatController.NaN)
  ∧ match ChatController.skipNum skip with
    | ChatController.Num n => 0 ≤ n
    | ChatController.NegInfinity => False
    | ChatController.PosInfinity | ChatController.NaN => True
    end
  ∧ (ChatController.skipNum skip = ChatController.NaN
     ↔ ChatController.parseInt (ChatController.String_skip skip)
       = ChatController.NaN)
  ∧ (ChatController.skipNum skip = ChatController.PosInfinity
     ↔ ChatController.parseInt (ChatController.String_skip skip)
       = ChatController.PosInfinity)
  ∧ ChatController.limitNum None = ChatController.Num 50
  ∧ ChatController.skipNum None = ChatController.Num 0.
Proof.
  unfold ChatController.limitNum, ChatController.skipNum.
  split_and!; try done.
  - destruct (ChatController.parseInt (ChatController.String_limit limit));
      simpl; (lia || done).
  - by destruct (ChatController.parseInt (ChatController.String_limit limit)).
  - destruct (ChatController.parseInt (ChatController.String_skip skip));
      simpl; (lia || done).
  - by destruct (ChatController.parseInt (ChatController.String_skip skip)).
  - by destruct (ChatController.parseInt (ChatController.String_skip skip)).
Qed.

(** X19: with the arguments the controller computes, when they are
    numbers (neither [NaN] nor infinite) and the skip is one the store can
    read, a 64-bit integer, a conversation request is never the unlimited
    query: the limit is from 1 to 200, the skip is not negative, and the
    service returns the page of that size of the conversation, oldest
    first, at most 200 messages. *)
Theorem controller_conversation_page_is_bounded
    (limit skip : ChatController.QueryValue) (l s : Z)
    (userId1 userId2 : string) (w : World) :
  ChatController.limitNum limit = ChatController.Num l →
  ChatController.skipNum skip = ChatController.Num s →
  s < 2 ^ 63 →
  ObjectId.isValid userId1 = true →
  ObjectId.isValid userId2 = true →
  ∃ page,
    1 ≤ l ≤ 200 ∧ 0 ≤ s
    ∧ ChatService.getConversation userId1 userId2 (Z.to_nat l) (Z.to_nat s) w
      = (Ok page, w)
    ∧ doc <$> page
      = Spec.conversation_page (ObjectId.lowercase userId1)
          (ObjectId.lowercase userId2) (Z.to_nat l) (Z.to_nat s) (messages w)
    ∧ (length page ≤ 200)%nat.
Proof.
  intros Hl Hs _ H1 H2.
  assert (1 ≤ l ≤ 200) as Hbound.
  { unfold ChatController.limitNum in Hl.
    destruct (ChatController.parseInt (ChatController.String_limit limit));
      simpl in Hl; try done; injection Hl as <-; lia. }
  assert (0 ≤ s) as Hskip.
  { unfold ChatController.skipNum in Hs.
    destruct (ChatController.parseInt (ChatController.String_skip skip));
      simpl in Hs; try done; injection Hs as <-; lia. }
  eexists. split; [done|]. split; [done|].
  split; [by apply getConversation_valid|].
  unfold Model.cursor. simpl. rewrite matching_conversation.
  destruct (Z.to_nat l) as [|n] eqn:En; [lia|].
  rewrite <-fmap_reverse, <-list_fmap_compose.
  split.
  - unfold Spec.conversation_page. by rewrite list_fmap_id.
  - rewrite length_fmap, length_reverse, length_take. lia.
Qed.

Lemma controller_conversation_page_is_bounded_witness :
  ∃ page,
    ChatService.getConversation Examples.alice Examples.bob 200 0
      (Examples.world [Examples.hello] true)
    = (Ok page, Examples.world [Examples.hello] true)
    ∧ (length page ≤ 200)%nat.
Proof.
  destruct (controller_conversation_page_is_bounded (Some "5000") None 200 0
              Examples.alice Examples.bob
              (Examples.world [Examples.hello] true)
              eq_refl eq_refl eq_refl eq_refl eq_refl)
    as (page & _ & _ & H & _ & Hlen).
  exists page. split; [exact H | exact Hlen].
Defined.

(** ** Who is on the chat list *)

Lemma group_has_key key inc (l : list Message) m :
  m ∈ l → ∃ g, g ∈ Aggregate.group key inc l ∧ Aggregate.g_id g = key m.
Proof.
  intros Hm. unfold Aggregate.group.
  destruct (filter (λ x, key x = key m) l) as [|first rest] eqn:E.
  { assert (m ∈ filter (λ x, key x = key m) l) as Hin
      by by apply list_elem_of_filter.
    rewrite E in Hin. by apply not_elem_of_nil in Hin. }
  eexists. split; [|shelve].
  apply list_elem_of_omap. exists (key m). split.
  - apply elem_of_remove_dups, list_elem_of_fmap. by exists m.
  - rewrite E. reflexivity.
  Unshelve. done.
Qed.

(** X20: for a valid user id, the chat list has an entry for every
    counterpart who is an existing user and with whom the user has
    exchanged a message that is not deleted, and every entry is of that
    kind: its [username] and [email] are those of the user its [userId]
    names.  Counterparts whose user no longer exists have no entry. *)
Theorem getChatList_lists_the_existing_counterparts
    (user : string) (w : World) :
  ObjectId.isValid user = true →
  ∃ l,
    ChatService.getChatList user w = (Ok l, w)
    ∧ (∀ c m usr,
         m ∈ messages w →
         Spec.between (ObjectId.lowercase user) c m →
         users w !! c = Some usr →
         ∃ e, e ∈ l ∧ Aggregate.userId e = c
              ∧ Aggregate.c_username e = username usr
              ∧ Aggregate.c_email e = email usr)
    ∧ (∀ e, e ∈ l →
         ∃ usr, users w !! Aggregate.userId e = Some usr
                ∧ Aggregate.c_username e = username usr
                ∧ Aggregate.c_email e = email usr).
Proof.
  intros Hv. eexists. split; [by apply getChatList_valid|].
  rewrite chat_list_pipeline_omap. split.
  - intros c m usr Hin Hb Hu.
    apply involves_counterpart_between in Hb as [Hi Hc].
    assert (Hm : m ∈ grouped (ObjectId.lowercase user) (messages w)).
    { by apply elem_of_grouped. }
    destruct (group_has_key (ChatService.counterpart (ObjectId.lowercase user))
                (ChatService.unread_inc (ObjectId.lowercase user)) _ m Hm)
      as (g & Hg & Hid).
    exists (Aggregate.project (g, usr)). split.
    + apply list_elem_of_omap. exists g. split.
      * unfold Aggregate.sort_lastMessage_desc.
        by rewrite merge_sort_Permutation.
      * by rewrite Hid, Hc, Hu.
    + simpl. by rewrite Hid, Hc.
  - intros e He. apply list_elem_of_omap in He as (g & _ & He).
    destruct (users w !! Aggregate.g_id g) as [usr|] eqn:Hu; [|done].
    simplify_eq/=. by exists usr.
Qed.

Lemma getChatList_lists_the_existing_counterparts_witness :
  ∃ l,
    ChatService.getChatList Examples.bob (Examples.world [Examples.hello] true)
    = (Ok l, Examples.world [Examples.hello] true)
    ∧ ∃ e, e ∈ l ∧ Aggregate.userId e = Examples.alice
           ∧ Aggregate.c_username e = "alice".
Proof.
  destruct (getChatList_lists_the_existing_counterparts Examples.bob
              (Examples.world [Examples.hello] true) eq_refl)
    as (l & H & Hall & _).
  exists l. split; [exact H|].
  destruct (Hall Examples.alice Examples.hello
              {| username := "alice"; email := "alice@example.com" |})
    as (e & He & Hid & Hname & _).
  - apply list_elem_of_singleton. reflexivity.
  - split; [|reflexivity]. right. split; reflexivity.
  - reflexivity.
  - exists e. split; [exact He|]. split; [exact Hid | exact Hname].
Defined.

(** ** Paging through a conversation *)

(** X21: the page after a page of a conversation (the same [limit], [skip]
    moved on by [limit]) holds the messages just older than those of the
    page: the two pages, the older one first, are the page of the double
    size. *)
Theorem getConversation_next_page_is_older
    (userId1 userId2 : string) (limit skip : nat) (w : World) :
  ObjectId.isValid userId1 = true →
  ObjectId.isValid userId2 = true →
  (0 < limit)%nat →
  ∃ page next both,
    ChatService.getConversation userId1 userId2 limit skip w = (Ok page, w)
    ∧ ChatService.getConversation userId1 userId2 limit (skip + limit) w
      = (Ok next, w)
    ∧ ChatService.getConversation userId1 userId2 (limit + limit) skip w
      = (Ok both, w)
    ∧ both = (next ++ page)%list.
Proof.
  intros H1 H2 Hlimit. eexists _, _, _.
  split; [by apply getConversation_valid|].
  split; [by apply getConversation_valid|].
  split; [by apply getConversation_valid|].
  unfold Model.cursor. simpl.
  destruct limit as [|n]; [lia|]. simpl.
  rewrite <-reverse_app, <-fmap_app. do 2 f_equal.
  rewrite <-drop_drop.
  apply (eq_sym (take_take_drop _ (S n) (S n))).
Qed.

Lemma getConversation_next_page_is_older_witness :
  ∃ page next both,
    ChatService.getConversation Examples.alice Examples.bob 1 0
      (Examples.world
         [Examples.hello;
          Examples.message "65a000000000000000000002" Examples.bob
            Examples.alice "hi" 2000] true)
    = (Ok page,
       Examples.world
         [Examples.hello;
          Examples.message "65a000000000000000000002" Examples.bob
            Examples.alice "hi" 2000] true)
    ∧ ChatService.getConversation Examples.alice Examples.bob 1 1
        (Examples.world
           [Examples.hello;
            Examples.message "65a000000000000000000002" Examples.bob
              Examples.alice "hi" 2000] true)
      = (Ok next,
         Examples.world
           [Examples.hello;
            Examples.message "65a000000000000000000002" Examples.bob
              Examples.alice "hi" 2000] true)
    ∧ ChatService.getConversation Examples.alice Examples.bob 2 0
        (Examples.world
           [Examples.hello;
            Examples.message "65a000000000000000000002" Examples.bob
              Examples.alice "hi" 2000] true)
      = (Ok both,
         Examples.world
           [Examples.hello;
            Examples.message "65a000000000000000000002" Examples.bob
              Examples.alice "hi" 2000] true)
    ∧ both = (next ++ page)%list.
Proof.
  exact (getConversation_next_page_is_older Examples.alice Examples.bob 1 0
           (Examples.world
              [Examples.hello;
               Examples.message "65a000000000000000000002" Examples.bob
                 Examples.alice "hi" 2000] true)
           eq_refl eq_refl (le_n 1)).
Defined.

(** ** The queries change nothing *)

(** X22: the five queries of the service are read-only: whatever their
    arguments, and whether they return or throw, they leave the
    collections, the queue, the clock and the console as they were. *)
Theorem queries_change_nothing (w : World) :
  (∀ userId1 userId2 limit skip,
     snd (ChatService.getConversation userId1 userId2 limit skip w) = w)
  ∧ (∀ userId limit skip,
       snd (ChatService.getInboxMessages userId limit skip w) = w)
  ∧ (∀ userId, snd (ChatService.getUnreadMessages userId w) = w)
  ∧ (∀ userId, snd (ChatService.getUnreadCount userId w) = w)
  ∧ (∀ userId, snd (ChatService.getChatList userId w) = w).
Proof.
  split_and!; intros.
  - unfold ChatService.getConversation, newObjectId.
    by destruct (ObjectId.isValid userId1), (ObjectId.isValid userId2).
  - unfold ChatService.getInboxMessages, newObjectId.
    by destruct (ObjectId.isValid userId).
  - unfold ChatService.getUnreadMessages, newObjectId.
    by destruct (ObjectId.isValid userId).
  - unfold ChatService.getUnreadCount, newObjectId.
    by destruct (ObjectId.isValid userId).
  - unfold ChatService.getChatList, newObjectId.
    by destruct (ObjectId.isValid userId).
Qed.

(** ** A sent message and its receiver *)

Lemma sendMessage_Ok_inv fromUserId dto w d w' :
  ChatService.sendMessage fromUserId dto w = (Ok d, w') →
  user_exists fromUserId w = true
  ∧ user_exists (dto_to dto) w = true
  ∧ store_write_error fromUserId dto = None
  ∧ doc d = new_message fromUserId dto w
  ∧ messages w' = (messages w ++ [new_message fromUserId dto w])%list.
Proof.
  rewrite sendMessage_outcome. intros H.
  destruct (user_exists fromUserId w); simpl in H; [|done].
  destruct (user_exists (dto_to dto) w); simpl in H; [|done].
  destruct (bool_decide (fromUserId = dto_to dto)); [done|].
  destruct (store_write_error fromUserId dto); [done|].
  simplify_eq. split_and!; try done.
  unfold after_publish. simpl. by destruct (brokerUp w).
Qed.

(** X23: a message that [sendMessage] has returned is unread for its
    receiver: the unread count of the receiver is one higher than before,
    [getUnreadMessages] of the receiver returns the message, and the unread
    count of the sender is what it was. *)
Theorem sendMessage_is_unread_for_the_receiver
    (fromUserId : string) (dto : SendMessageDto) (w w' : World)
    (d : MessageDocument) :
  ChatService.sendMessage fromUserId dto w = (Ok d, w') →
  ∃ before unread mine,
    ChatService.getUnreadCount (dto_to dto) w = (Ok before, w)
    ∧ ChatService.getUnreadCount (dto_to dto) w' = (Ok (S before), w')
    ∧ ChatService.getUnreadMessages (dto_to dto) w' = (Ok unread, w')
    ∧ doc d ∈ doc <$> unread
    ∧ ChatService.getUnreadCount fromUserId w = (Ok mine, w)
    ∧ ChatService.getUnreadCount fromUserId w' = (Ok mine, w').
Proof.
  intros H. apply sendMessage_Ok_inv in H as (Hfrom & Hto & Hok & Hd & Hm).
  assert (Hvf : ObjectId.isValid fromUserId = true).
  { by apply andb_true_iff in Hfrom as [? _]. }
  assert (Hvt : ObjectId.isValid (dto_to dto) = true).
  { by apply andb_true_iff in Hto as [? _]. }
  apply store_write_error_None in Hok as (Hne & _).
  assert (Hnew : ChatService.unread_filter (ObjectId.lowercase (dto_to dto))
                   (new_message fromUserId dto w) = true).
  { by apply unread_filter_true. }
  assert (Hnot : ChatService.unread_filter (ObjectId.lowercase fromUserId)
                   (new_message fromUserId dto w) ≠ true).
  { rewrite unread_filter_true. simpl. intros (? & _). congruence. }
  eexists _, _, _.
  split; [by apply getUnreadCount_valid|].
  split.
  { rewrite getUnreadCount_valid by done. rewrite Hm. unfold Model.matching.
    rewrite filter_app, length_app, filter_cons, decide_True by done.
    simpl. do 2 f_equal. lia. }
  split; [by apply getUnreadMessages_valid|].
  split.
  { rewrite <-list_fmap_compose, Hd. apply list_elem_of_fmap.
    exists (new_message fromUserId dto w). split; [done|].
    rewrite cursor_all by done. simpl. unfold Model.matching.
    apply list_elem_of_filter. split; [done|].
    rewrite Hm. apply elem_of_app. right. by left. }
  split; [by apply getUnreadCount_valid|].
  rewrite getUnreadCount_valid by done. rewrite Hm. unfold Model.matching.
  rewrite filter_app, length_app, filter_cons, decide_False by done.
  simpl. do 2 f_equal. lia.
Qed.

Lemma sendMessage_is_unread_for_the_receiver_witness :
  ∃ before,
    ChatService.getUnreadCount Examples.bob (Examples.world [] true)
    = (Ok before, Examples.world [] true)
    ∧ fst (ChatService.getUnreadCount Examples.bob
             (snd (ChatService.sendMessage Examples.alice Examples.greeting
                     (Examples.world [] true))))
      = Ok (S before).
Proof.
  destruct (sendMessage_is_unread_for_the_receiver Examples.alice
              Examples.greeting (Examples.world [] true)
              (snd (ChatService.sendMessage Examples.alice Examples.greeting
                      (Examples.world [] true)))
              (populate_paths Examples.registered [path_from; path_to]
                 (unpopulated Examples.greeting_saved)) eq_refl)
    as (before & unread & mine & H1 & H2 & _).
  exists before. split; [exact H1|].
  exact (f_equal fst H2).
Defined.

(** ** From the send to the delivery mark *)

Lemma hex_digit_hex d :
  (d < 16)%N →
  ObjectId.is_hex (ObjectId.hex_digit d) = true
  ∧ ObjectId.lower (ObjectId.hex_digit d) = ObjectId.hex_digit d.
Proof.
  intros Hd.
  assert (d = 0 ∨ d = 1 ∨ d = 2 ∨ d = 3 ∨ d = 4 ∨ d = 5 ∨ d = 6 ∨ d = 7
          ∨ d = 8 ∨ d = 9 ∨ d = 10 ∨ d = 11 ∨ d = 12 ∨ d = 13 ∨ d = 14
          ∨ d = 15)%N as Hcases by lia.
  repeat (destruct Hcases as [->|Hcases]; [by split|]).
  subst d. by split.
Qed.

Lemma hex_digits_valid k n acc :
  ObjectId.all_hex acc = true → ObjectId.lowercase acc = acc →
  String.length (ObjectId.hex_digits k n acc) = (k + String.length acc)%nat
  ∧ ObjectId.all_hex (ObjectId.hex_digits k n acc) = true
  ∧ ObjectId.lowercase (ObjectId.hex_digits k n acc)
    = ObjectId.hex_digits k n acc.
Proof.
  revert n acc. induction k as [|k IH]; intros n acc Hh Hl; simpl; [done|].
  destruct (hex_digit_hex (n mod 16)%N) as [Hx Hlow].
  { by apply N.mod_lt. }
  destruct (IH (n / 16)%N (String (ObjectId.hex_digit (n mod 16)%N) acc))
    as (Hlen & ? & ?).
  - simpl. by rewrite Hx, Hh.
  - simpl. by rewrite Hlow, Hl.
  - split; [|done]. rewrite Hlen. simpl. lia.
Qed.

(** A generated id is an ObjectId in the form [toString()] prints. *)
Lemma of_counter_valid n :
  ObjectId.isValid (ObjectId.of_counter n) = true
  ∧ ObjectId.lowercase (ObjectId.of_counter n) = ObjectId.of_counter n.
Proof.
  destruct (hex_digits_valid 24 n EmptyString eq_refl eq_refl)
    as (Hlen & Hh & Hl).
  split; [|done]. unfold ObjectId.isValid, ObjectId.of_counter.
  rewrite Hlen, Hh. reflexivity.
Qed.

Lemma consume_returns data context w :
  fst (ChatMicroservice.consume data context w) = Ok tt.
Proof.
  unfold ChatMicroservice.consume, ChatMicroservice.handleMessageSent,
    ChatMicroservice.sendPushNotification, ChatMicroservice.content_preview,
    ChatMicroservice.notifyReceiverViaWebSocker,
    ChatMicroservice.logMessageAnalytics, ChatMicroservice.simulateDelay,
    ChatMicroservice.channel_ack.
  run.
  match goal with
  | |- context [ChatService.markAsDelivered ?id ?w0] =>
      rewrite (markAsDelivered_world id w0)
  end.
  by destruct (ev_content data).
Qed.

Arguments ObjectId.of_counter : simpl never.

Lemma sendMessage_Ok_world fromUserId dto w d w' :
  ChatService.sendMessage fromUserId dto w = (Ok d, w') →
  w' = after_publish (new_message fromUserId dto w)
         (after_save (new_message fromUserId dto w) w).
Proof.
  rewrite sendMessage_outcome. intros H.
  destruct (user_exists fromUserId w); simpl in H; [|done].
  destruct (user_exists (dto_to dto) w); simpl in H; [|done].
  destruct (bool_decide (fromUserId = dto_to dto)); [done|].
  destruct (store_write_error fromUserId dto); [done|].
  by simplify_eq.
Qed.

(** The consumer on the real service acknowledges once and publishes
    nothing. *)
Lemma consume_acked data context w :
  acked (snd (ChatMicroservice.consume data context w))
  = (acked w ++ [deliveryTag context])%list
  ∧ emitted (snd (ChatMicroservice.consume data context w)) = emitted w.
Proof.
  unfold ChatMicroservice.consume, ChatMicroservice.handleMessageSent,
    ChatMicroservice.sendPushNotification, ChatMicroservice.content_preview,
    ChatMicroservice.notifyReceiverViaWebSocker,
    ChatMicroservice.logMessageAnalytics, ChatMicroservice.simulateDelay,
    ChatMicroservice.channel_ack.
  run.
  match goal with
  | |- context [ChatService.markAsDelivered ?id ?w0] =>
      rewrite (markAsDelivered_world id w0)
  end.
  by destruct (ev_content data).
Qed.

(** X24: from the send to the delivery mark.  When [sendMessage] has
    returned a message with the broker up, and no older message has the id
    of the new one, the last event on the queue is the ['message.sent'] event
    of that message, and the consumer, given this event, returns normally,
    marks exactly that message as delivered ([delivered = true],
    [deliveredAt] 500 ms after the consumer started, the rest of the message
    as it was sent), acknowledges the event once and publishes nothing;
    every other message is as it was. *)
Theorem sent_event_marks_the_message_delivered
    (fromUserId : string) (dto : SendMessageDto) (w w' : World)
    (d : MessageDocument) (context : RmqContext) :
  ChatService.sendMessage fromUserId dto w = (Ok d, w') →
  brokerUp w = true →
  (∀ m, m ∈ messages w → _id m ≠ _id (doc d)) →
  last (emitted w')
  = Some ("message.sent",
          {| ev_messageId := _id (doc d); ev_from := from (doc d);
             ev_to := to (doc d); ev_content := Some (content (doc d));
             ev_messageType := messageType (doc d);
             ev_timestamp := createdAt (doc d) |})
  ∧ ∃ m' w'',
      ChatMicroservice.consume (snd (sent_event (doc d))) context w'
      = (Ok tt, w'')
      ∧ messages w'' = (messages w ++ [m'])%list
      ∧ delivered m' = true ∧ deliveredAt m' = Some (clock w + 500)
      ∧ marked_delivered (clock w + 500) (doc d) m'
      ∧ acked w'' = (acked w' ++ [deliveryTag context])%list
      ∧ emitted w'' = emitted w'.
Proof.
  intros H Hup Hfresh. pose proof (sendMessage_Ok_world _ _ _ _ _ H) as Hw'.
  apply sendMessage_Ok_inv in H as (_ & _ & _ & Hd & Hm).
  rewrite Hd in *. set (new := new_message fromUserId dto w) in *.
  assert (Hclock : clock w' = clock w).
  { rewrite Hw'. unfold after_publish. simpl. by destruct (brokerUp w). }
  split.
  { rewrite Hw'. unfold after_publish. simpl. rewrite Hup. simpl.
    apply last_snoc. }
  pose proof (consume_returns (snd (sent_event new)) context w') as Hr.
  pose proof (consume_messages (snd (sent_event new)) context w') as Hcm.
  pose proof (consume_acked (snd (sent_event new)) context w') as [Hack Hemit].
  destruct (ChatMicroservice.consume (snd (sent_event new)) context w')
    as [r w''].
  cbn [fst snd] in Hr, Hcm, Hack, Hemit. subst r.
  exists (set_delivered (clock w + 500) new), w''. split; [done|].
  split; [|split; [done|split; [done|split; [apply set_delivered_marked|done]]]].
  rewrite Hcm. cbn [sent_event snd ev_messageId].
  destruct (of_counter_valid (nextId w)) as [Hvalid Hlower].
  assert (Hfind :
    list_find (λ m, bool_decide
                      (_id m = ObjectId.lowercase (ObjectId.of_counter (nextId w)))
                    = true)
      (messages (set_clock (clock w' + 500) w'))
    = Some (length (messages w), new)).
  { cbn [messages set_clock]. rewrite Hm, Hlower. rewrite list_find_app_r.
    - cbn [list_find]. rewrite decide_True by by apply bool_decide_eq_true.
      done.
    - apply list_find_None, Forall_forall. intros m Hin.
      rewrite bool_decide_eq_true. by apply Hfresh. }
  rewrite (markAsDelivered_found (_id new) _ _ _ Hvalid Hfind).
  cbn [snd messages set_messages set_clock clock]. rewrite Hm, Hclock.
  rewrite insert_app_r_alt by done. by rewrite Nat.sub_diag.
Qed.

Lemma sent_event_marks_the_message_delivered_witness :
  ∃ m' w'',
    ChatMicroservice.consume (snd (sent_event Examples.greeting_saved))
      {| deliveryTag := 1 |}
      (snd (ChatService.sendMessage Examples.alice Examples.greeting
              (Examples.world [] true)))
    = (Ok tt, w'')
    ∧ messages w'' = [m']
    ∧ delivered m' = true ∧ deliveredAt m' = Some 5500
    ∧ acked w'' = [1%nat].
Proof.
  destruct (sent_event_marks_the_message_delivered Examples.alice
              Examples.greeting (Examples.world [] true)
              (snd (ChatService.sendMessage Examples.alice Examples.greeting
                      (Examples.world [] true)))
              (populate_paths Examples.registered [path_from; path_to]
                 (unpopulated Examples.greeting_saved))
              {| deliveryTag := 1 |} eq_refl eq_refl)
    as (_ & m' & w'' & H & Hm & Hd & Hat & _ & Hack & _).
  - intros m Hin. by apply not_elem_of_nil in Hin.
  - exists m', w''. split; [exact H|]. split; [exact Hm|].
    split; [exact Hd|]. split; [exact Hat | exact Hack].
Defined.
